(** * Stagehand: instruction grounding, inference calls and the Google client

    A shallow embedding of the parts of the TypeScript sources that the
    specification's properties talk about:

    - [lib/index.ts]: the metrics counters ([updateMetrics],
      [updateTotalMetrics]), the log forwarding worker ([log],
      [_run_browserbase_log_processing_cycle], [_log_to_browserbase]) and the
      agent's [execute] closure;
    - [lib/inference.ts]: [fillInVariables], [extract], [observe],
      [actInference];
    - [lib/llm/GoogleClient.ts]: [mapMessagesToGoogleContent],
      [prepareGoogleContent] and [GoogleClient.createChatCompletion].

    Conventions.  JavaScript numbers that the code only uses as counters or
    millisecond timestamps are integers of [Z]; numbers inside JSON documents
    are exact rationals of [Q].  Strings are [string]s of bytes.  A call that
    may throw returns an [outcome]; code that talks to the outside world (the
    clock, the model provider, the file log) threads a world state and
    records its effects in a trace.  The data of a model response has the
    type that the TypeScript code casts it to. *)

From Stdlib Require Import ZArith QArith List String Ascii Bool Lia.
From Stdlib Require Import DecimalString Permutation.
Import ListNotations.

#[local] Set Warnings "-register-all".

Local Open Scope string_scope.
Local Open Scope Z_scope.

(** ** Exceptions and outcomes *)

(** A thrown JavaScript error: the name of its class and its message. *)
Record exn : Type := Exn { exn_name : string; exn_message : string }.

Inductive outcome (A : Type) : Type :=
| Return (a : A)
| Throw (e : exn).
Arguments Return {A} a.
Arguments Throw {A} e.

Definition StagehandError (message : string) : exn :=
  Exn "StagehandError" message.

Definition Error (message : string) : exn := Exn "Error" message.

Definition TypeError (message : string) : exn := Exn "TypeError" message.

(** ** Strings *)

(** [s.slice(n)]: the string without its first [n] characters. *)
Fixpoint drop (n : nat) (s : string) : string :=
  match n, s with
  | O, _ => s
  | S k, String _ r => drop k r
  | S _, EmptyString => EmptyString
  end.

(** [s.startsWith(p)], with what follows the prefix. *)
Definition starts_with (p s : string) : option string :=
  if String.prefix p s then Some (drop (String.length p) s) else None.

(** ** Metrics ([lib/index.ts], [Stagehand.stagehandMetrics]) *)

Module Metrics.

(** Modelled from the spec: the enum [StagehandFunctionName] of
    [types/stagehand], whose declaration is not among the sources; the
    operation kinds are the three that [updateMetrics] switches on. *)
Inductive StagehandFunctionName : Type := ACT | EXTRACT | OBSERVE.

Record StagehandMetrics : Type := {
  actPromptTokens : Z;
  actCompletionTokens : Z;
  actInferenceTimeMs : Z;
  extractPromptTokens : Z;
  extractCompletionTokens : Z;
  extractInferenceTimeMs : Z;
  observePromptTokens : Z;
  observeCompletionTokens : Z;
  observeInferenceTimeMs : Z;
  totalPromptTokens : Z;
  totalCompletionTokens : Z;
  totalInferenceTimeMs : Z
}.

(** The initial value of the field [stagehandMetrics]. *)
Definition initialMetrics : StagehandMetrics :=
  {| actPromptTokens := 0; actCompletionTokens := 0; actInferenceTimeMs := 0;
     extractPromptTokens := 0; extractCompletionTokens := 0;
     extractInferenceTimeMs := 0;
     observePromptTokens := 0; observeCompletionTokens := 0;
     observeInferenceTimeMs := 0;
     totalPromptTokens := 0; totalCompletionTokens := 0;
     totalInferenceTimeMs := 0 |}.

Definition updateTotalMetrics
  (promptTokens completionTokens inferenceTimeMs : Z)
  (m : StagehandMetrics) : StagehandMetrics :=
  {| actPromptTokens := actPromptTokens m;
     actCompletionTokens := actCompletionTokens m;
     actInferenceTimeMs := actInferenceTimeMs m;
     extractPromptTokens := extractPromptTokens m;
     extractCompletionTokens := extractCompletionTokens m;
     extractInferenceTimeMs := extractInferenceTimeMs m;
     observePromptTokens := observePromptTokens m;
     observeCompletionTokens := observeCompletionTokens m;
     observeInferenceTimeMs := observeInferenceTimeMs m;
     totalPromptTokens := totalPromptTokens m + promptTokens;
     totalCompletionTokens := totalCompletionTokens m + completionTokens;
     totalInferenceTimeMs := totalInferenceTimeMs m + inferenceTimeMs |}.

(** The [switch] of [updateMetrics]: one arm per operation kind, each adding
    the three deltas to the counters of that kind. *)
Definition updateKindMetrics (functionName : StagehandFunctionName)
  (promptTokens completionTokens inferenceTimeMs : Z)
  (m : StagehandMetrics) : StagehandMetrics :=
  match functionName with
  | ACT =>
      {| actPromptTokens := actPromptTokens m + promptTokens;
         actCompletionTokens := actCompletionTokens m + completionTokens;
         actInferenceTimeMs := actInferenceTimeMs m + inferenceTimeMs;
         extractPromptTokens := extractPromptTokens m;
         extractCompletionTokens := extractCompletionTokens m;
         extractInferenceTimeMs := extractInferenceTimeMs m;
         observePromptTokens := observePromptTokens m;
         observeCompletionTokens := observeCompletionTokens m;
         observeInferenceTimeMs := observeInferenceTimeMs m;
         totalPromptTokens := totalPromptTokens m;
         totalCompletionTokens := totalCompletionTokens m;
         totalInferenceTimeMs := totalInferenceTimeMs m |}
  | EXTRACT =>
      {| actPromptTokens := actPromptTokens m;
         actCompletionTokens := actCompletionTokens m;
         actInferenceTimeMs := actInferenceTimeMs m;
         extractPromptTokens := extractPromptTokens m + promptTokens;
         extractCompletionTokens := extractCompletionTokens m + completionTokens;
         extractInferenceTimeMs := extractInferenceTimeMs m + inferenceTimeMs;
         observePromptTokens := observePromptTokens m;
         observeCompletionTokens := observeCompletionTokens m;
         observeInferenceTimeMs := observeInferenceTimeMs m;
         totalPromptTokens := totalPromptTokens m;
         totalCompletionTokens := totalCompletionTokens m;
         totalInferenceTimeMs := totalInferenceTimeMs m |}
  | OBSERVE =>
      {| actPromptTokens := actPromptTokens m;
         actCompletionTokens := actCompletionTokens m;
         actInferenceTimeMs := actInferenceTimeMs m;
         extractPromptTokens := extractPromptTokens m;
         extractCompletionTokens := extractCompletionTokens m;
         extractInferenceTimeMs := extractInferenceTimeMs m;
         observePromptTokens := observePromptTokens m + promptTokens;
         observeCompletionTokens := observeCompletionTokens m + completionTokens;
         observeInferenceTimeMs := observeInferenceTimeMs m + inferenceTimeMs;
         totalPromptTokens := totalPromptTokens m;
         totalCompletionTokens := totalCompletionTokens m;
         totalInferenceTimeMs := totalInferenceTimeMs m |}
  end.

Definition updateMetrics (functionName : StagehandFunctionName)
  (promptTokens completionTokens inferenceTimeMs : Z)
  (m : StagehandMetrics) : StagehandMetrics :=
  updateTotalMetrics promptTokens completionTokens inferenceTimeMs
    (updateKindMetrics functionName promptTokens completionTokens
       inferenceTimeMs m).

(** The three counters of one operation kind, and the three totals. *)
Definition kindCounters (k : StagehandFunctionName) (m : StagehandMetrics)
  : Z * Z * Z :=
  match k with
  | ACT => (actPromptTokens m, actCompletionTokens m, actInferenceTimeMs m)
  | EXTRACT =>
      (extractPromptTokens m, extractCompletionTokens m,
       extractInferenceTimeMs m)
  | OBSERVE =>
      (observePromptTokens m, observeCompletionTokens m,
       observeInferenceTimeMs m)
  end.

Definition totalCounters (m : StagehandMetrics) : Z * Z * Z :=
  (totalPromptTokens m, totalCompletionTokens m, totalInferenceTimeMs m).

(** All twelve counters, in declaration order. *)
Definition allCounters (m : StagehandMetrics) : list Z :=
  [ actPromptTokens m; actCompletionTokens m; actInferenceTimeMs m;
    extractPromptTokens m; extractCompletionTokens m; extractInferenceTimeMs m;
    observePromptTokens m; observeCompletionTokens m; observeInferenceTimeMs m;
    totalPromptTokens m; totalCompletionTokens m; totalInferenceTimeMs m ].

End Metrics.

(** ** Log forwarding ([lib/index.ts], [Stagehand.log] and the drain cycle)

    JavaScript runs one task at a time, so the asynchronous worker is a state
    machine whose steps are the synchronous stretches between two [await]s:
    a call of [log], and the resumption of a cycle that was suspended on the
    promise of [_log_to_browserbase]. *)

Module Logs.

(** Modelled from the spec: the interface [LogLine] of [types/log], whose
    declaration is not among the sources; the fields are those that
    [lib/index.ts] reads or writes ([level] is optional, [id] is added by
    [log]). *)
Record LogLine : Type := {
  category : option string;
  message : string;
  level : option Z
}.

(** An entry of [pending_logs_to_send_to_browserbase]: [{...logObj, id}]. *)
Record PendingLog : Type := { id : nat; line : LogLine }.

(** What a suspended cycle is waiting for: the promise of a
    [_log_to_browserbase] that returned early, or one whose [page.evaluate]
    is in flight for an entry. *)
Inductive Awaiting : Type :=
| AwaitReturned
| AwaitEvaluate (p : PendingLog).

(** A cycle suspended inside its [for] loop: the promise awaited and the
    entries of its snapshot [pending_logs] still to be visited. *)
Record Cycle : Type := { awaiting : Awaiting; remaining : list PendingLog }.

Record State : Type := {
  stagehandPage : bool;           (* [this.stagehandPage] is set *)
  stagehandContext : bool;        (* [this.stagehandContext] is set *)
  verbose : Z;
  pending_logs_to_send_to_browserbase : list PendingLog;
  is_processing_browserbase_logs : bool;
  cycles : list Cycle;            (* the suspended drain cycles *)
  next_uuid : nat;                (* [randomUUID()]: never repeats *)
  externalLogger : list LogLine;  (* what the external logger received *)
  delivered : list PendingLog     (* entries whose [page.evaluate] resolved *)
}.

Definition initial (v : Z) : State :=
  {| stagehandPage := false; stagehandContext := false; verbose := v;
     pending_logs_to_send_to_browserbase := [];
     is_processing_browserbase_logs := false;
     cycles := []; next_uuid := 0%nat; externalLogger := []; delivered := [] |}.

Definition with_level (l : LogLine) : LogLine :=
  {| category := category l; message := message l;
     level := Some (match level l with Some n => n | None => 1 end) |}.

Definition level_of (l : LogLine) : Z :=
  match level l with Some n => n | None => 1 end.

(** The synchronous part of [_log_to_browserbase]: [None] when the getter
    [this.page] throws (a page without an initialised context). *)
Definition start_log_to_browserbase (s : State) (p : PendingLog)
  : option Awaiting :=
  if negb (stagehandPage s) then Some AwaitReturned
  else if level_of (line p) <=? verbose s then
    if stagehandContext s then Some (AwaitEvaluate p) else None
  else Some AwaitReturned.

Definition set_processing (b : bool) (s : State) : State :=
  {| stagehandPage := stagehandPage s; stagehandContext := stagehandContext s;
     verbose := verbose s;
     pending_logs_to_send_to_browserbase :=
       pending_logs_to_send_to_browserbase s;
     is_processing_browserbase_logs := b;
     cycles := cycles s; next_uuid := next_uuid s;
     externalLogger := externalLogger s; delivered := delivered s |}.

Definition set_cycles (cs : list Cycle) (s : State) : State :=
  {| stagehandPage := stagehandPage s; stagehandContext := stagehandContext s;
     verbose := verbose s;
     pending_logs_to_send_to_browserbase :=
       pending_logs_to_send_to_browserbase s;
     is_processing_browserbase_logs := is_processing_browserbase_logs s;
     cycles := cs; next_uuid := next_uuid s;
     externalLogger := externalLogger s; delivered := delivered s |}.

(** The [for] loop of the cycle from its current position, up to the next
    [await]: the cycle stays suspended on the next entry, or it ends and
    clears the flag, or it dies on an exception and leaves the flag set.
    [others] are the other suspended cycles. *)
Definition continue_cycle (others : list Cycle) (items : list PendingLog)
  (s : State) : State :=
  match items with
  | [] => set_processing false (set_cycles others s)
  | p :: rest =>
      match start_log_to_browserbase s p with
      | Some a => set_cycles ({| awaiting := a; remaining := rest |} :: others) s
      | None => set_cycles others s
      end
  end.

Definition _run_browserbase_log_processing_cycle (s : State) : State :=
  if is_processing_browserbase_logs s then s
  else
    let s1 := set_processing true s in
    continue_cycle (cycles s1) (pending_logs_to_send_to_browserbase s1) s1.

Definition log (logObj : LogLine) (s : State) : State :=
  let logObj := with_level logObj in
  let s1 :=
    {| stagehandPage := stagehandPage s;
       stagehandContext := stagehandContext s;
       verbose := verbose s;
       pending_logs_to_send_to_browserbase :=
         pending_logs_to_send_to_browserbase s
           ++ [ {| id := next_uuid s; line := logObj |} ];
       is_processing_browserbase_logs := is_processing_browserbase_logs s;
       cycles := cycles s;
       next_uuid := S (next_uuid s);
       externalLogger := externalLogger s ++ [logObj];
       delivered := delivered s |} in
  _run_browserbase_log_processing_cycle s1.

(** The [.then] callback of [page.evaluate]: the entry leaves the queue. *)
Definition evaluate_resolved (p : PendingLog) (s : State) : State :=
  {| stagehandPage := stagehandPage s; stagehandContext := stagehandContext s;
     verbose := verbose s;
     pending_logs_to_send_to_browserbase :=
       filter (fun q => negb (Nat.eqb (id q) (id p)))
         (pending_logs_to_send_to_browserbase s);
     is_processing_browserbase_logs := is_processing_browserbase_logs s;
     cycles := cycles s; next_uuid := next_uuid s;
     externalLogger := externalLogger s;
     delivered := delivered s ++ [p] |}.

Fixpoint remove_nth {A : Type} (n : nat) (l : list A) : list A :=
  match l, n with
  | [], _ => []
  | _ :: t, O => t
  | x :: t, S k => x :: remove_nth k t
  end.

(** The suspended cycle number [i] resumes; [ok] tells whether its
    [page.evaluate] resolved ([.then]) or rejected ([.catch(() => {})]). *)
Definition resume (i : nat) (ok : bool) (s : State) : State :=
  match nth_error (cycles s) i with
  | None => s
  | Some c =>
      let s1 :=
        match awaiting c with
        | AwaitEvaluate p => if ok then evaluate_resolved p s else s
        | AwaitReturned => s
        end in
      continue_cycle (remove_nth i (cycles s1)) (remaining c) s1
  end.

(** What can happen to a [Stagehand] object as far as logging goes. *)
Inductive Event : Type :=
| CallLog (logObj : LogLine)
| Resume (i : nat) (ok : bool)
| Init                       (* [init()] sets the context and the page *)
| SetActivePage.             (* [setActivePage] sets the page alone *)

Definition set_page (page context : bool) (s : State) : State :=
  {| stagehandPage := page; stagehandContext := context; verbose := verbose s;
     pending_logs_to_send_to_browserbase :=
       pending_logs_to_send_to_browserbase s;
     is_processing_browserbase_logs := is_processing_browserbase_logs s;
     cycles := cycles s; next_uuid := next_uuid s;
     externalLogger := externalLogger s; delivered := delivered s |}.

Definition step (s : State) (e : Event) : State :=
  match e with
  | CallLog l => log l s
  | Resume i ok => resume i ok s
  | Init => set_page true true s
  | SetActivePage => set_page true (stagehandContext s) s
  end.

Definition run (events : list Event) (s : State) : State :=
  fold_left step events s.

(** An entry with identifier [i] is in a list of entries. *)
Definition has_id (i : nat) (l : list PendingLog) : Prop :=
  exists p, In p l /\ id p = i.

Definition is_log_call (e : Event) : bool :=
  match e with CallLog _ => true | _ => false end.

(** The specification's sentence that every enqueued record is delivered
    by a draining cycle: whatever has been handed to [log] after [events],
    the worker delivers it in some continuation of the run that needs no
    further call of [log]. *)
Definition every_record_delivered (events : list Event) (s0 : State) : Prop :=
  forall i, (i < next_uuid (run events s0))%nat ->
    exists more,
      forallb (fun e => negb (is_log_call e)) more = true
      /\ has_id i (delivered (run (events ++ more) s0)).

(** The invariant of the worker: at most one cycle is suspended, and the
    flag is set whenever one is. *)
Definition one_cycle (s : State) : Prop :=
  (List.length (cycles s) <= 1)%nat
  /\ (cycles s <> [] -> is_processing_browserbase_logs s = true).

(** No identifier handed out so far is lost: its entry is still queued, or
    it has been delivered. *)
Definition none_lost (s : State) : Prop :=
  forall i, (i < next_uuid s)%nat ->
    has_id i (pending_logs_to_send_to_browserbase s) \/ has_id i (delivered s).

End Logs.

(** ** The agent's [execute] closure ([lib/index.ts], [Stagehand.agent]) *)

Module Agent.

(** Modelled from the spec: the interface [AgentExecuteOptions] of
    [types/agent], whose declaration is not among the sources; the
    specification gives it as [{instruction, stopCondition?}].  A property
    that is absent is [None]. *)
Record AgentExecuteOptions : Type := {
  instruction : option string;
  stopCondition : option string
}.

(** [!x] for an optional string: absent and the empty string are falsy. *)
Definition falsy (x : option string) : bool :=
  match x with
  | None => true
  | Some s => String.eqb s ""
  end.

Section Execute.

Variable AgentResult : Type.

(** [agentHandler.execute], the method of [StagehandAgentHandler]. *)
Variable agentHandler_execute : AgentExecuteOptions -> outcome AgentResult.

(** The options that [execute] works with: [typeof x === "string"] wraps the
    string, an object is taken as it is. *)
Definition executeOptions (instructionOrOptions : string + AgentExecuteOptions)
  : AgentExecuteOptions :=
  match instructionOrOptions with
  | inl s => {| instruction := Some s; stopCondition := None |}
  | inr o => o
  end.

(** [execute]: the calls it made to the handler, and its outcome. *)
Definition execute (instructionOrOptions : string + AgentExecuteOptions)
  : list AgentExecuteOptions * outcome AgentResult :=
  let o := executeOptions instructionOrOptions in
  if falsy (instruction o) then
    ([], Throw (Error "Instruction is required for agent execution"))
  else ([o], agentHandler_execute o).

End Execute.

End Agent.

(** ** JSON values and [JSON.parse] *)

Module JSON.

(** A JSON document.  An object keeps its members in insertion order, as a
    JavaScript object does for string keys. *)
Inductive json : Type :=
| JNull
| JBool (b : bool)
| JNumber (q : Q)
| JString (s : string)
| JArray (items : list json)
| JObject (members : list (string * json)).

Definition quote : ascii := "034"%char.
Definition backslash : ascii := "092"%char.

Definition is_ws (c : ascii) : bool :=
  match N_of_ascii c with
  | 32%N | 9%N | 10%N | 13%N => true
  | _ => false
  end.

Fixpoint skip_ws (s : string) : string :=
  match s with
  | String c r => if is_ws c then skip_ws r else s
  | EmptyString => s
  end.

Definition digit_of (c : ascii) : option Z :=
  let n := Z.of_N (N_of_ascii c) in
  if (48 <=? n) && (n <=? 57) then Some (n - 48) else None.

Definition hex_of (c : ascii) : option Z :=
  let n := Z.of_N (N_of_ascii c) in
  if (48 <=? n) && (n <=? 57) then Some (n - 48)
  else if (65 <=? n) && (n <=? 70) then Some (n - 55)
  else if (97 <=? n) && (n <=? 102) then Some (n - 87)
  else None.

(** The longest run of decimal digits at the head of [s]: the number they
    spell after [acc], how many there are, and the rest. *)
Fixpoint take_digits (s : string) (acc : Z) (count : Z) : Z * Z * string :=
  match s with
  | String c r =>
      match digit_of c with
      | Some d => take_digits r (10 * acc + d) (count + 1)
      | None => (acc, count, s)
      end
  | EmptyString => (acc, count, s)
  end.

(** [m * 10^e] as a reduced fraction. *)
Definition decimal (m e : Z) : Q :=
  if 0 <=? e then Qred (inject_Z (m * 10 ^ e))
  else Qred (Qmake m (Z.to_pos (10 ^ (- e)))).

(** The JSON number grammar: an optional minus sign; a zero, or a non-zero
    digit followed by digits; optionally a point and one or more digits;
    optionally an exponent mark, a sign and one or more digits. *)
Definition parse_sign (s : string) : Z * string :=
  match s with
  | String c r => if Ascii.eqb c "-" then (-1, r) else (1, s)
  | EmptyString => (1, s)
  end.

Definition parse_int (s : string) : option (Z * string) :=
  match s with
  | String c r =>
      if Ascii.eqb c "0" then Some (0, r)
      else
        let '(n, k, out) := take_digits s 0 0 in
        if k =? 0 then None else Some (n, out)
  | EmptyString => None
  end.

(** The digits after the point go on after the integer part [n]; the
    result counts them. *)
Definition parse_frac (n : Z) (s : string) : option (Z * Z * string) :=
  match s with
  | String c r =>
      if Ascii.eqb c "." then
        let '(m, k, out) := take_digits r n 0 in
        if k =? 0 then None else Some (m, k, out)
      else Some (n, 0, s)
  | EmptyString => Some (n, 0, s)
  end.

Definition parse_exp_sign (s : string) : Z * string :=
  match s with
  | String c r =>
      if Ascii.eqb c "+" then (1, r)
      else if Ascii.eqb c "-" then (-1, r)
      else (1, s)
  | EmptyString => (1, s)
  end.

Definition parse_exp (s : string) : option (Z * string) :=
  match s with
  | String c r =>
      if (Ascii.eqb c "e" || Ascii.eqb c "E")%bool then
        let '(esign, r1) := parse_exp_sign r in
        let '(e, k, out) := take_digits r1 0 0 in
        if k =? 0 then None else Some (esign * e, out)
      else Some (0, s)
  | EmptyString => Some (0, s)
  end.

Definition parse_number (s : string) : option (Q * string) :=
  let '(sign, s1) := parse_sign s in
  match parse_int s1 with
  | None => None
  | Some (n, s2) =>
      match parse_frac n s2 with
      | None => None
      | Some (m, fd, s3) =>
          match parse_exp s3 with
          | None => None
          | Some (e, s4) => Some (decimal (sign * m) (e - fd), s4)
          end
      end
  end.

(** The bytes of one UTF-16 code unit written as [\uXXXX]: itself below 128,
    its UTF-8 encoding above. *)
Definition code_unit_bytes (n : Z) : string :=
  let byte (k : Z) := ascii_of_N (Z.to_N k) in
  if n <? 128 then String (byte n) ""
  else if n <? 2048 then
    String (byte (192 + n / 64)) (String (byte (128 + n mod 64)) "")
  else
    String (byte (224 + n / 4096))
      (String (byte (128 + (n / 64) mod 64))
         (String (byte (128 + n mod 64)) "")).

(** The character that a one-letter escape stands for. *)
Definition simple_escape (e : ascii) : option ascii :=
  if Ascii.eqb e quote then Some quote
  else if Ascii.eqb e backslash then Some backslash
  else if Ascii.eqb e "/" then Some "/"%char
  else if Ascii.eqb e "b" then Some "008"%char
  else if Ascii.eqb e "f" then Some "012"%char
  else if Ascii.eqb e "n" then Some "010"%char
  else if Ascii.eqb e "r" then Some "013"%char
  else if Ascii.eqb e "t" then Some "009"%char
  else None.

Definition prepend (bytes : string) (rest : option (string * string))
  : option (string * string) :=
  match rest with
  | Some (t, out) => Some (bytes ++ t, out)
  | None => None
  end.

(** The characters of a string literal after its opening quote, up to the
    closing quote: the string they denote and the rest of the input. *)
Fixpoint parse_string_body (s : string) : option (string * string) :=
  match s with
  | EmptyString => None
  | String c r =>
      if Ascii.eqb c quote then Some ("", r)
      else if Ascii.eqb c backslash then
        match r with
        | String e r' =>
            match simple_escape e with
            | Some x => prepend (String x "") (parse_string_body r')
            | None =>
                if Ascii.eqb e "u" then
                  match r' with
                  | String h1 (String h2 (String h3 (String h4 r''))) =>
                      match hex_of h1, hex_of h2, hex_of h3, hex_of h4 with
                      | Some a, Some b, Some c', Some d =>
                          prepend
                            (code_unit_bytes (4096 * a + 256 * b + 16 * c' + d))
                            (parse_string_body r'')
                      | _, _, _, _ => None
                      end
                  | _ => None
                  end
                else None
            end
        | EmptyString => None
        end
      else if (N_of_ascii c <? 32)%N then None
      else prepend (String c "") (parse_string_body r)
  end.

(** [obj[k] = v] on a member list: an existing key keeps its position and
    takes the new value, a new key goes last. *)
Fixpoint set_member (k : string) (v : json) (o : list (string * json))
  : list (string * json) :=
  match o with
  | [] => [(k, v)]
  | (k', v') :: t =>
      if String.eqb k k' then (k, v) :: t else (k', v') :: set_member k v t
  end.

Fixpoint get_member (k : string) (o : list (string * json)) : option json :=
  match o with
  | [] => None
  | (k', v) :: t => if String.eqb k k' then Some v else get_member k t
  end.

(** Recursive descent over the JSON grammar, one function per
    production; [elements] and [members] parse what follows an opening
    bracket or brace, [value] parses a nested value. *)
Definition value_body
  (elements : string -> list json -> option (json * string))
  (members : string -> list (string * json) -> option (json * string))
  (s : string) : option (json * string) :=
  match skip_ws s with
  | EmptyString => None
  | String c r as s' =>
      if Ascii.eqb c quote then
        match parse_string_body r with
        | Some (t, out) => Some (JString t, out)
        | None => None
        end
      else if Ascii.eqb c "[" then
        match skip_ws r with
        | String d out => if Ascii.eqb d "]" then Some (JArray [], out)
                          else elements r []
        | EmptyString => elements r []
        end
      else if Ascii.eqb c "{" then
        match skip_ws r with
        | String d out => if Ascii.eqb d "}" then Some (JObject [], out)
                          else members r []
        | EmptyString => members r []
        end
      else if Ascii.eqb c "n" then
        match starts_with "null" s' with
        | Some out => Some (JNull, out)
        | None => None
        end
      else if Ascii.eqb c "t" then
        match starts_with "true" s' with
        | Some out => Some (JBool true, out)
        | None => None
        end
      else if Ascii.eqb c "f" then
        match starts_with "false" s' with
        | Some out => Some (JBool false, out)
        | None => None
        end
      else
        match parse_number s' with
        | Some (q, out) => Some (JNumber q, out)
        | None => None
        end
  end.

Definition elements_body
  (value : string -> option (json * string))
  (elements : string -> list json -> option (json * string))
  (s : string) (acc : list json) : option (json * string) :=
  match value s with
  | None => None
  | Some (v, out) =>
      match skip_ws out with
      | String d out' =>
          if Ascii.eqb d "," then elements out' (acc ++ [v])%list
          else if Ascii.eqb d "]" then Some (JArray (acc ++ [v])%list, out')
          else None
      | EmptyString => None
      end
  end.

Definition members_body
  (value : string -> option (json * string))
  (members : string -> list (string * json) -> option (json * string))
  (s : string) (acc : list (string * json)) : option (json * string) :=
  match skip_ws s with
  | String c r =>
      if Ascii.eqb c quote then
        match parse_string_body r with
        | None => None
        | Some (k, out) =>
            match skip_ws out with
            | String d out1 =>
                if Ascii.eqb d ":" then
                  match value out1 with
                  | None => None
                  | Some (v, out2) =>
                      match skip_ws out2 with
                      | String d' out3 =>
                          if Ascii.eqb d' "," then
                            members out3 (set_member k v acc)
                          else if Ascii.eqb d' "}" then
                            Some (JObject (set_member k v acc), out3)
                          else None
                      | EmptyString => None
                      end
                  end
                else None
            | EmptyString => None
            end
        end
      else None
  | EmptyString => None
  end.

(** The fuel bounds the nesting depth plus the number of siblings visited,
    which never exceeds the number of characters consumed. *)
Fixpoint parse_value (fuel : nat) (s : string) : option (json * string) :=
  match fuel with
  | O => None
  | S f => value_body (parse_elements f) (parse_members f) s
  end
with parse_elements (fuel : nat) (s : string) (acc : list json)
  : option (json * string) :=
  match fuel with
  | O => None
  | S f => elements_body (parse_value f) (parse_elements f) s acc
  end
with parse_members (fuel : nat) (s : string) (acc : list (string * json))
  : option (json * string) :=
  match fuel with
  | O => None
  | S f => members_body (parse_value f) (parse_members f) s acc
  end.

(** [JSON.parse(text)]: the document, or [None] where JavaScript throws a
    [SyntaxError]. *)
Definition parse (text : string) : option json :=
  match parse_value (2 * String.length text + 2) text with
  | Some (v, out) =>
      match skip_ws out with
      | EmptyString => Some v
      | _ => None
      end
  | None => None
  end.

(** What a parser of one production owes: it consumes at least one
    character, and any fuel that covers the characters consumed gives the
    same result. *)
Definition value_adequate (value : string -> option (json * string)) : Prop :=
  forall s v out,
    value s = Some (v, out) ->
    (String.length out < String.length s)%nat
    /\ forall k, (String.length s - String.length out <= k)%nat ->
                 parse_value k s = Some (v, out).

Definition elements_adequate
  (elements : string -> list json -> option (json * string)) : Prop :=
  forall s acc v out,
    elements s acc = Some (v, out) ->
    (String.length out < String.length s)%nat
    /\ forall k, (String.length s - String.length out <= k)%nat ->
                 parse_elements k s acc = Some (v, out).

Definition members_adequate
  (members : string -> list (string * json) -> option (json * string)) : Prop :=
  forall s acc v out,
    members s acc = Some (v, out) ->
    (String.length out < String.length s)%nat
    /\ forall k, (String.length s - String.length out <= k)%nat ->
                 parse_members k s acc = Some (v, out).

End JSON.

(** ** The model invocation facade ([lib/llm/LLMClient.ts]) *)

Module LLM.
Import JSON.

(** Modelled from the spec: the message and option types of
    [lib/llm/LLMClient.ts], whose declarations are not among the sources;
    they carry the properties that [inference.ts] and [GoogleClient.ts]
    read.  An absent optional property is [None]. *)
Inductive Role : Type := system | user | assistant.

Record ImageSource : Type := {
  source_type : option string;
  media_type : option string;
  source_data : option string
}.

Record ContentPart : Type := {
  text : option string;
  image_url : option string;     (* [image_url.url] *)
  source : option ImageSource
}.

Inductive MessageContent : Type :=
| ContentString (s : string)
| ContentParts (parts : list ContentPart).

Record ChatMessage : Type := { role : Role; content : MessageContent }.

(** A zod schema, as far as the sources build one: [z.string()],
    [z.number()], [z.boolean()], [z.array(t)], [z.object(shape)], each with
    the text given to [.describe]. *)
Inductive zod : Type :=
| ZString (describe : option string)
| ZNumber (describe : option string)
| ZBoolean (describe : option string)
| ZArray (item : zod) (describe : option string)
| ZObject (shape : list (string * zod)) (describe : option string).

(** The documents a schema accepts: an object schema asks for every key of
    its shape and lets other keys pass. *)
Fixpoint conforms (t : zod) (v : json) {struct t} : bool :=
  match t, v with
  | ZString _, JString _ => true
  | ZNumber _, JNumber _ => true
  | ZBoolean _, JBool _ => true
  | ZArray item _, JArray vs => forallb (conforms item) vs
  | ZObject shape _, JObject members =>
      (fix fields (sh : list (string * zod)) : bool :=
         match sh with
         | [] => true
         | (k, tk) :: rest =>
             match get_member k members with
             | Some vk => conforms tk vk && fields rest
             | None => false
             end
         end) shape
  | _, _ => false
  end.

Record ResponseModel : Type := { name : string; schema : zod }.

Record Image : Type := { buffer : option (list ascii) }.

Record ChatCompletionOptions : Type := {
  messages : list ChatMessage;
  temperature : option Q;
  top_p : option Q;
  frequency_penalty : option Q;
  presence_penalty : option Q;
  image : option Image;
  response_model : option ResponseModel;
  maxTokens : option Z;
  requestId : string
}.

Record LLMUsage : Type := {
  prompt_tokens : Z;
  completion_tokens : Z;
  total_tokens : Z
}.

(** [LLMParsedResponse<T>] of [inference.ts]. *)
Record LLMParsedResponse (T : Type) : Type := {
  data : T;
  usage : option LLMUsage
}.
Arguments data {T} _.
Arguments usage {T} _.

(** [usage?.prompt_tokens ?? 0] and [usage?.completion_tokens ?? 0]. *)
Definition prompt_tokens_or_0 (u : option LLMUsage) : Z :=
  match u with Some x => prompt_tokens x | None => 0 end.

Definition completion_tokens_or_0 (u : option LLMUsage) : Z :=
  match u with Some x => completion_tokens x | None => 0 end.

End LLM.

(** ** Inference ([lib/inference.ts]) *)

Module Inference.
Import JSON LLM.

(** *** [fillInVariables] *)

(** [String.prototype.toUpperCase] on the ASCII letters; other bytes are
    left as they are. *)
Definition toUpperCase_char (c : ascii) : ascii :=
  let n := N_of_ascii c in
  if ((97 <=? n) && (n <=? 122))%N then ascii_of_N (n - 32) else c.

Fixpoint toUpperCase (s : string) : string :=
  match s with
  | EmptyString => EmptyString
  | String c r => String (toUpperCase_char c) (toUpperCase r)
  end.

(** The first occurrence of [p] in [s], scanning from the left: the text
    before it and the text after it. *)
Fixpoint find_first (p s : string) : option (string * string) :=
  if String.prefix p s then Some ("", drop (String.length p) s)
  else
    match s with
    | EmptyString => None
    | String c r =>
        match find_first p r with
        | Some (before, after) => Some (String c before, after)
        | None => None
        end
    end.

(** ECMAScript's GetSubstitution for a string pattern (no captures): in the
    replacement text [$$] stands for a dollar sign, [$&] for the matched
    text, [$`] for the text before the match and [$'] for the text after
    it; any other character, a lone [$] included, stands for itself. *)
Fixpoint GetSubstitution (matched preceding following template : string)
  : string :=
  match template with
  | EmptyString => EmptyString
  | String c r =>
      if Ascii.eqb c "$" then
        match r with
        | String d r' =>
            if Ascii.eqb d "$" then
              String "$" (GetSubstitution matched preceding following r')
            else if Ascii.eqb d "&" then
              matched ++ GetSubstitution matched preceding following r'
            else if Ascii.eqb d "`" then
              preceding ++ GetSubstitution matched preceding following r'
            else if Ascii.eqb d "'" then
              following ++ GetSubstitution matched preceding following r'
            else String c (GetSubstitution matched preceding following r)
        | EmptyString => String c EmptyString
        end
      else String c (GetSubstitution matched preceding following r)
  end.

(** A replacement text that holds no dollar sign. *)
Fixpoint dollar_free (s : string) : bool :=
  match s with
  | EmptyString => true
  | String c r => negb (Ascii.eqb c "$") && dollar_free r
  end.

(** [text.replace(searchString, replaceValue)] with two strings. *)
Definition replace (text searchString replaceValue : string) : string :=
  match find_first searchString text with
  | None => text
  | Some (preceding, following) =>
      preceding
        ++ GetSubstitution searchString preceding following replaceValue
        ++ following
  end.

Definition placeholder (key : string) : string :=
  "<|" ++ toUpperCase key ++ "|>".

(** [variables] lists the entries of the record in the order of
    [Object.entries]. *)
Definition fillInVariables (text : string) (variables : list (string * string))
  : string :=
  fold_left
    (fun processedText '(key, value) =>
       replace processedText (placeholder key) value)
    variables text.

(** *** The typed responses of the three inference functions *)

(** The type arguments at which [inference.ts] calls
    [createChatCompletion<T>]. *)
Inductive ResponseType : Type :=
| ExtractionResponse
| MetadataResponse
| ObserveResponse
| ActResponse.

(** [z.infer<typeof metadataSchema>] *)
Record Metadata : Type := { progress : string; completed : bool }.

(** An element of [z.infer<typeof observeSchema>]; [method] and
    [arguments] are in the schema only under [returnAction]. *)
Record ObservedElement : Type := {
  elementId : Q;
  description : string;
  method : option string;
  arguments : option (list string)
}.

(** [observeData.elements] is read with [?.]: it may be missing. *)
Record ObserveData : Type := { elements : option (list ObservedElement) }.

(** [z.infer<typeof actSchema>] *)
Record ActElement : Type := {
  act_elementId : Q;
  act_description : string;
  act_method : string;
  act_arguments : list string
}.

Record ActData : Type := { element : ActElement }.

Definition response_data (T : ResponseType) : Type :=
  match T with
  | ExtractionResponse => list (string * json)
  | MetadataResponse => Metadata
  | ObserveResponse => ObserveData
  | ActResponse => ActData
  end.

(** What [writeTimestampedTxtFile] is given to write. *)
Inductive FilePayload : Type :=
| CallPayload (requestId modelCall : string) (messages : list ChatMessage)
| ResponsePayload (requestId modelResponse : string) (T : ResponseType)
    (rawResponse : response_data T)
| MetadataPayload (requestId modelResponse : string) (completed : bool)
    (progress : string).

(** The entry that [appendSummary] is given. *)
Record SummaryEntry : Type := {
  inference_type : string;
  timestamp : string;
  LLM_input_file : string;
  LLM_output_file : string;
  summary_prompt_tokens : Z;
  summary_completion_tokens : Z;
  summary_inference_time_ms : Z
}.

(** The effects of a run, in the order they happened. *)
Inductive Effect : Type :=
| DateNow (t : Z)
| ModelCall (T : ResponseType) (options : ChatCompletionOptions)
    (result : outcome (LLMParsedResponse (response_data T)))
| WriteFile (directory prefix : string) (payload : FilePayload)
| AppendSummary (kind : string) (entry : SummaryEntry).

(** Modelled from the spec: the builders of [lib/prompt.ts], which is not
    among the sources: each turns its arguments into one message. *)
Record Prompts : Type := {
  buildExtractSystemPrompt : bool -> option bool -> option string -> ChatMessage;
  buildExtractUserPrompt : string -> string -> bool -> ChatMessage;
  buildRefineSystemPrompt : ChatMessage;
  buildRefineUserPrompt :
    string -> list (string * json) -> list (string * json) -> ChatMessage;
  buildMetadataSystemPrompt : ChatMessage;
  buildMetadataPrompt : string -> list (string * json) -> Z -> Z -> ChatMessage;
  buildObserveSystemPrompt : option string -> option bool -> ChatMessage;
  buildObserveUserMessage : string -> string -> option bool -> ChatMessage;
  buildActSystemPrompt : option string -> ChatMessage;
  buildActUserMessage : string -> string -> ChatMessage
}.

Section Effects.

(** The state of everything outside the function: the clock, the model
    provider, the inference log files. *)
Variable World : Type.

(** [Date.now()] and the two helpers of [lib/inferenceLogUtils]. *)
Record Sys : Type := {
  Date_now : World -> Z * World;
  writeTimestampedTxtFile :
    string -> string -> FilePayload -> World -> (string * string) * World;
  appendSummary : string -> SummaryEntry -> World -> World
}.

(** An [LLMClient]: its [type] and its method [createChatCompletion<T>],
    which may throw. *)
Record LLMClient : Type := {
  client_type : string;
  createChatCompletion :
    forall T : ResponseType, ChatCompletionOptions -> World ->
      outcome (LLMParsedResponse (response_data T)) * World
}.

(** Computations that may throw, over the world and the trace of effects. *)
Definition M (A : Type) : Type :=
  World * list Effect -> outcome A * (World * list Effect).

Definition ret {A : Type} (a : A) : M A := fun s => (Return a, s).

Definition bind {A B : Type} (m : M A) (k : A -> M B) : M B :=
  fun s =>
    match m s with
    | (Return a, s') => k a s'
    | (Throw e, s') => (Throw e, s')
    end.

Variable sys : Sys.

Definition now : M Z :=
  fun '(w, tr) =>
    let '(t, w') := Date_now sys w in
    (Return t, (w', (tr ++ [DateNow t])%list)).

Definition write_file (directory prefix : string) (payload : FilePayload)
  : M (string * string) :=
  fun '(w, tr) =>
    let '(r, w') := writeTimestampedTxtFile sys directory prefix payload w in
    (Return r, (w', (tr ++ [WriteFile directory prefix payload])%list)).

Definition append_summary (kind : string) (entry : SummaryEntry) : M unit :=
  fun '(w, tr) =>
    (Return tt, (appendSummary sys kind entry w,
                 (tr ++ [AppendSummary kind entry])%list)).

(** [await llmClient.createChatCompletion<T>({ options, logger })] *)
Definition call (llmClient : LLMClient) (T : ResponseType)
  (options : ChatCompletionOptions) : M (LLMParsedResponse (response_data T)) :=
  fun '(w, tr) =>
    let '(r, w') := createChatCompletion llmClient T options w in
    (r, (w', (tr ++ [ModelCall T options r])%list)).

End Effects.

Arguments ret {World A} a.
Arguments bind {World A B} m k.
Arguments now {World} sys.
Arguments write_file {World} sys directory prefix payload.
Arguments append_summary {World} sys kind entry.
Arguments call {World} llmClient T options.
Arguments Date_now {World} s.
Arguments writeTimestampedTxtFile {World} s.
Arguments appendSummary {World} s.
Arguments client_type {World} l.
Arguments createChatCompletion {World} l T.

Notation "x <- m ;; k" := (bind m (fun x => k))
  (at level 61, m at next level, right associativity).
Notation "' p <- m ;; k" := (bind m (fun x => let p := x in k))
  (at level 61, p pattern, m at next level, right associativity).

(** The options that every call of [inference.ts] passes along with its
    messages and its response model. *)
Definition call_options (msgs : list ChatMessage) (model : ResponseModel)
  (request : string) : ChatCompletionOptions :=
  {| messages := msgs;
     temperature := Some (1 # 10);
     top_p := Some 1%Q;
     frequency_penalty := Some 0%Q;
     presence_penalty := Some 0%Q;
     image := None;
     response_model := Some model;
     maxTokens := None;
     requestId := request |}.

(** *** [extract], [observe] and [actInference] *)

Section Functions.

Variable World : Type.
Variable sys : Sys World.
Variable prompts : Prompts.

(** The parameter object of [extract]. *)
Record ExtractArgs : Type := {
  ex_instruction : string;
  ex_previouslyExtractedContent : list (string * json);
  ex_domElements : string;
  ex_schema : zod;
  ex_llmClient : LLMClient World;
  ex_chunksSeen : Z;
  ex_chunksTotal : Z;
  ex_requestId : string;
  ex_isUsingTextExtract : option bool;
  ex_userProvidedInstructions : option string;
  ex_logInferenceToFile : bool
}.

Definition metadataSchema : zod :=
  ZObject
    [ ("progress",
       ZString
         (Some "progress of what has been extracted so far, as concise as possible"));
      ("completed",
       ZBoolean
         (Some "true if the goal is now accomplished. Use this conservatively, only when sure that the goal has been completed.")) ]
    None.

(** The object that [extract] returns:
    [{...refinedResponseData, metadata, prompt_tokens, completion_tokens,
    inference_time_ms}]. *)
Definition extract_result (refinedResponseData : list (string * json))
  (metadataResponseCompleted : bool) (metadataResponseProgress : string)
  (totalPromptTokens totalCompletionTokens totalInferenceTimeMs : Z)
  : list (string * json) :=
  set_member "inference_time_ms" (JNumber (inject_Z totalInferenceTimeMs))
    (set_member "completion_tokens" (JNumber (inject_Z totalCompletionTokens))
       (set_member "prompt_tokens" (JNumber (inject_Z totalPromptTokens))
          (set_member "metadata"
             (JObject [ ("completed", JBool metadataResponseCompleted);
                        ("progress", JString metadataResponseProgress) ])
             refinedResponseData))).

Definition extract (a : ExtractArgs) : M World (list (string * json)) :=
  let instruction := ex_instruction a in
  let schema := ex_schema a in
  let llmClient := ex_llmClient a in
  let requestId := ex_requestId a in
  let logInferenceToFile := ex_logInferenceToFile a in
  let isUsingAnthropic := String.eqb (client_type llmClient) "anthropic" in
  let extractCallMessages :=
    [ buildExtractSystemPrompt prompts isUsingAnthropic
        (ex_isUsingTextExtract a) (ex_userProvidedInstructions a);
      buildExtractUserPrompt prompts instruction (ex_domElements a)
        isUsingAnthropic ] in
  '(extractCallFile, extractCallTimestamp) <-
    (if logInferenceToFile then
       write_file sys "extract_summary" "extract_call"
         (CallPayload requestId "extract" extractCallMessages)
     else ret ("", "")) ;;
  extractStartTime <- now sys ;;
  extractionResponse <-
    call llmClient ExtractionResponse
      (call_options extractCallMessages
         {| schema := schema; name := "Extraction" |} requestId) ;;
  extractEndTime <- now sys ;;
  let extractedData : list (string * json) := data extractionResponse in
  let extractUsage := usage extractionResponse in
  _ <-
    (if logInferenceToFile then
       '(extractResponseFile, _) <-
         write_file sys "extract_summary" "extract_response"
           (ResponsePayload requestId "extract" ExtractionResponse
              extractedData) ;;
       append_summary sys "extract"
         {| inference_type := "extract";
            timestamp := extractCallTimestamp;
            LLM_input_file := extractCallFile;
            LLM_output_file := extractResponseFile;
            summary_prompt_tokens := prompt_tokens_or_0 extractUsage;
            summary_completion_tokens := completion_tokens_or_0 extractUsage;
            summary_inference_time_ms := extractEndTime - extractStartTime |}
     else ret tt) ;;
  let refineCallMessages :=
    [ buildRefineSystemPrompt prompts;
      buildRefineUserPrompt prompts instruction
        (ex_previouslyExtractedContent a) extractedData ] in
  '(refineCallFile, refineCallTimestamp) <-
    (if logInferenceToFile then
       write_file sys "extract_summary" "refine_call"
         (CallPayload requestId "refine" refineCallMessages)
     else ret ("", "")) ;;
  refineStartTime <- now sys ;;
  refinedResponse <-
    call llmClient ExtractionResponse
      (call_options refineCallMessages
         {| schema := schema; name := "RefinedExtraction" |} requestId) ;;
  refineEndTime <- now sys ;;
  let refinedResponseData : list (string * json) := data refinedResponse in
  let refinedResponseUsage := usage refinedResponse in
  _ <-
    (if logInferenceToFile then
       '(refineResponseFile, _) <-
         write_file sys "extract_summary" "refine_response"
           (ResponsePayload requestId "refine" ExtractionResponse
              refinedResponseData) ;;
       append_summary sys "extract"
         {| inference_type := "refine";
            timestamp := refineCallTimestamp;
            LLM_input_file := refineCallFile;
            LLM_output_file := refineResponseFile;
            summary_prompt_tokens := prompt_tokens_or_0 refinedResponseUsage;
            summary_completion_tokens :=
              completion_tokens_or_0 refinedResponseUsage;
            summary_inference_time_ms := refineEndTime - refineStartTime |}
     else ret tt) ;;
  let metadataCallMessages :=
    [ buildMetadataSystemPrompt prompts;
      buildMetadataPrompt prompts instruction refinedResponseData
        (ex_chunksSeen a) (ex_chunksTotal a) ] in
  '(metadataCallFile, metadataCallTimestamp) <-
    (if logInferenceToFile then
       write_file sys "extract_summary" "metadata_call"
         (CallPayload requestId "metadata" metadataCallMessages)
     else ret ("", "")) ;;
  metadataStartTime <- now sys ;;
  metadataResponse <-
    call llmClient MetadataResponse
      (call_options metadataCallMessages
         {| name := "Metadata"; schema := metadataSchema |} requestId) ;;
  metadataEndTime <- now sys ;;
  let metadataResponseCompleted := completed (data metadataResponse) in
  let metadataResponseProgress := progress (data metadataResponse) in
  let metadataResponseUsage := usage metadataResponse in
  _ <-
    (if logInferenceToFile then
       '(metadataResponseFile, _) <-
         write_file sys "extract_summary" "metadata_response"
           (MetadataPayload requestId "metadata" metadataResponseCompleted
              metadataResponseProgress) ;;
       append_summary sys "extract"
         {| inference_type := "metadata";
            timestamp := metadataCallTimestamp;
            LLM_input_file := metadataCallFile;
            LLM_output_file := metadataResponseFile;
            summary_prompt_tokens := prompt_tokens_or_0 metadataResponseUsage;
            summary_completion_tokens :=
              completion_tokens_or_0 metadataResponseUsage;
            summary_inference_time_ms := metadataEndTime - metadataStartTime |}
     else ret tt) ;;
  let totalPromptTokens :=
    prompt_tokens_or_0 extractUsage
    + prompt_tokens_or_0 refinedResponseUsage
    + prompt_tokens_or_0 metadataResponseUsage in
  let totalCompletionTokens :=
    completion_tokens_or_0 extractUsage
    + completion_tokens_or_0 refinedResponseUsage
    + completion_tokens_or_0 metadataResponseUsage in
  let totalInferenceTimeMs :=
    extractEndTime - extractStartTime
    + (refineEndTime - refineStartTime)
    + (metadataEndTime - metadataStartTime) in
  ret (extract_result refinedResponseData metadataResponseCompleted
         metadataResponseProgress totalPromptTokens totalCompletionTokens
         totalInferenceTimeMs).

(** [Number(x)] of a number and [String(x)] of a string are [x];
    [String(undefined)] is the text [undefined]. *)
Definition Number (n : Q) : Q := n.

Definition String_ (s : string) : string := s.

Definition String_opt (s : option string) : string :=
  match s with Some x => x | None => "undefined" end.

(** The truth value of an optional boolean parameter. *)
Definition truthy (b : option bool) : bool :=
  match b with Some true => true | _ => false end.

(** The parameter object of [observe]. *)
Record ObserveArgs : Type := {
  ob_instruction : string;
  ob_domElements : string;
  ob_llmClient : LLMClient World;
  ob_requestId : string;
  ob_isUsingAccessibilityTree : option bool;
  ob_userProvidedInstructions : option string;
  ob_returnAction : bool;
  ob_logInferenceToFile : bool
}.

Definition method_describe : string :=
  "the candidate method/action to interact with the element. Select one of the available Playwright interaction methods.".

Definition arguments_describe : string :=
  "the arguments to pass to the method. For example, for a click, the arguments are empty, but for a fill, the arguments are the value to fill in.".

Definition observeSchema (isUsingAccessibilityTree : option bool)
  (returnAction : bool) : zod :=
  ZObject
    [ ("elements",
       ZArray
         (ZObject
            ([ ("elementId", ZNumber (Some "the number of the element"));
               ("description",
                ZString
                  (Some
                     (if truthy isUsingAccessibilityTree
                      then "a description of the accessible element and its purpose"
                      else "a description of the element and what it is relevant for"))) ]
             ++ (if returnAction
                 then [ ("method", ZString (Some method_describe));
                        ("arguments",
                         ZArray (ZString (Some arguments_describe)) None) ]
                 else []))%list
            None)
         (Some
            (if truthy isUsingAccessibilityTree
             then "an array of accessible elements that match the instruction"
             else "an array of elements that match the instruction"))) ]
    None.

(** An element of the list that [observe] returns: [method] and
    [arguments] are there only under [returnAction]. *)
Record ParsedElement : Type := {
  pe_elementId : Q;
  pe_description : string;
  pe_method : option string;
  pe_arguments : option (list string)
}.

Record ObserveResult : Type := {
  ob_elements : list ParsedElement;
  ob_prompt_tokens : Z;
  ob_completion_tokens : Z;
  ob_inference_time_ms : Z
}.

(** The callback of [observeData.elements?.map]. *)
Definition parse_element (returnAction : bool) (el : ObservedElement)
  : ParsedElement :=
  if returnAction then
    {| pe_elementId := Number (elementId el);
       pe_description := String_ (description el);
       pe_method := Some (String_opt (method el));
       pe_arguments := arguments el |}
  else
    {| pe_elementId := Number (elementId el);
       pe_description := String_ (description el);
       pe_method := None;
       pe_arguments := None |}.

Definition observe (a : ObserveArgs) : M World ObserveResult :=
  let instruction := ob_instruction a in
  let llmClient := ob_llmClient a in
  let requestId := ob_requestId a in
  let isUsingAccessibilityTree := ob_isUsingAccessibilityTree a in
  let returnAction := ob_returnAction a in
  let logInferenceToFile := ob_logInferenceToFile a in
  let messages :=
    [ buildObserveSystemPrompt prompts (ob_userProvidedInstructions a)
        isUsingAccessibilityTree;
      buildObserveUserMessage prompts instruction (ob_domElements a)
        isUsingAccessibilityTree ] in
  '(callFile, callTimestamp) <-
    (if logInferenceToFile then
       write_file sys "observe_summary" "observe_call"
         (CallPayload requestId "observe" messages)
     else ret ("", "")) ;;
  start <- now sys ;;
  rawResponse <-
    call llmClient ObserveResponse
      (call_options messages
         {| schema := observeSchema isUsingAccessibilityTree returnAction;
            name := "Observation" |} requestId) ;;
  end_ <- now sys ;;
  let usageTimeMs := end_ - start in
  let observeData : ObserveData := data rawResponse in
  let observeUsage := usage rawResponse in
  let promptTokens := prompt_tokens_or_0 observeUsage in
  let completionTokens := completion_tokens_or_0 observeUsage in
  _ <-
    (if logInferenceToFile then
       '(responseFile, _) <-
         write_file sys "observe_summary" "observe_response"
           (ResponsePayload requestId "observe" ObserveResponse observeData) ;;
       append_summary sys "observe"
         {| inference_type := "observe";
            timestamp := callTimestamp;
            LLM_input_file := callFile;
            LLM_output_file := responseFile;
            summary_prompt_tokens := promptTokens;
            summary_completion_tokens := completionTokens;
            summary_inference_time_ms := usageTimeMs |}
     else ret tt) ;;
  let parsedElements :=
    match elements observeData with
    | Some els => map (parse_element returnAction) els
    | None => []
    end in
  ret {| ob_elements := parsedElements;
         ob_prompt_tokens := promptTokens;
         ob_completion_tokens := completionTokens;
         ob_inference_time_ms := usageTimeMs |}.

(** The parameter object of [actInference]. *)
Record ActArgs : Type := {
  act_instruction : string;
  act_hybridTree : string;
  act_llmClient : LLMClient World;
  act_requestId : string;
  act_userProvidedInstructions : option string;
  act_logInferenceToFile : bool
}.

Definition actSchema : zod :=
  ZObject
    [ ("element",
       ZObject
         [ ("elementId", ZNumber (Some "the number of the element"));
           ("description",
            ZString
              (Some "a description of the accessible element and its purpose"));
           ("method", ZString (Some method_describe));
           ("arguments", ZArray (ZString (Some arguments_describe)) None) ]
         None) ]
    None.

Record ActResult : Type := {
  targetElement : ActElement;
  act_prompt_tokens : Z;
  act_completion_tokens : Z;
  act_inference_time_ms : Z
}.

Definition actInference (a : ActArgs) : M World ActResult :=
  let instruction := act_instruction a in
  let llmClient := act_llmClient a in
  let requestId := act_requestId a in
  let logInferenceToFile := act_logInferenceToFile a in
  let messages :=
    [ buildActSystemPrompt prompts (act_userProvidedInstructions a);
      buildActUserMessage prompts instruction (act_hybridTree a) ] in
  '(callFile, callTimestamp) <-
    (if logInferenceToFile then
       write_file sys "act_summary" "act_call"
         (CallPayload requestId "act" messages)
     else ret ("", "")) ;;
  start <- now sys ;;
  rawResponse <-
    call llmClient ActResponse
      (call_options messages {| schema := actSchema; name := "Action" |}
         requestId) ;;
  end_ <- now sys ;;
  let usageTimeMs := end_ - start in
  let actData : ActData := data rawResponse in
  let actUsage := usage rawResponse in
  let promptTokens := prompt_tokens_or_0 actUsage in
  let completionTokens := completion_tokens_or_0 actUsage in
  _ <-
    (if logInferenceToFile then
       '(responseFile, _) <-
         write_file sys "act_summary" "act_response"
           (ResponsePayload requestId "act" ActResponse actData) ;;
       append_summary sys "act"
         {| inference_type := "act";
            timestamp := callTimestamp;
            LLM_input_file := callFile;
            LLM_output_file := responseFile;
            summary_prompt_tokens := promptTokens;
            summary_completion_tokens := completionTokens;
            summary_inference_time_ms := usageTimeMs |}
     else ret tt) ;;
  let parsedElement :=
    {| act_elementId := Number (act_elementId (element actData));
       act_description := String_ (act_description (element actData));
       act_method := String_ (act_method (element actData));
       act_arguments := act_arguments (element actData) |} in
  ret {| targetElement := parsedElement;
         act_prompt_tokens := promptTokens;
         act_completion_tokens := completionTokens;
         act_inference_time_ms := usageTimeMs |}.

End Functions.

(** The model calls among the effects of a run, and the clock readings and
    model calls among them. *)
Definition is_model_call (e : Effect) : bool :=
  match e with ModelCall _ _ _ => true | _ => false end.

Definition is_clock_or_call (e : Effect) : bool :=
  match e with DateNow _ | ModelCall _ _ _ => true | _ => false end.

Definition model_calls (tr : list Effect) : list Effect :=
  filter is_model_call tr.

(** The specification's sentence about one invocation of [extract] from
    the world [w]: three model invocations are issued. *)
Definition issues_three_calls {World : Type} (sys : Sys World)
  (prompts : Prompts) (a : ExtractArgs World) (w : World) : Prop :=
  exists c1 c2 c3,
    model_calls (snd (snd (extract World sys prompts a (w, []))))
    = [c1; c2; c3].

(** The keys that the object literal of [extract] writes itself. *)
Definition written_by_extract (k : string) : bool :=
  String.eqb k "metadata" || String.eqb k "prompt_tokens"
  || String.eqb k "completion_tokens" || String.eqb k "inference_time_ms".

End Inference.

(** ** The Google client ([lib/llm/GoogleClient.ts]) *)

Module Google.
Import JSON LLM.

(** A [Part] and a [Content] of the Google SDK. *)
Inductive Part : Type :=
| Text (text : string)
| InlineData (mimeType data : string)
| FileData (mimeType fileUri : string).

Record Content : Type := { role : string; parts : list Part }.

Definition newline : ascii := "010"%char.

Definition is_letter (c : ascii) : bool :=
  let n := N_of_ascii c in
  (((65 <=? n) && (n <=? 90)) || ((97 <=? n) && (n <=? 122)))%N.

Fixpoint take_letters (s : string) : string * string :=
  match s with
  | String c r =>
      if is_letter c then let '(l, out) := take_letters r in (String c l, out)
      else ("", s)
  | EmptyString => ("", s)
  end.

(** [.] of a regular expression matches anything but a line terminator:
    line feed, carriage return, U+2028 and U+2029 (in UTF-8, the bytes
    226 128 168 and 226 128 169). *)
Fixpoint no_line_terminator (s : string) : bool :=
  match s with
  | EmptyString => true
  | String c r =>
      let n := N_of_ascii c in
      if ((n =? 10) || (n =? 13))%N then false
      else
        match n, r with
        | 226%N, String c1 (String c2 _) =>
            if ((N_of_ascii c1 =? 128)
                && ((N_of_ascii c2 =? 168) || (N_of_ascii c2 =? 169)))%N
            then false
            else no_line_terminator r
        | _, _ => no_line_terminator r
        end
  end.

(** The regular expression that [map_part] matches a data URL against:
    the text [data:image/], one or more letters (the first group), the text
    [;base64,], and any characters but line terminators up to the end (the
    second group). *)
Definition match_data_url (url : string) : option (string * string) :=
  match starts_with "data:image/" url with
  | None => None
  | Some r =>
      let '(letters, r1) := take_letters r in
      if String.eqb letters "" then None
      else
        match starts_with ";base64," r1 with
        | Some d => if no_line_terminator d then Some (letters, d) else None
        | None => None
        end
  end.

(** [x && ...] for an optional string: it counts when it is there and not
    empty. *)
Definition provided_text (x : option string) : option string :=
  match x with
  | Some s => if String.eqb s "" then None else Some s
  | None => None
  end.

(** The parts that one part of a message's content contributes: the
    [if] chain on [text], [image_url] and [source]. *)
Definition map_part (part : ContentPart) : list Part :=
  match provided_text (text part), image_url part, source part with
  | Some t, _, _ => [Text t]
  | None, Some url, _ =>
      if String.prefix "data:" url then
        match match_data_url url with
        | Some (kind, d) => [InlineData ("image/" ++ kind) d]
        | None => []
        end
      else [FileData "image/jpeg" url]
  | None, None, Some src =>
      match source_type src, source_data src with
      | Some ty, Some d =>
          if String.eqb ty "image" then
            [InlineData
               (match media_type src with
                | Some m => m
                | None => "image/jpeg"
                end) d]
          else []
      | _, _ => []
      end
  | None, None, None => []
  end.

Definition mapMessagesToGoogleContent (messages : list ChatMessage)
  : list Content :=
  map
    (fun msg =>
       let parts :=
         match content msg with
         | ContentString s => [Text s]
         | ContentParts ps => flat_map map_part ps
         end in
       let role :=
         match LLM.role msg with assistant => "model" | _ => "user" end in
       {| role := role; parts := parts |})
    messages.

(** The body of the loop of [prepareGoogleContent]: push the entry, or
    merge its parts into the last entry of [result] when the roles agree. *)
Fixpoint push_or_merge (result : list Content) (content : Content)
  : list Content :=
  match result with
  | [] => [content]
  | [l] =>
      if String.eqb (role content) (role l)
      then [ {| role := role l; parts := (parts l ++ parts content)%list |} ]
      else [l; content]
  | c :: rest => c :: push_or_merge rest content
  end.

(** The entries of [contents] come from [mapMessagesToGoogleContent], one
    fresh object per message, so that merging into an entry of [result]
    changes no other entry. *)
Definition prepareGoogleContent (contents : list Content)
  (systemInstruction : option string) : list Content :=
  match contents with
  | [] =>
      match provided_text systemInstruction with
      | Some s => [ {| role := "user"; parts := [Text s] |} ]
      | None => []
      end
  | first :: rest =>
      match provided_text systemInstruction with
      | Some s =>
          if String.eqb (role first) "user" then
            fold_left push_or_merge rest
              [ {| role := role first;
                   parts :=
                     Text (s ++ String newline (String newline ""))
                       :: parts first |} ]
          else
            fold_left push_or_merge contents
              [ {| role := "user"; parts := [Text s] |} ]
      | None => fold_left push_or_merge contents []
      end
  end.

(** The words of the specification for the merge: an entry joins the run
    that follows it when the roles agree. *)
Fixpoint merge_runs (contents : list Content) : list Content :=
  match contents with
  | [] => []
  | c :: rest =>
      match merge_runs rest with
      | d :: ds =>
          if String.eqb (role c) (role d)
          then {| role := role c; parts := (parts c ++ parts d)%list |} :: ds
          else c :: d :: ds
      | [] => [c]
      end
  end.

(** No two neighbours of a list of roles are equal. *)
Fixpoint alternating (roles : list string) : Prop :=
  match roles with
  | a :: (b :: _) as rest => a <> b /\ alternating rest
  | _ => True
  end.

(** *** [GoogleClient.createChatCompletion] *)

(** The response of [generateContent], as far as the client reads it. *)
Record UsageMetadata : Type := {
  promptTokenCount : option Z;
  candidatesTokenCount : option Z;
  totalTokenCount : option Z
}.

Record Candidate : Type := {
  content_parts : option (list Part);   (* [content?.parts] *)
  finishReason : option string;
  safetyRatings : option string         (* [JSON.stringify] of the ratings *)
}.

Record GenerateContentResponse : Type := {
  candidates : option (list Candidate);
  blockReason : option string;          (* [promptFeedback?.blockReason] *)
  usageMetadata : option UsageMetadata
}.

Record GenerationConfig : Type := {
  config_temperature : option Q;
  topP : option Q;
  maxOutputTokens : option Z
}.

(** The client: its fields and the SDK call it makes, which may throw. *)
Record GoogleClient : Type := {
  modelName : string;
  userProvidedInstructions : option string;
  generateContent :
    list Content -> GenerationConfig -> outcome GenerateContentResponse
}.

Record Choice : Type := {
  index : Z;
  message_role : string;
  message_content : string;
  tool_calls : list json;
  finish_reason : string
}.

Record LLMResponse : Type := {
  id : string;
  object : string;
  created : Z;
  model : string;
  choices : list Choice;
  response_usage : LLMUsage
}.

(** What the call resolves to: [{ data, usage }] when a response model was
    asked for, the mapped response otherwise. *)
Inductive Completion : Type :=
| Parsed (data : json) (usage : LLMUsage)
| Plain (response : LLMResponse).

(** The alphabet and the encoding of [buffer.toString("base64")]. *)
Definition base64_char (n : N) : ascii :=
  if (n <? 26)%N then ascii_of_N (65 + n)
  else if (n <? 52)%N then ascii_of_N (71 + n)
  else if (n <? 62)%N then ascii_of_N (n - 4)
  else if (n =? 62)%N then "+"%char
  else "/"%char.

Fixpoint base64 (bytes : list ascii) : string :=
  match bytes with
  | [] => ""
  | [a] =>
      let x := N_of_ascii a in
      String (base64_char (x / 4))
        (String (base64_char ((x mod 4) * 16)) "==")
  | [a; b] =>
      let x := N_of_ascii a in
      let y := N_of_ascii b in
      String (base64_char (x / 4))
        (String (base64_char ((x mod 4) * 16 + y / 16))
           (String (base64_char ((y mod 16) * 4)) "="))
  | a :: b :: c :: rest =>
      let x := N_of_ascii a in
      let y := N_of_ascii b in
      let z := N_of_ascii c in
      String (base64_char (x / 4))
        (String (base64_char ((x mod 4) * 16 + y / 16))
           (String (base64_char ((y mod 16) * 4 + z / 64))
              (String (base64_char (z mod 64)) (base64 rest))))
  end%N.

(** The index of the last message of role [user], counting from [i]. *)
Fixpoint lastUserMsgIndex (msgs : list ChatMessage) (i : nat) : option nat :=
  match msgs with
  | [] => None
  | m :: rest =>
      match lastUserMsgIndex rest (S i) with
      | Some j => Some j
      | None =>
          match LLM.role m with
          | user => Some i
          | _ => None
          end
      end
  end.

Fixpoint update_at {A : Type} (n : nat) (f : A -> A) (l : list A) : list A :=
  match l, n with
  | [], _ => []
  | x :: t, O => f x :: t
  | x :: t, S k => x :: update_at k f t
  end.

Definition imgContent (bytes : list ascii) : ContentPart :=
  {| text := None;
     image_url := Some ("data:image/jpeg;base64," ++ base64 bytes);
     source := None |}.

Definition add_image (m : ChatMessage) (img : ContentPart) : ChatMessage :=
  {| LLM.role := LLM.role m;
     content :=
       match content m with
       | ContentString s =>
           ContentParts
             [ {| text := Some s; image_url := None; source := None |}; img ]
       | ContentParts ps => ContentParts (ps ++ [img])
       end |}.

Definition messagesWithImage (options : ChatCompletionOptions)
  : list ChatMessage :=
  match image options with
  | Some {| buffer := Some bytes |} =>
      match lastUserMsgIndex (messages options) 0 with
      | Some i =>
          update_at i (fun m => add_image m (imgContent bytes))
            (messages options)
      | None => messages options
      end
  | _ => messages options
  end.

(** [x || 0] for an optional count, and an optional text inside a template
    literal. *)
Definition or_0 (x : option Z) : Z :=
  match x with Some n => n | None => 0 end.

Definition show (x : option string) : string :=
  match x with Some s => s | None => "undefined" end.

Definition Z_toString (n : Z) : string :=
  NilZero.string_of_int (Z.to_int n).

Definition google_log (msg : string) (lvl : Z) : Logs.LogLine :=
  {| Logs.category := Some "google"; Logs.message := msg;
     Logs.level := Some lvl |}.

(** The text of the reply: the texts of its parts, joined. *)
Fixpoint responseText (ps : list Part) : string :=
  match ps with
  | [] => ""
  | Text t :: rest => t ++ responseText rest
  | _ :: rest => responseText rest
  end.

Definition usageData (response : GenerateContentResponse) : LLMUsage :=
  {| prompt_tokens :=
       or_0 (match usageMetadata response with
             | Some u => promptTokenCount u | None => None end);
     completion_tokens :=
       or_0 (match usageMetadata response with
             | Some u => candidatesTokenCount u | None => None end);
     total_tokens :=
       or_0 (match usageMetadata response with
             | Some u => totalTokenCount u | None => None end) |}.

(** The fallback of the inner [catch]: the reply itself under [completed],
    and [progress: 1.0]. *)
Definition text_fallback (reply : string) : json :=
  JObject [ ("completed", JString reply); ("progress", JNumber 1) ].

(** The body of the outer [try], from the reply of the SDK on: the lines
    logged and the outcome.  [date_now] is the reading of [Date.now()]. *)
Definition complete (c : GoogleClient) (date_now : Z)
  (options : ChatCompletionOptions) (response : GenerateContentResponse)
  : list Logs.LogLine * outcome Completion :=
  let candidate :=
    match candidates response with
    | Some (x :: _) => Some x
    | _ => None
    end in
  match candidate, match candidate with
                   | Some x => content_parts x
                   | None => None
                   end with
  | Some x, Some ((_ :: _) as ps) =>
      let reply := responseText ps in
      let usage := usageData response in
      match response_model options with
      | Some _ =>
          match parse reply with
          | Some parsedData =>
              ([google_log "chat completion with schema successful" 1],
               Return (Parsed parsedData usage))
          | None =>
              ([google_log
                  "chat completion with schema successful (using text fallback)"
                  1],
               Return (Parsed (text_fallback reply) usage))
          end
      | None =>
          ([google_log "chat completion successful" 1],
           Return
             (Plain
                {| id :=
                     match usageMetadata response with
                     | Some {| promptTokenCount := Some n |} => Z_toString n
                     | _ => requestId options
                     end;
                   object := "chat.completion";
                   created := date_now / 1000;
                   model := modelName c;
                   choices :=
                     [ {| index := 0;
                          message_role := "assistant";
                          message_content := reply;
                          tool_calls := [];
                          finish_reason :=
                            match provided_text (finishReason x) with
                            | Some r => r
                            | None => "stop"
                            end |} ];
                   response_usage := usage |}))
      end
  | _, _ =>
      let finish :=
        show (match candidate with Some x => finishReason x | None => None end)
      in
      let ratings :=
        match candidate with
        | Some {| safetyRatings := Some r |} => r
        | _ => "N/A"
        end in
      ([google_log
          ("No content received. FinishReason: " ++ finish
           ++ ", BlockReason: " ++ show (blockReason response)
           ++ ", SafetyRatings: " ++ ratings) 0],
       Throw
         (StagehandError
            ("Google API call failed or returned no content. FinishReason: "
             ++ finish ++ ", BlockReason: " ++ show (blockReason response))))
  end.

Definition generationConfig (options : ChatCompletionOptions)
  : GenerationConfig :=
  {| config_temperature := temperature options;
     topP := top_p options;
     maxOutputTokens := maxTokens options |}.

(** The contents sent: the messages, with the image if there is one, mapped
    and prepared, the client's instructions serving as system instruction. *)
Definition googleContents (c : GoogleClient) (options : ChatCompletionOptions)
  : list Content :=
  prepareGoogleContent
    (mapMessagesToGoogleContent (messagesWithImage options))
    (userProvidedInstructions c).

Definition createChatCompletion (c : GoogleClient) (date_now : Z)
  (options : ChatCompletionOptions)
  : list Logs.LogLine * outcome Completion :=
  let attempt :=
    match generateContent c (googleContents c options)
            (generationConfig options) with
    | Return response => complete c date_now options response
    | Throw e => ([], Throw e)
    end in
  let first_line := google_log "creating chat completion" 2 in
  match attempt with
  | (logged, Return r) => (first_line :: logged, Return r)
  | (logged, Throw e) =>
      ((first_line :: logged)
         ++ [google_log
               ("Error creating chat completion: " ++ exn_message e) 0],
       Throw (StagehandError ("Google API Error: " ++ exn_message e)))%list
  end.

(** The parts of the first candidate, when it has any. *)
Definition reply_parts (response : GenerateContentResponse)
  : option (list Part) :=
  match candidates response with
  | Some ({| content_parts := Some ((_ :: _) as ps) |} :: _) => Some ps
  | _ => None
  end.

(** The reply parses as JSON and the document conforms to the schema. *)
Definition schema_valid (m : ResponseModel) (reply : string) : bool :=
  match parse reply with
  | Some v => conforms (schema m) v
  | None => false
  end.

(** The error the specification names for an unparseable reply. *)
Definition is_SchemaValidationError (r : outcome Completion) : Prop :=
  exists msg, r = Throw (Exn "SchemaValidationError" msg).

(** The specification's sentence about a structured call: a reply that is
    not valid JSON conforming to the schema surfaces as a
    [SchemaValidationError]. *)
Definition invalid_reply_surfaces_SchemaValidationError (c : GoogleClient)
  (date_now : Z) (options : ChatCompletionOptions) : Prop :=
  forall m response ps,
    response_model options = Some m ->
    generateContent c (googleContents c options) (generationConfig options)
    = Return response ->
    reply_parts response = Some ps ->
    schema_valid m (responseText ps) = false ->
    is_SchemaValidationError (snd (createChatCompletion c date_now options)).

(** A client whose model always answers with the one text part [reply]. *)
Definition replying (reply : string) : GoogleClient :=
  {| modelName := "gemini-2.0-flash";
     userProvidedInstructions := None;
     generateContent :=
       fun _ _ =>
         Return
           {| candidates :=
                Some [ {| content_parts := Some [Text reply];
                          finishReason := Some "STOP";
                          safetyRatings := None |} ];
              blockReason := None;
              usageMetadata :=
                Some {| promptTokenCount := Some 12;
                        candidatesTokenCount := Some 5;
                        totalTokenCount := Some 17 |} |} |}.

(** A structured request for the metadata of an extraction. *)
Definition metadata_request : ChatCompletionOptions :=
  {| messages :=
       [ {| LLM.role := user;
            content := ContentString "is the extraction complete?" |} ];
     temperature := Some (1 # 10);
     top_p := Some 1%Q;
     frequency_penalty := Some 0%Q;
     presence_penalty := Some 0%Q;
     image := None;
     response_model :=
       Some {| name := "Metadata";
               schema :=
                 ZObject [ ("progress", ZString None);
                           ("completed", ZBoolean None) ] None |};
     maxTokens := None;
     requestId := "req-1" |}.

End Google.

(** ** A small world to run the inference functions in *)

Module Demo.
Import JSON LLM Inference.

(** The world is the clock, in milliseconds. *)
Definition World : Type := Z.

Definition sys : Sys World :=
  {| Date_now := fun w => (w, w + 1);
     writeTimestampedTxtFile :=
       fun directory prefix _ w =>
         ((directory ++ "/" ++ prefix ++ ".txt", "2025-01-01"), w + 2);
     appendSummary := fun _ _ w => w + 2 |}.

Definition says (r : Role) (s : string) : ChatMessage :=
  {| role := r; content := ContentString s |}.

Fixpoint keys (o : list (string * json)) : string :=
  match o with
  | [] => ""
  | (k, _) :: rest => k ++ ";" ++ keys rest
  end.

Definition prompts : Prompts :=
  {| buildExtractSystemPrompt := fun _ _ _ => says system "extract";
     buildExtractUserPrompt :=
       fun instruction dom _ => says user (instruction ++ " in " ++ dom);
     buildRefineSystemPrompt := says system "refine";
     buildRefineUserPrompt :=
       fun instruction previous extracted =>
         says user (instruction ++ ": " ++ keys previous ++ keys extracted);
     buildMetadataSystemPrompt := says system "metadata";
     buildMetadataPrompt :=
       fun instruction refined _ _ =>
         says user (instruction ++ ": " ++ keys refined);
     buildObserveSystemPrompt := fun _ _ => says system "observe";
     buildObserveUserMessage :=
       fun instruction dom _ => says user (instruction ++ " in " ++ dom);
     buildActSystemPrompt := fun _ => says system "act";
     buildActUserMessage :=
       fun instruction tree => says user (instruction ++ " in " ++ tree) |}.

Definition used (p c : Z) : option LLMUsage :=
  Some {| prompt_tokens := p; completion_tokens := c; total_tokens := p + c |}.

(** The answers of a model that finds one title in the chunk, keeps it when
    refining, reports the extraction complete, matches nothing when
    observing and clicks element 7 when acting. *)
Definition answer (T : ResponseType) (options : ChatCompletionOptions)
  : LLMParsedResponse (response_data T) :=
  match T return LLMParsedResponse (response_data T) with
  | ExtractionResponse =>
      match response_model options with
      | Some {| name := "RefinedExtraction" |} =>
          {| data := [ ("title", JString "Stagehand");
                       ("metadata", JString "from the page") ];
             usage := used 200 20 |}
      | _ =>
          {| data := [ ("title", JString "Stagehand - GitHub") ];
             usage := used 100 10 |}
      end
  | MetadataResponse =>
      {| data := {| progress := "title found"; completed := true |};
         usage := None |}
  | ObserveResponse =>
      {| data := {| elements := Some [] |}; usage := used 50 5 |}
  | ActResponse =>
      {| data :=
           {| element :=
                {| act_elementId := 7;
                   act_description := "Accept cookies button";
                   act_method := "click";
                   act_arguments := [] |} |};
         usage := used 80 8 |}
  end.

(** A client that answers after 300 ms, and one whose provider fails. *)
Definition answering : LLMClient World :=
  {| client_type := "google";
     createChatCompletion :=
       fun T options w => (Return (answer T options), w + 300) |}.

Definition failing : LLMClient World :=
  {| client_type := "google";
     createChatCompletion :=
       fun T options w =>
         (Throw (StagehandError "Google API Error: quota exceeded"), w + 5) |}.

Definition extract_args (client : LLMClient World) : ExtractArgs World :=
  {| ex_instruction := "extract the title";
     ex_previouslyExtractedContent := [];
     ex_domElements := "0: <h1>Stagehand - GitHub</h1>";
     ex_schema := ZObject [ ("title", ZString None) ] None;
     ex_llmClient := client;
     ex_chunksSeen := 1;
     ex_chunksTotal := 1;
     ex_requestId := "req-1";
     ex_isUsingTextExtract := None;
     ex_userProvidedInstructions := None;
     ex_logInferenceToFile := true |}.

Definition observe_args (client : LLMClient World) : ObserveArgs World :=
  {| ob_instruction := "find the search box";
     ob_domElements := "0: <h1>Stagehand - GitHub</h1>";
     ob_llmClient := client;
     ob_requestId := "req-2";
     ob_isUsingAccessibilityTree := Some true;
     ob_userProvidedInstructions := None;
     ob_returnAction := false;
     ob_logInferenceToFile := false |}.

Definition act_args (client : LLMClient World) : ActArgs World :=
  {| act_instruction := "click the Accept cookies button";
     act_hybridTree := "7: button Accept cookies";
     act_llmClient := client;
     act_requestId := "req-3";
     act_userProvidedInstructions := None;
     act_logInferenceToFile := false |}.

(** What [extract] returns in this world with the answering client. *)
Definition extracted : list (string * json) :=
  [ ("title", JString "Stagehand");
    ("metadata",
     JObject [ ("completed", JBool true); ("progress", JString "title found") ]);
    ("prompt_tokens", JNumber 300);
    ("completion_tokens", JNumber 30);
    ("inference_time_ms", JNumber 903) ].

End Demo.

(** ** Log forwarding: what a run has logged, and what a cycle still holds *)

Module LogTrace.
Import Logs.

(** The records handed to [log] during a run, as [log] passes them on. *)
Definition logged (events : list Event) : list LogLine :=
  flat_map
    (fun e => match e with CallLog l => [with_level l] | _ => [] end)
    events.

(** The entries a suspended cycle may still forward: the one whose
    [page.evaluate] is in flight, and the rest of its snapshot. *)
Definition cycle_entries (c : Cycle) : list PendingLog :=
  match awaiting c with
  | AwaitEvaluate p => p :: remaining c
  | AwaitReturned => remaining c
  end.

(** Every identifier of [l] has been handed out, and none is in [avoid]. *)
Definition fresh_ids (n : nat) (avoid l : list PendingLog) : Prop :=
  NoDup (map id l)
  /\ forall p, In p l -> (id p < n)%nat /\ ~ In (id p) (map id avoid).

(** The bookkeeping of the queue: identifiers are unique in the queue, in
    the delivered list and in the cycle, and nothing queued or held by the
    cycle has been delivered. *)
Definition delivered_once (s : State) : Prop :=
  one_cycle s
  /\ fresh_ids (next_uuid s) (delivered s)
       (pending_logs_to_send_to_browserbase s)
  /\ fresh_ids (next_uuid s) [] (delivered s)
  /\ forall c, In c (cycles s) ->
       fresh_ids (next_uuid s) (delivered s) (cycle_entries c).

(** What the verbosity gate and the page test let through. *)
Definition gated (s : State) : Prop :=
  (forall c p, In c (cycles s) -> awaiting c = AwaitEvaluate p ->
     level_of (line p) <= verbose s
     /\ stagehandPage s = true /\ stagehandContext s = true)
  /\ (forall p, In p (delivered s) ->
        level_of (line p) <= verbose s
        /\ stagehandPage s = true /\ stagehandContext s = true).

End LogTrace.

(** ** Metrics: a sequence of updates *)

Module MetricsLog.
Import Metrics.

(** The arguments of one call of [updateMetrics]. *)
Record Update : Type := {
  functionName : StagehandFunctionName;
  promptTokens : Z;
  completionTokens : Z;
  inferenceTimeMs : Z
}.

Definition apply_update (m : StagehandMetrics) (u : Update)
  : StagehandMetrics :=
  updateMetrics (functionName u) (promptTokens u) (completionTokens u)
    (inferenceTimeMs u) m.

(** The metrics after the calls [us], made in this order. *)
Definition apply_updates (us : list Update) (m : StagehandMetrics)
  : StagehandMetrics :=
  fold_left apply_update us m.

Definition add3 (a b : Z * Z * Z) : Z * Z * Z :=
  let '(a1, a2, a3) := a in
  let '(b1, b2, b3) := b in
  (a1 + b1, a2 + b2, a3 + b3).

End MetricsLog.

(** ** Inference: the inference log among the effects *)

Module InferenceLog.
Import JSON LLM Inference.

(** The entries appended to the summaries, and the files written, in the
    order of the effects. *)
Definition summaries (tr : list Effect) : list (string * SummaryEntry) :=
  flat_map
    (fun e => match e with AppendSummary k entry => [(k, entry)] | _ => [] end)
    tr.

Definition files (tr : list Effect) : list (string * string) :=
  flat_map
    (fun e => match e with WriteFile d p _ => [(d, p)] | _ => [] end)
    tr.

Definition sum_by (f : SummaryEntry -> Z) (l : list (string * SummaryEntry))
  : Z :=
  fold_right (fun e acc => f (snd e) + acc) 0 l.

(** A client that finds two elements, the second without a method. *)
Definition finding : LLMClient Demo.World :=
  {| client_type := "openai";
     createChatCompletion :=
       fun T options w =>
         (match T return outcome (LLMParsedResponse (response_data T)) with
          | ObserveResponse =>
              Return
                {| data :=
                     {| elements :=
                          Some
                            [ {| elementId := 7;
                                 description := "Accept cookies button";
                                 method := Some "click";
                                 arguments := Some [] |};
                              {| elementId := 12;
                                 description := "Search box";
                                 method := None;
                                 arguments := Some ["stagehand"] |} ] |};
                   usage := Demo.used 50 5 |}
          | T' => Return (Demo.answer T' options)
          end,
          w + 300) |}.

Definition observe_args (returnAction logging : bool)
  (client : LLMClient Demo.World) : ObserveArgs Demo.World :=
  {| ob_instruction := "find what to click";
     ob_domElements := "7: button Accept cookies";
     ob_llmClient := client;
     ob_requestId := "req-4";
     ob_isUsingAccessibilityTree := None;
     ob_userProvidedInstructions := None;
     ob_returnAction := returnAction;
     ob_logInferenceToFile := logging |}.

End InferenceLog.

(** ** The Google client: what is sent *)

Module GoogleContents.
Import LLM Google.

(** Every character of a string passes a test. *)
Fixpoint all_chars (p : ascii -> bool) (s : string) : bool :=
  match s with
  | EmptyString => true
  | String c r => p c && all_chars p r
  end.

(** The characters that [buffer.toString("base64")] produces. *)
Definition base64_alphabet (c : ascii) : bool :=
  let n := N_of_ascii c in
  (is_letter c || ((48 <=? n) && (n <=? 57))
   || (n =? 43) || (n =? 47) || (n =? 61))%N.

(** The Google role of a message. *)
Definition google_role (m : ChatMessage) : string :=
  match LLM.role m with assistant => "model" | _ => "user" end.

Definition is_user (m : ChatMessage) : bool :=
  match LLM.role m with user => true | _ => false end.

(** The parts that the text of a message gives once an image has been put
    behind it: an empty text counts as no part. *)
Definition parts_before_image (m : ChatMessage) : list Part :=
  match content m with
  | ContentString s => if String.eqb s "" then [] else [Text s]
  | ContentParts ps => flat_map map_part ps
  end.

(** A client with instructions, and a request with a screenshot. *)
Definition instructed (instructions : string) : GoogleClient :=
  {| modelName := "gemini-2.0-flash";
     userProvidedInstructions := Some instructions;
     generateContent := generateContent (replying "done") |}.

Definition blocked : GoogleClient :=
  {| modelName := "gemini-2.0-flash";
     userProvidedInstructions := None;
     generateContent :=
       fun _ _ =>
         Return
           {| candidates :=
                Some [ {| content_parts := None;
                          finishReason := Some "SAFETY";
                          safetyRatings := None |} ];
              blockReason := None;
              usageMetadata := None |} |}.

Definition says (r : Role) (s : string) : ChatMessage :=
  {| LLM.role := r; content := ContentString s |}.

Definition vision_request (image : option Image) : ChatCompletionOptions :=
  {| messages :=
       [ says system "you are a browser agent";
         says user "what is on the page?";
         says assistant "a cookie banner";
         says user "and on this screenshot?";
         says system "answer briefly" ];
     temperature := None;
     top_p := None;
     frequency_penalty := None;
     presence_penalty := None;
     image := image;
     response_model := None;
     maxTokens := None;
     requestId := "req-7" |}.

End GoogleContents.

(** ** [getBrowser] *)

Module Browser.
Import Logs.

Inductive Env : Type := LOCAL | BROWSERBASE.

(** The regions of a Browserbase session, the keys of
    [BROWSERBASE_REGION_DOMAIN]. *)
Inductive Region : Type :=
| us_west_2 | us_east_1 | eu_central_1 | ap_southeast_1.

Definition BROWSERBASE_REGION_DOMAIN (r : Region) : string :=
  match r with
  | us_west_2 => "wss://connect.usw2.browserbase.com"
  | us_east_1 => "wss://connect.use1.browserbase.com"
  | eu_central_1 => "wss://connect.euc1.browserbase.com"
  | ap_southeast_1 => "wss://connect.apse1.browserbase.com"
  end.

(** What [getBrowser] reads of the answers of the Browserbase SDK: of
    [sessions.retrieve] the status and the region (none when the region is
    no key of the table), of [sessions.create] the id and the URL. *)
Record SessionStatus : Type := { status : string; region : option Region }.

Record Session : Type := { session_id : string; connectUrl : string }.

(** [Browserbase.Sessions.SessionCreateParams]: its own [projectId], when it
    has one, and its other fields. *)
Record SessionCreateParams : Type := {
  params_projectId : option string;
  params_others : list (string * JSON.json)
}.

Record Viewport : Type := { width : option Z; height : option Z }.

(** [ignoreDefaultArgs] of puppeteer: a flag or a list of arguments. *)
Inductive IgnoreDefaultArgs : Type :=
| IgnoreAll (b : bool)
| IgnoreThese (l : list string).

(** [x] counts when it is there and not empty: [if (x)] and [!x] on an
    optional string. *)
Definition truthy (x : option string) : option string :=
  match x with
  | Some s => if String.eqb s "" then None else Some s
  | None => None
  end.

(** [JSON.stringify(defaultPreferences)] *)
Definition defaultPreferences : string :=
  let q := String JSON.quote "" in
  "{" ++ q ++ "plugins" ++ q ++ ":{" ++ q ++ "always_open_pdf_externally" ++ q
  ++ ":true}}".

Definition defaultArgs : list string :=
  [ "--enable-webgl"; "--use-gl=swiftshader";
    "--enable-accelerated-2d-canvas";
    "--disable-blink-features=AutomationControlled";
    "--disable-web-security" ].

(** The handles that puppeteer gives out, each known by a number, and a
    cookie, an object. *)
Record PuppeteerBrowser : Type := { browser_handle : nat }.

Record BrowserContext : Type := { context_handle : nat }.

Definition Cookie : Type := list (string * JSON.json).

(** The fields of [LocalBrowserLaunchOptions] that [getBrowser] reads. *)
Record LocalBrowserLaunchOptions : Type := {
  lo_args : option (list string);
  lo_userDataDir : option string;
  lo_downloadsPath : option string;
  lo_headless : option bool;
  lo_viewport : option Viewport;
  lo_devtools : option bool;
  lo_env : option (list (string * string));
  lo_handleSIGHUP : option bool;
  lo_handleSIGINT : option bool;
  lo_handleSIGTERM : option bool;
  lo_ignoreDefaultArgs : option IgnoreDefaultArgs;
  lo_executablePath : option string;
  lo_cookies : option (list Cookie)
}.

(** The argument of [puppeteer.launch]. *)
Record LaunchOptions : Type := {
  userDataDir : string;
  headless : bool;
  defaultViewport : Z * Z;
  args : list string;
  devtools : bool;
  env : option (list (string * string));
  handleSIGHUP : bool;
  handleSIGINT : bool;
  handleSIGTERM : bool;
  ignoreDefaultArgs : option IgnoreDefaultArgs;
  executablePath : option string;
  channel : string
}.

Record BrowserResult : Type := {
  result_browser : option PuppeteerBrowser;
  result_context : option BrowserContext;
  debugUrl : option string;
  sessionUrl : option string;
  contextPath : option string;
  sessionId : option string;
  result_env : Env
}.

(** What [getBrowser] does to the outside, in the order it does it. *)
Inductive Call : Type :=
| Log (l : LogLine)
| Retrieve (apiKey id : string)
| Create (apiKey projectId : string) (others : list (string * JSON.json))
| Connect (browserWSEndpoint : string)
| Debug (apiKey id : string)
| CreateBrowserContext (b : PuppeteerBrowser)
| SetCookie (c : BrowserContext) (cookies : list Cookie)
| ExistsSync (p : string)
| MkdirSync (p : string)
| MkdtempSync (prefix : string)
| WriteFileSync (p data : string)
| Launch (o : LaunchOptions).

Section GetBrowser.

(** The state of everything outside: the Browserbase service, the browser,
    the file system. *)
Variable World : Type.

(** The outside: the Browserbase SDK, puppeteer, [fs], [os], [path] and
    [process]; each call but [fs.existsSync] may throw. *)
Record Sys : Type := {
  sessions_retrieve : string -> string -> World -> outcome SessionStatus * World;
  sessions_create :
    string -> string -> list (string * JSON.json) -> World ->
    outcome Session * World;
  sessions_debug : string -> string -> World -> outcome string * World;
  puppeteer_connect : string -> World -> outcome PuppeteerBrowser * World;
  puppeteer_launch : LaunchOptions -> World -> outcome PuppeteerBrowser * World;
  createBrowserContext :
    PuppeteerBrowser -> World -> outcome BrowserContext * World;
  setCookie : BrowserContext -> list Cookie -> World -> outcome unit * World;
  existsSync : string -> World -> bool * World;
  mkdirSync : string -> World -> outcome unit * World;
  mkdtempSync : string -> World -> outcome string * World;
  writeFileSync : string -> string -> World -> outcome unit * World;
  tmpdir : string;
  cwd : string;
  path_join : string -> string -> string
}.

Definition M (A : Type) : Type :=
  World * list Call -> outcome A * (World * list Call).

Definition ret {A : Type} (a : A) : M A := fun s => (Return a, s).

Definition throw {A : Type} (e : exn) : M A := fun s => (Throw e, s).

Definition bind {A B : Type} (m : M A) (k : A -> M B) : M B :=
  fun s =>
    match m s with
    | (Return a, s') => k a s'
    | (Throw e, s') => (Throw e, s')
    end.

(** [try { m } catch (e) { h e }] *)
Definition catch {A : Type} (m : M A) (h : exn -> M A) : M A :=
  fun s =>
    match m s with
    | (Return a, s') => (Return a, s')
    | (Throw e, s') => h e s'
    end.

Definition perform {A : Type} (c : Call) (f : World -> outcome A * World)
  : M A :=
  fun '(w, tr) => let '(r, w') := f w in (r, (w', (tr ++ [c])%list)).

Definition logger (category message : string) (level : option Z) : M unit :=
  fun '(w, tr) =>
    (Return tt,
     (w, (tr ++ [Log {| Logs.category := Some category;
                        Logs.message := message;
                        Logs.level := level |}])%list)).

Variable sys : Sys.

Local Notation "x <- m ;; k" := (bind m (fun x => k))
  (at level 61, m at next level, right associativity).

(** The first block: the warnings, and the fall back to [LOCAL] when the
    API key is missing. *)
Definition checkEnv (apiKey projectId : option string) (env : Env) : M Env :=
  match env with
  | BROWSERBASE =>
      env1 <-
        match truthy apiKey with
        | None =>
            _ <- logger "init"
                   "BROWSERBASE_API_KEY is required to use BROWSERBASE env. Defaulting to LOCAL."
                   (Some 0) ;;
            ret LOCAL
        | Some _ => ret BROWSERBASE
        end ;;
      _ <-
        match truthy projectId with
        | None =>
            logger "init"
              "BROWSERBASE_PROJECT_ID is required for some Browserbase features that may not work without it."
              (Some 1)
        | Some _ => ret tt
        end ;;
      ret env1
  | LOCAL => ret LOCAL
  end.

(** The session to connect to: its id and the URL. *)
Definition resumeSession (apiKey browserbaseSessionID : string)
  : M (string * string) :=
  catch
    (sessionStatus <-
       perform (Retrieve apiKey browserbaseSessionID)
         (sessions_retrieve sys apiKey browserbaseSessionID) ;;
     if negb (String.eqb (status sessionStatus) "RUNNING") then
       throw (Error ("Session " ++ browserbaseSessionID
                     ++ " is not running (status: " ++ status sessionStatus
                     ++ ")"))
     else
       let browserbaseDomain :=
         match region sessionStatus with
         | Some r => BROWSERBASE_REGION_DOMAIN r
         | None => "wss://connect.browserbase.com"
         end in
       _ <- logger "init" "resuming existing browserbase session..." (Some 1) ;;
       ret (browserbaseSessionID,
            browserbaseDomain ++ "?apiKey=" ++ apiKey ++ "&sessionId="
            ++ browserbaseSessionID))
    (fun error =>
       _ <- logger "init" "failed to resume session" (Some 1) ;;
       throw error).

Definition createSession (apiKey : string) (projectId : option string)
  (browserbaseSessionCreateParams : option SessionCreateParams)
  : M (string * string) :=
  _ <- logger "init" "creating new browserbase session..." (Some 0) ;;
  match truthy projectId with
  | None =>
      throw
        (Error
           "BROWSERBASE_PROJECT_ID is required for new Browserbase sessions.")
  | Some pid =>
      let project :=
        match browserbaseSessionCreateParams with
        | Some {| params_projectId := Some p |} => p
        | _ => pid
        end in
      let others :=
        match browserbaseSessionCreateParams with
        | Some p => params_others p
        | None => []
        end in
      session <-
        perform (Create apiKey project others)
          (sessions_create sys apiKey project others) ;;
      _ <- logger "init" "created new browserbase session" (Some 1) ;;
      ret (session_id session, connectUrl session)
  end.

Definition setCookies (context : BrowserContext)
  (localBrowserLaunchOptions : option LocalBrowserLaunchOptions) : M unit :=
  match localBrowserLaunchOptions with
  | Some {| lo_cookies := Some cookies |} =>
      perform (SetCookie context cookies) (setCookie sys context cookies)
  | _ => ret tt
  end.

Definition browserbaseBrowser (apiKey : string) (projectId : option string)
  (browserbaseSessionCreateParams : option SessionCreateParams)
  (browserbaseSessionID : option string)
  (localBrowserLaunchOptions : option LocalBrowserLaunchOptions)
  : M BrowserResult :=
  session <-
    match truthy browserbaseSessionID with
    | Some id => resumeSession apiKey id
    | None => createSession apiKey projectId browserbaseSessionCreateParams
    end ;;
  let '(sessionId, connectUrl) := session in
  browser <- perform (Connect connectUrl) (puppeteer_connect sys connectUrl) ;;
  debuggerUrl <-
    perform (Debug apiKey sessionId) (sessions_debug sys apiKey sessionId) ;;
  _ <- logger "init"
         (match truthy browserbaseSessionID with
          | Some _ => "browserbase session resumed"
          | None => "browserbase session started"
          end) (Some 0) ;;
  context <-
    perform (CreateBrowserContext browser) (createBrowserContext sys browser) ;;
  _ <- setCookies context localBrowserLaunchOptions ;;
  _ <- logger "init" "local browser started successfully." None ;;
  ret {| result_browser := Some browser;
         result_context := Some context;
         debugUrl := Some debuggerUrl;
         sessionUrl := Some ("https://www.browserbase.com/sessions/"
                             ++ sessionId);
         contextPath := None;
         sessionId := Some sessionId;
         result_env := BROWSERBASE |}.

Definition option_bind {A B : Type} (x : option A) (f : A -> option B)
  : option B :=
  match x with Some a => f a | None => None end.

Definition or_else {A : Type} (x : option A) (d : A) : A :=
  match x with Some a => a | None => d end.

(** The directory of the browser profile: the one given, or a fresh one
    under the temporary directory, with its preferences. *)
Definition prepareUserDataDir
  (localBrowserLaunchOptions : option LocalBrowserLaunchOptions) : M string :=
  match truthy (option_bind localBrowserLaunchOptions lo_userDataDir) with
  | Some dir => ret dir
  | None =>
      let tmpDirPath := path_join sys (tmpdir sys) "stagehand" in
      there <-
        perform (ExistsSync tmpDirPath)
          (fun w => let '(b, w') := existsSync sys tmpDirPath w in
                    (Return b, w')) ;;
      _ <- (if there : bool then ret tt
            else perform (MkdirSync tmpDirPath) (mkdirSync sys tmpDirPath)) ;;
      tmpDir <-
        perform (MkdtempSync (path_join sys tmpDirPath "ctx_"))
          (mkdtempSync sys (path_join sys tmpDirPath "ctx_")) ;;
      _ <- perform (MkdirSync (path_join sys tmpDir "userdir/Default"))
             (mkdirSync sys (path_join sys tmpDir "userdir/Default")) ;;
      _ <- perform
             (WriteFileSync
                (path_join sys tmpDir "userdir/Default/Preferences")
                defaultPreferences)
             (writeFileSync sys
                (path_join sys tmpDir "userdir/Default/Preferences")
                defaultPreferences) ;;
      ret (path_join sys tmpDir "userdir")
  end.

Definition launchOptions (userDataDir : string) (headless : bool)
  (localBrowserLaunchOptions : option LocalBrowserLaunchOptions)
  : LaunchOptions :=
  let get {A : Type} (f : LocalBrowserLaunchOptions -> option A) :=
    option_bind localBrowserLaunchOptions f in
  {| userDataDir := userDataDir;
     headless := or_else (get lo_headless) headless;
     defaultViewport :=
       (or_else (option_bind (get lo_viewport) width) 1024,
        or_else (option_bind (get lo_viewport) height) 768);
     args := or_else (get lo_args) defaultArgs;
     devtools := or_else (get lo_devtools) false;
     env := get lo_env;
     handleSIGHUP := or_else (get lo_handleSIGHUP) true;
     handleSIGINT := or_else (get lo_handleSIGINT) true;
     handleSIGTERM := or_else (get lo_handleSIGTERM) true;
     ignoreDefaultArgs := get lo_ignoreDefaultArgs;
     executablePath := get lo_executablePath;
     channel := "chrome" |}.

Definition localBrowser (headless : bool)
  (localBrowserLaunchOptions : option LocalBrowserLaunchOptions)
  : M BrowserResult :=
  _ <- logger "init" "launching local browser" (Some 0) ;;
  _ <- match localBrowserLaunchOptions with
       | Some _ => logger "init" "local browser launch options" (Some 0)
       | None => ret tt
       end ;;
  userDataDir <- prepareUserDataDir localBrowserLaunchOptions ;;
  _ <- match truthy (option_bind localBrowserLaunchOptions lo_downloadsPath)
       with
       | Some _ => ret tt
       | None =>
           perform (MkdirSync (path_join sys (cwd sys) "downloads"))
             (mkdirSync sys (path_join sys (cwd sys) "downloads"))
       end ;;
  let options := launchOptions userDataDir headless localBrowserLaunchOptions in
  browser <- perform (Launch options) (puppeteer_launch sys options) ;;
  context <-
    perform (CreateBrowserContext browser) (createBrowserContext sys browser) ;;
  _ <- setCookies context localBrowserLaunchOptions ;;
  _ <- logger "init" "local browser started successfully." None ;;
  ret {| result_browser := None;
         result_context := Some context;
         debugUrl := None;
         sessionUrl := None;
         contextPath := Some userDataDir;
         sessionId := None;
         result_env := LOCAL |}.

(** [env] and [headless] are optional, with the defaults [LOCAL] and
    [false]. *)
Definition getBrowser (apiKey projectId : option string) (env : option Env)
  (headless : option bool)
  (browserbaseSessionCreateParams : option SessionCreateParams)
  (browserbaseSessionID : option string)
  (localBrowserLaunchOptions : option LocalBrowserLaunchOptions)
  : M BrowserResult :=
  env1 <- checkEnv apiKey projectId (or_else env LOCAL) ;;
  match env1 with
  | BROWSERBASE =>
      match truthy apiKey with
      | None => throw (Error "BROWSERBASE_API_KEY is required.")
      | Some key =>
          browserbaseBrowser key projectId browserbaseSessionCreateParams
            browserbaseSessionID localBrowserLaunchOptions
      end
  | LOCAL => localBrowser (or_else headless false) localBrowserLaunchOptions
  end.

End GetBrowser.

Arguments ret {World A} a.
Arguments throw {World A} e.
Arguments bind {World A B} m k.
Arguments catch {World A} m h.
Arguments perform {World A} c f.
Arguments logger {World} category message level.
Arguments sessions_retrieve {World} s.
Arguments sessions_create {World} s.
Arguments sessions_debug {World} s.
Arguments puppeteer_connect {World} s.
Arguments puppeteer_launch {World} s.
Arguments createBrowserContext {World} s.
Arguments setCookie {World} s.
Arguments existsSync {World} s.
Arguments mkdirSync {World} s.
Arguments mkdtempSync {World} s.
Arguments writeFileSync {World} s.
Arguments tmpdir {World} s.
Arguments cwd {World} s.
Arguments path_join {World} s.
Arguments checkEnv {World} apiKey projectId env.
Arguments resumeSession {World} sys apiKey browserbaseSessionID.
Arguments createSession {World} sys apiKey projectId
  browserbaseSessionCreateParams.
Arguments setCookies {World} sys context localBrowserLaunchOptions.
Arguments browserbaseBrowser {World} sys apiKey projectId
  browserbaseSessionCreateParams browserbaseSessionID
  localBrowserLaunchOptions.
Arguments prepareUserDataDir {World} sys localBrowserLaunchOptions.
Arguments localBrowser {World} sys headless localBrowserLaunchOptions.
Arguments getBrowser {World} sys apiKey projectId env headless
  browserbaseSessionCreateParams browserbaseSessionID
  localBrowserLaunchOptions.

(** The calls to the Browserbase service, and those that start a browser on
    this machine or touch its files. *)
Definition is_service_call (c : Call) : bool :=
  match c with
  | Retrieve _ _ | Create _ _ _ | Connect _ | Debug _ _ => true
  | _ => false
  end.

Definition is_local_call (c : Call) : bool :=
  match c with
  | ExistsSync _ | MkdirSync _ | MkdtempSync _ | WriteFileSync _ _
  | Launch _ => true
  | _ => false
  end.

Definition log_of (category message : string) (level : option Z) : Call :=
  Log {| Logs.category := Some category; Logs.message := message;
         Logs.level := level |}.

(** The warnings of the first block for a missing key and a missing
    project. *)
Definition keyWarning : Call :=
  log_of "init"
    "BROWSERBASE_API_KEY is required to use BROWSERBASE env. Defaulting to LOCAL."
    (Some 0).

Definition projectWarning : Call :=
  log_of "init"
    "BROWSERBASE_PROJECT_ID is required for some Browserbase features that may not work without it."
    (Some 1).

(** The lines of the first block of [getBrowser], and the side that the
    call takes after it: Browserbase when that is asked for and the API key
    is there. *)
Definition warnings (apiKey projectId : option string) (env : option Env)
  : list Call :=
  match or_else env LOCAL with
  | BROWSERBASE =>
      (match truthy apiKey with None => [keyWarning] | Some _ => [] end
       ++ match truthy projectId with
          | None => [projectWarning]
          | Some _ => []
          end)%list
  | LOCAL => []
  end.

Definition side (apiKey : option string) (env : option Env) : Env :=
  match or_else env LOCAL, truthy apiKey with
  | BROWSERBASE, Some _ => BROWSERBASE
  | _, _ => LOCAL
  end.

(** What makes resuming the session [id] fail, given the answer of
    [sessions.retrieve]: its error, or a status other than [RUNNING]. *)
Definition resume_failure (id : string) (answer : outcome SessionStatus)
  : option exn :=
  match answer with
  | Throw e => Some e
  | Return sessionStatus =>
      if String.eqb (status sessionStatus) "RUNNING" then None
      else Some (Error ("Session " ++ id ++ " is not running (status: "
                        ++ status sessionStatus ++ ")"))
  end.

Definition is_launch (c : Call) : bool :=
  match c with Launch _ => true | _ => false end.

(** The calls that make a fresh profile directory. *)
Definition makes_profile (c : Call) : bool :=
  match c with
  | ExistsSync _ | MkdtempSync _ | WriteFileSync _ _ => true
  | _ => false
  end.

(** A world that is a counter, with a service that knows one running
    session, [sess-1], in [eu-central-1], and one that has ended,
    [sess-0]. *)
Definition demo : Sys nat :=
  {| sessions_retrieve :=
       fun _ id w =>
         (if String.eqb id "sess-1"
          then Return {| status := "RUNNING"; region := Some eu_central_1 |}
          else if String.eqb id "sess-0"
          then Return {| status := "COMPLETED"; region := None |}
          else Throw (Error "404 session not found"),
          S w);
     sessions_create :=
       fun _ project _ w =>
         (Return {| session_id := "sess-2";
                    connectUrl := "wss://connect.browserbase.com/" ++ project |},
          S w);
     sessions_debug := fun _ id w => (Return ("https://debug/" ++ id), S w);
     puppeteer_connect := fun _ w => (Return {| browser_handle := w |}, S w);
     puppeteer_launch := fun _ w => (Return {| browser_handle := w |}, S w);
     createBrowserContext :=
       fun _ w => (Return {| context_handle := w |}, S w);
     setCookie := fun _ _ w => (Return tt, S w);
     existsSync := fun _ w => (false, S w);
     mkdirSync := fun _ w => (Return tt, S w);
     mkdtempSync := fun prefix w => (Return (prefix ++ "a1b2c3"), S w);
     writeFileSync := fun _ _ w => (Return tt, S w);
     tmpdir := "/tmp";
     cwd := "/home/user/app";
     path_join := fun a b => a ++ "/" ++ b |}.

Definition noOptions : option LocalBrowserLaunchOptions := None.

End Browser.

(** ** The class [Stagehand]: constructor, [env], [init] and [close] *)

Module Lifecycle.
Import Logs Browser.

(** The variables of [process.env] that the class reads. *)
Record ProcessEnv : Type := {
  BROWSERBASE_API_KEY : option string;
  BROWSERBASE_PROJECT_ID : option string;
  STAGEHAND_API_URL : option string
}.

(** The fields of [ConstructorParams] that the checks of the constructor,
    [env], [init] and [close] depend on; [p_llmClient] is the [type] of the
    client given. *)
Record ConstructorParams : Type := {
  p_env : option Env;
  p_apiKey : option string;
  p_projectId : option string;
  p_llmClient : option string;
  p_headless : option bool;
  p_browserbaseSessionCreateParams : option SessionCreateParams;
  p_browserbaseSessionID : option string;
  p_modelName : option string;
  p_useAPI : option bool;
  p_localBrowserLaunchOptions : option LocalBrowserLaunchOptions
}.

(** The handles of a [StagehandContext] and of a [StagehandPage]. *)
Record StagehandContext : Type := { stagehandContext_handle : nat }.

Record StagehandPage : Type := { stagehandPage_handle : nat }.

(** The fields of an instance that these methods read or write;
    [llmClient] is the [type] of the client, [apiClient] and
    [signalHandlers] tell whether the API client has been made and the
    signal handlers registered. *)
Record Stagehand : Type := {
  intEnv : option Env;
  apiKey : option string;
  projectId : option string;
  llmClient : option string;
  headless : bool;
  browserbaseSessionCreateParams : option SessionCreateParams;
  browserbaseSessionID : option string;
  usingAPI : bool;
  modelName : string;
  localBrowserLaunchOptions : option LocalBrowserLaunchOptions;
  signalHandlers : bool;
  contextPath : option string;
  apiClient : bool;
  stagehandContext : option StagehandContext;
  stagehandPage : option StagehandPage
}.

Definition DEFAULT_MODEL_NAME : string := "gpt-4o".

Definition nullish {A : Type} (x y : option A) : option A :=
  match x with Some a => Some a | None => y end.

(** [new Stagehand(params)], where [params] is the argument given, or
    [{ env: BROWSERBASE }] when none is; [getClient] is
    [llmProvider.getClient], which gives the [type] of the client it makes,
    or throws. *)
Definition constructor (getClient : string -> outcome string)
  (process_env : ProcessEnv) (params : ConstructorParams)
  : outcome Stagehand :=
  let modelName := or_else (p_modelName params) DEFAULT_MODEL_NAME in
  let llmClient :=
    match p_llmClient params with
    | Some client => Some client
    | None =>
        match getClient modelName with
        | Return client => Some client
        | Throw _ => None
        end
    end in
  let usingAPI := or_else (p_useAPI params) false in
  let this :=
    {| intEnv := p_env params;
       apiKey := nullish (p_apiKey params) (BROWSERBASE_API_KEY process_env);
       projectId :=
         nullish (p_projectId params) (BROWSERBASE_PROJECT_ID process_env);
       llmClient := llmClient;
       headless := or_else (p_headless params) false;
       browserbaseSessionCreateParams :=
         p_browserbaseSessionCreateParams params;
       browserbaseSessionID := p_browserbaseSessionID params;
       usingAPI := usingAPI;
       modelName := modelName;
       localBrowserLaunchOptions := p_localBrowserLaunchOptions params;
       signalHandlers := usingAPI;
       contextPath := None;
       apiClient := false;
       stagehandContext := None;
       stagehandPage := None |} in
  if usingAPI then
    match p_env params with
    | Some LOCAL =>
        Throw (Error "API mode can only be used with BROWSERBASE environment")
    | _ =>
        match truthy (STAGEHAND_API_URL process_env) with
        | None =>
            Throw
              (Error
                 "STAGEHAND_API_URL is required when using the API. Please set it in your environment variables.")
        | Some _ =>
            match llmClient with
            | None =>
                Throw
                  (TypeError
                     "Cannot read properties of undefined (reading 'type')")
            | Some type =>
                if String.eqb type "openai" || String.eqb type "anthropic"
                then Return this
                else
                  Throw
                    (Error
                       "API mode requires an OpenAI or Anthropic LLM. Please provide a compatible model.")
            end
        end
    end
  else Return this.

(** The getter [env]. *)
Definition env (this : Stagehand) : Env :=
  match intEnv this, truthy (apiKey this), truthy (projectId this) with
  | Some BROWSERBASE, Some _, Some _ => BROWSERBASE
  | _, _, _ => LOCAL
  end.

Record InitResult : Type := {
  init_debugUrl : option string;
  init_sessionUrl : option string;
  init_sessionId : option string
}.

(** The answer of [apiClient.end()]: the status, and the body that
    [response.json()] gives, or its error. *)
Record ApiBody : Type := { success : bool; body_message : option string }.

Record ApiResponse : Type := { response_status : Z; json : outcome ApiBody }.

(** What [init] and [close] do to the outside, in the order they do it;
    [Inner] is a call of [getBrowser]. *)
Inductive Call : Type :=
| Inner (c : Browser.Call)
| ConsoleWarn (text : string)
| ConsoleError (text : string) (e : exn)
| ApiInit (this : Stagehand)
| ContextInit (context : option BrowserContext)
| GetStagehandPages (c : StagehandContext)
| SetViewport (p : StagehandPage) (width height : Z)
| ApiEnd
| Log (l : LogLine)
| ContextClose (c : StagehandContext)
| RmSync (path : string).

Section Methods.

Variable World : Type.

(** The outside of [init] and [close]: that of [getBrowser], the Stagehand
    API, [StagehandContext] and [fs.rmSync]. *)
Record Sys : Type := {
  browser_sys : Browser.Sys World;
  apiClient_init : Stagehand -> World -> outcome string * World;
  StagehandContext_init :
    option BrowserContext -> World -> outcome StagehandContext * World;
  getStagehandPages :
    StagehandContext -> World -> outcome (list StagehandPage) * World;
  setViewport : StagehandPage -> Z -> Z -> World -> outcome unit * World;
  apiClient_end : World -> outcome ApiResponse * World;
  context_close : StagehandContext -> World -> outcome unit * World;
  rmSync : string -> World -> outcome unit * World
}.

(** Computations that may throw, over the instance, the world and the
    trace of calls. *)
Definition State : Type := Stagehand * (World * list Call).

Definition M (A : Type) : Type := State -> outcome A * State.

Definition ret {A : Type} (a : A) : M A := fun s => (Return a, s).

Definition throw {A : Type} (e : exn) : M A := fun s => (Throw e, s).

Definition bind {A B : Type} (m : M A) (k : A -> M B) : M B :=
  fun s =>
    match m s with
    | (Return a, s') => k a s'
    | (Throw e, s') => (Throw e, s')
    end.

Definition this : M Stagehand := fun s => (Return (fst s), s).

Definition assign (f : Stagehand -> Stagehand) : M unit :=
  fun '(t, o) => (Return tt, (f t, o)).

Definition perform {A : Type} (c : Call) (f : World -> outcome A * World)
  : M A :=
  fun '(t, (w, tr)) =>
    let '(r, w') := f w in (r, (t, (w', (tr ++ [c])%list))).

Definition note (c : Call) : M unit :=
  fun '(t, (w, tr)) => (Return tt, (t, (w, (tr ++ [c])%list))).

Variable sys : Sys.

Local Notation "x <- m ;; k" := (bind m (fun x => k))
  (at level 61, m at next level, right associativity).

Definition set_apiClient (t : Stagehand) : Stagehand :=
  {| intEnv := intEnv t; apiKey := apiKey t; projectId := projectId t;
     llmClient := llmClient t; headless := headless t;
     browserbaseSessionCreateParams := browserbaseSessionCreateParams t;
     browserbaseSessionID := browserbaseSessionID t;
     usingAPI := usingAPI t; modelName := modelName t;
     localBrowserLaunchOptions := localBrowserLaunchOptions t;
     signalHandlers := signalHandlers t; contextPath := contextPath t;
     apiClient := true;
     stagehandContext := stagehandContext t;
     stagehandPage := stagehandPage t |}.

Definition set_browserbaseSessionID (id : option string) (t : Stagehand)
  : Stagehand :=
  {| intEnv := intEnv t; apiKey := apiKey t; projectId := projectId t;
     llmClient := llmClient t; headless := headless t;
     browserbaseSessionCreateParams := browserbaseSessionCreateParams t;
     browserbaseSessionID := id;
     usingAPI := usingAPI t; modelName := modelName t;
     localBrowserLaunchOptions := localBrowserLaunchOptions t;
     signalHandlers := signalHandlers t; contextPath := contextPath t;
     apiClient := apiClient t;
     stagehandContext := stagehandContext t;
     stagehandPage := stagehandPage t |}.

Definition set_env_and_path (e : Env) (path : option string) (t : Stagehand)
  : Stagehand :=
  {| intEnv := Some e; apiKey := apiKey t; projectId := projectId t;
     llmClient := llmClient t; headless := headless t;
     browserbaseSessionCreateParams := browserbaseSessionCreateParams t;
     browserbaseSessionID := browserbaseSessionID t;
     usingAPI := usingAPI t; modelName := modelName t;
     localBrowserLaunchOptions := localBrowserLaunchOptions t;
     signalHandlers := signalHandlers t; contextPath := path;
     apiClient := apiClient t;
     stagehandContext := stagehandContext t;
     stagehandPage := stagehandPage t |}.

Definition set_stagehandContext (c : StagehandContext) (t : Stagehand)
  : Stagehand :=
  {| intEnv := intEnv t; apiKey := apiKey t; projectId := projectId t;
     llmClient := llmClient t; headless := headless t;
     browserbaseSessionCreateParams := browserbaseSessionCreateParams t;
     browserbaseSessionID := browserbaseSessionID t;
     usingAPI := usingAPI t; modelName := modelName t;
     localBrowserLaunchOptions := localBrowserLaunchOptions t;
     signalHandlers := signalHandlers t; contextPath := contextPath t;
     apiClient := apiClient t;
     stagehandContext := Some c;
     stagehandPage := stagehandPage t |}.

Definition set_stagehandPage (p : option StagehandPage) (t : Stagehand)
  : Stagehand :=
  {| intEnv := intEnv t; apiKey := apiKey t; projectId := projectId t;
     llmClient := llmClient t; headless := headless t;
     browserbaseSessionCreateParams := browserbaseSessionCreateParams t;
     browserbaseSessionID := browserbaseSessionID t;
     usingAPI := usingAPI t; modelName := modelName t;
     localBrowserLaunchOptions := localBrowserLaunchOptions t;
     signalHandlers := signalHandlers t; contextPath := contextPath t;
     apiClient := apiClient t;
     stagehandContext := stagehandContext t;
     stagehandPage := p |}.

(** [await getBrowser(...).catch(...)]: the calls of [getBrowser] go into
    the trace; its error goes to [console.error], and a result without
    context takes its place. *)
Definition getBrowser_or_empty : M BrowserResult :=
  fun '(t, (w, tr)) =>
    match
      getBrowser (browser_sys sys) (apiKey t) (projectId t) (Some (env t))
        (Some (headless t)) (browserbaseSessionCreateParams t)
        (browserbaseSessionID t) (localBrowserLaunchOptions t) (w, [])
    with
    | (Return r, (w', calls)) =>
        (Return r, (t, (w', (tr ++ map Inner calls)%list)))
    | (Throw e, (w', calls)) =>
        (Return {| result_browser := None;
                   result_context := None;
                   debugUrl := None;
                   sessionUrl := None;
                   Browser.contextPath := None;
                   sessionId := None;
                   result_env := env t |},
         (t, (w', (tr ++ map Inner calls
                      ++ [ConsoleError "Error in init:" e])%list)))
    end.

Definition init (initOptions : bool) : M InitResult :=
  _ <- (if initOptions then
          note
            (ConsoleWarn
               "Passing parameters to init() is deprecated and will be removed in the next major version. Use constructor options instead.")
        else ret tt) ;;
  t <- this ;;
  _ <- (if usingAPI t then
          _ <- assign set_apiClient ;;
          t1 <- this ;;
          sessionId <- perform (ApiInit t1) (apiClient_init sys t1) ;;
          assign (set_browserbaseSessionID (Some sessionId))
        else ret tt) ;;
  result <- getBrowser_or_empty ;;
  _ <- assign (set_env_and_path (result_env result)
                 (Browser.contextPath result)) ;;
  context <-
    perform (ContextInit (result_context result))
      (StagehandContext_init sys (result_context result)) ;;
  _ <- assign (set_stagehandContext context) ;;
  pages <-
    perform (GetStagehandPages context) (getStagehandPages sys context) ;;
  let defaultPage := hd_error pages in
  _ <- assign (set_stagehandPage defaultPage) ;;
  _ <- (if headless t then
          match defaultPage with
          | Some page =>
              perform (SetViewport page 1280 720)
                (setViewport sys page 1280 720)
          | None =>
              throw
                (TypeError
                   "Cannot read properties of undefined (reading 'page')")
          end
        else ret tt) ;;
  _ <- assign (set_browserbaseSessionID (sessionId result)) ;;
  ret {| init_debugUrl := debugUrl result;
         init_sessionUrl := sessionUrl result;
         init_sessionId := sessionId result |}.

(** [close]; [this.log] is noted as a call. *)
Definition close : M unit :=
  t <- this ;;
  if apiClient t then
    response <- perform ApiEnd (apiClient_end sys) ;;
    match json response with
    | Throw e => throw e
    | Return body =>
        if success body then ret tt
        else if response_status response =? 409 then
          note (Log {| Logs.category := Some "close";
                       Logs.message :=
                         "Warning: attempted to end a session that is not currently active";
                       Logs.level := Some 0 |})
        else throw (Error (or_else (body_message body) ""))
    end
  else
    _ <- match stagehandContext t with
         | None =>
             throw
               (Error
                  "Stagehand not initialized. Make sure to await stagehand.init() first.")
         | Some context =>
             perform (ContextClose context) (context_close sys context)
         end ;;
    match truthy (contextPath t) with
    | Some path =>
        fun s =>
          match perform (RmSync path) (rmSync sys path) s with
          | (Return _, s') => (Return tt, s')
          | (Throw e, s') =>
              note (ConsoleError "Error deleting context directory:" e) s'
          end
    | None => ret tt
    end.

End Methods.

Arguments ret {World A} a.
Arguments throw {World A} e.
Arguments bind {World A B} m k.
Arguments this {World}.
Arguments assign {World} f.
Arguments perform {World A} c f.
Arguments note {World} c.
Arguments browser_sys {World} s.
Arguments apiClient_init {World} s.
Arguments StagehandContext_init {World} s.
Arguments getStagehandPages {World} s.
Arguments setViewport {World} s.
Arguments apiClient_end {World} s.
Arguments context_close {World} s.
Arguments rmSync {World} s.
Arguments getBrowser_or_empty {World} sys.
Arguments init {World} sys initOptions.
Arguments close {World} sys.

(** The calls of [close] that reach the browser or the files. *)
Definition closes_or_removes (c : Call) : bool :=
  match c with
  | ContextClose _ | RmSync _ => true
  | _ => false
  end.

(** The warning of [init] about its deprecated argument. *)
Definition deprecation (initOptions : bool) : list Call :=
  if initOptions then
    [ ConsoleWarn
        "Passing parameters to init() is deprecated and will be removed in the next major version. Use constructor options instead." ]
  else [].

Definition is_inner (c : Call) : bool :=
  match c with Inner _ => true | _ => false end.

(** A world that is a counter: the outside of [Browser.demo], an API that
    refuses, a context with one page, and a profile directory that cannot
    be removed. *)
Definition demo : Sys nat :=
  {| browser_sys := Browser.demo;
     apiClient_init := fun _ w => (Throw (Error "401 Unauthorized"), S w);
     StagehandContext_init :=
       fun _ w => (Return {| stagehandContext_handle := w |}, S w);
     getStagehandPages :=
       fun _ w => (Return [ {| stagehandPage_handle := w |} ], S w);
     setViewport := fun _ _ _ w => (Return tt, S w);
     apiClient_end :=
       fun w =>
         (Return {| response_status := 409;
                    json := Return {| success := false;
                                      body_message := Some "not active" |} |},
          S w);
     context_close := fun _ w => (Return tt, S w);
     rmSync := fun _ w => (Throw (Error "EBUSY: resource busy"), S w) |}.

(** The instance that [new Stagehand(params)] makes in [demo]. *)
Definition instance (env : Env) (apiKey : option string) (useAPI : bool)
  (sessionID : option string) : Stagehand :=
  {| intEnv := Some env;
     apiKey := apiKey;
     projectId := Some "proj-1";
     llmClient := Some "openai";
     headless := true;
     browserbaseSessionCreateParams := None;
     browserbaseSessionID := sessionID;
     usingAPI := useAPI;
     modelName := DEFAULT_MODEL_NAME;
     localBrowserLaunchOptions := None;
     signalHandlers := useAPI;
     contextPath := None;
     apiClient := false;
     stagehandContext := None;
     stagehandPage := None |}.

End Lifecycle.

(** * Properties *)

(** ** Strings and [JSON.parse] *)

Section JSONProperties.
Import JSON.

Lemma length_append (a b : string) :
  String.length (a ++ b) = (String.length a + String.length b)%nat.
Proof. induction a as [|c a IH]; cbn; [reflexivity | now rewrite IH]. Qed.

Lemma prefix_app (p r : string) : String.prefix p (p ++ r) = true.
Proof.
  induction p as [|c p IH]; cbn.
  - now destruct r.
  - destruct (ascii_dec c c); [exact IH | contradiction].
Qed.

Lemma prefix_split (p s : string) :
  String.prefix p s = true -> s = p ++ drop (String.length p) s.
Proof.
  revert s. induction p as [|c p IH]; intros s H.
  - reflexivity.
  - destruct s as [|d s]; cbn in H; [discriminate|].
    destruct (ascii_dec c d) as [->|]; [| discriminate].
    cbn. f_equal. now apply IH.
Qed.

Lemma starts_with_length (p s out : string) :
  starts_with p s = Some out ->
  String.length s = (String.length p + String.length out)%nat.
Proof.
  unfold starts_with. destruct (String.prefix p s) eqn:P; [| discriminate].
  intros H. injection H as <-. apply prefix_split in P.
  rewrite P at 1. apply length_append.
Qed.

Lemma skip_ws_length (s : string) :
  (String.length (skip_ws s) <= String.length s)%nat.
Proof.
  induction s as [|c s IH]; cbn; [lia|].
  destruct (is_ws c); cbn; lia.
Qed.

Lemma take_digits_length (s : string) :
  forall acc cnt n k out,
    take_digits s acc cnt = (n, k, out) ->
    Z.of_nat (String.length s) = Z.of_nat (String.length out) + (k - cnt)
    /\ cnt <= k.
Proof.
  induction s as [|c s IH]; intros acc cnt n k out; cbn.
  - intros H. injection H as <- <- <-. cbn. lia.
  - destruct (digit_of c).
    + intros H. apply IH in H. lia.
    + intros H. injection H as <- <- <-. cbn [String.length]. lia.
Qed.

Lemma parse_sign_length (s s1 : string) (sg : Z) :
  parse_sign s = (sg, s1) -> (String.length s1 <= String.length s)%nat.
Proof.
  destruct s as [|c r]; cbn.
  - intros H. injection H as <- <-. cbn. lia.
  - destruct (Ascii.eqb c "-"); intros H; injection H as <- <-; cbn; lia.
Qed.

Lemma parse_int_length (s out : string) (n : Z) :
  parse_int s = Some (n, out) -> (String.length out < String.length s)%nat.
Proof.
  destruct s as [|c r]; [discriminate|]. unfold parse_int.
  destruct (Ascii.eqb c "0").
  - intros H. injection H as <- <-. cbn. lia.
  - destruct (take_digits (String c r) 0 0) as [[m k] o] eqn:T.
    destruct (k =? 0) eqn:K; [discriminate|].
    intros H. injection H as <- <-.
    apply take_digits_length in T. apply Z.eqb_neq in K. lia.
Qed.

Lemma parse_frac_length (s out : string) (n m k : Z) :
  parse_frac n s = Some (m, k, out) ->
  (String.length out <= String.length s)%nat.
Proof.
  destruct s as [|c r]; cbn.
  - intros H. injection H as <- <- <-. cbn. lia.
  - destruct (Ascii.eqb c ".").
    + destruct (take_digits r n 0) as [[m0 k0] o] eqn:T.
      destruct (k0 =? 0); [discriminate|].
      intros H. injection H as <- <- <-.
      apply take_digits_length in T. lia.
    + intros H. injection H as <- <- <-. cbn. lia.
Qed.

Lemma parse_exp_sign_length (s s1 : string) (sg : Z) :
  parse_exp_sign s = (sg, s1) -> (String.length s1 <= String.length s)%nat.
Proof.
  destruct s as [|c r]; cbn.
  - intros H. injection H as <- <-. cbn. lia.
  - destruct (Ascii.eqb c "+"); [| destruct (Ascii.eqb c "-")];
      intros H; injection H as <- <-; cbn; lia.
Qed.

Lemma parse_exp_length (s out : string) (e : Z) :
  parse_exp s = Some (e, out) -> (String.length out <= String.length s)%nat.
Proof.
  destruct s as [|c r]; cbn.
  - intros H. injection H as <- <-. cbn. lia.
  - destruct (Ascii.eqb c "e" || Ascii.eqb c "E")%bool.
    + destruct (parse_exp_sign r) as [sg r1] eqn:E.
      apply parse_exp_sign_length in E.
      destruct (take_digits r1 0 0) as [[e0 k0] o] eqn:T.
      destruct (k0 =? 0); [discriminate|].
      intros H. injection H as <- <-.
      apply take_digits_length in T. lia.
    + intros H. injection H as <- <-. cbn. lia.
Qed.

Lemma parse_number_length (s out : string) (q : Q) :
  parse_number s = Some (q, out) -> (String.length out < String.length s)%nat.
Proof.
  unfold parse_number.
  destruct (parse_sign s) as [sg s1] eqn:S1. apply parse_sign_length in S1.
  destruct (parse_int s1) as [[n s2]|] eqn:S2; [| discriminate].
  apply parse_int_length in S2.
  destruct (parse_frac n s2) as [[[m fd] s3]|] eqn:S3; [| discriminate].
  apply parse_frac_length in S3.
  destruct (parse_exp s3) as [[e s4]|] eqn:S4; [| discriminate].
  apply parse_exp_length in S4.
  intros H. injection H as _ <-. lia.
Qed.

Lemma prepend_length (bytes t out : string) (rest : option (string * string)) :
  prepend bytes rest = Some (t, out) ->
  exists t', rest = Some (t', out).
Proof.
  destruct rest as [[t' o]|]; [| discriminate].
  intros H. injection H as _ <-. now exists t'.
Qed.

Lemma parse_string_body_length (n : nat) :
  forall s t out,
    (String.length s <= n)%nat ->
    parse_string_body s = Some (t, out) ->
    (String.length out < String.length s)%nat.
Proof.
  induction n as [|n IH]; intros s t out Hn.
  - destruct s; [discriminate | cbn in Hn; lia].
  - destruct s as [|c r]; [discriminate|].
    cbn [parse_string_body String.length] in *.
    destruct (Ascii.eqb c quote).
    { intros H. injection H as _ <-. lia. }
    destruct (Ascii.eqb c backslash).
    + destruct r as [|e r']; [discriminate|]. cbn [String.length] in *.
      destruct (simple_escape e).
      * intros H. apply prepend_length in H. destruct H as [t' H].
        apply IH in H; lia.
      * destruct (Ascii.eqb e "u"); [| discriminate].
        destruct r' as [|h1 [|h2 [|h3 [|h4 r'']]]]; try discriminate.
        destruct (hex_of h1), (hex_of h2), (hex_of h3), (hex_of h4);
          try discriminate.
        cbn [String.length] in *.
        intros H. apply prepend_length in H. destruct H as [t' H].
        apply IH in H; lia.
    + destruct (N_of_ascii c <? 32)%N; [discriminate|].
      intros H. apply prepend_length in H. destruct H as [t' H].
      apply IH in H; lia.
Qed.

Example parse_array :
  parse "[1, 2.5e1, null, -0.25, true]"
  = Some (JArray [JNumber 1; JNumber 25; JNull; JNumber (-1 # 4); JBool true]).
Proof. reflexivity. Qed.

Example parse_object :
  parse ("{" ++ String quote ("done" ++ String quote ": false, ")
             ++ String quote ("n" ++ String quote ": [{}] } "))
  = Some (JObject [("done", JBool false); ("n", JArray [JObject []])]).
Proof. reflexivity. Qed.

Example parse_prose : parse "I could not find it" = None.
Proof. reflexivity. Qed.

Example parse_trailing_comma : parse "[1,]" = None.
Proof. reflexivity. Qed.

Example parse_leading_zero : parse "01" = None.
Proof. reflexivity. Qed.

Ltac enough_fuel k :=
  let k' := fresh "k" in
  destruct k as [|k']; [cbn [String.length] in *; lia |].

Lemma value_body_adequate elements members :
  elements_adequate elements -> members_adequate members ->
  value_adequate (value_body elements members).
Proof.
  intros HE HM s v out. unfold value_body.
  pose proof (skip_ws_length s) as Hws.
  destruct (skip_ws s) as [|c r] eqn:Hs; [discriminate|].
  cbn [String.length] in Hws.
  destruct (Ascii.eqb c quote) eqn:C1.
  { destruct (parse_string_body r) as [[t o]|] eqn:B; [| discriminate].
    intros H. injection H as <- <-.
    pose proof (parse_string_body_length _ _ _ _ (le_n _) B) as Hb.
    split; [lia|]. intros k Hk. enough_fuel k.
    cbn [parse_value]. unfold value_body. now rewrite Hs, C1, B. }
  destruct (Ascii.eqb c "[") eqn:C2.
  { pose proof (skip_ws_length r) as Hwr.
    assert (Hrec : elements r [] = Some (v, out) ->
                   (String.length out < String.length s)%nat
                   /\ (forall k, (String.length s - String.length out <= k)%nat ->
                                 parse_elements (pred k) r [] = Some (v, out)
                                 /\ (0 < k)%nat)).
    { intros H. apply HE in H. destruct H as [Hl Hk]. split; [lia|].
      intros k Hk'. split; [apply Hk; lia | lia]. }
    destruct (skip_ws r) as [|d o] eqn:Hr.
    - intros H. destruct (Hrec H) as [Hl Hk]. split; [exact Hl|].
      intros k Hk'. destruct (Hk k Hk') as (Hp & Hpos).
      destruct k as [|k']; [lia|]. cbn [pred] in Hp.
      cbn [parse_value]. unfold value_body. now rewrite Hs, C1, C2, Hr.
    - destruct (Ascii.eqb d "]") eqn:D.
      + intros H. injection H as <- <-. cbn [String.length] in Hwr.
        split; [lia|]. intros k Hk. enough_fuel k.
        cbn [parse_value]. unfold value_body. now rewrite Hs, C1, C2, Hr, D.
      + intros H. destruct (Hrec H) as [Hl Hk]. split; [exact Hl|].
        intros k Hk'. destruct (Hk k Hk') as (Hp & Hpos).
        destruct k as [|k']; [lia|]. cbn [pred] in Hp.
        cbn [parse_value]. unfold value_body. now rewrite Hs, C1, C2, Hr, D. }
  destruct (Ascii.eqb c "{") eqn:C3.
  { pose proof (skip_ws_length r) as Hwr.
    assert (Hrec : members r [] = Some (v, out) ->
                   (String.length out < String.length s)%nat
                   /\ (forall k, (String.length s - String.length out <= k)%nat ->
                                 parse_members (pred k) r [] = Some (v, out)
                                 /\ (0 < k)%nat)).
    { intros H. apply HM in H. destruct H as [Hl Hk]. split; [lia|].
      intros k Hk'. split; [apply Hk; lia | lia]. }
    destruct (skip_ws r) as [|d o] eqn:Hr.
    - intros H. destruct (Hrec H) as [Hl Hk]. split; [exact Hl|].
      intros k Hk'. destruct (Hk k Hk') as (Hp & Hpos).
      destruct k as [|k']; [lia|]. cbn [pred] in Hp.
      cbn [parse_value]. unfold value_body. now rewrite Hs, C1, C2, C3, Hr.
    - destruct (Ascii.eqb d "}") eqn:D.
      + intros H. injection H as <- <-. cbn [String.length] in Hwr.
        split; [lia|]. intros k Hk. enough_fuel k.
        cbn [parse_value]. unfold value_body.
        now rewrite Hs, C1, C2, C3, Hr, D.
      + intros H. destruct (Hrec H) as [Hl Hk]. split; [exact Hl|].
        intros k Hk'. destruct (Hk k Hk') as (Hp & Hpos).
        destruct k as [|k']; [lia|]. cbn [pred] in Hp.
        cbn [parse_value]. unfold value_body.
        now rewrite Hs, C1, C2, C3, Hr, D. }
  destruct (Ascii.eqb c "n") eqn:C4.
  { destruct (starts_with "null" (String c r)) as [o|] eqn:W; [| discriminate].
    intros H. injection H as <- <-.
    pose proof (starts_with_length _ _ _ W) as Hl. cbn [String.length] in Hl.
    split; [lia|]. intros k Hk. enough_fuel k.
    cbn [parse_value]. unfold value_body. now rewrite Hs, C1, C2, C3, C4, W. }
  destruct (Ascii.eqb c "t") eqn:C5.
  { destruct (starts_with "true" (String c r)) as [o|] eqn:W; [| discriminate].
    intros H. injection H as <- <-.
    pose proof (starts_with_length _ _ _ W) as Hl. cbn [String.length] in Hl.
    split; [lia|]. intros k Hk. enough_fuel k.
    cbn [parse_value]. unfold value_body.
    now rewrite Hs, C1, C2, C3, C4, C5, W. }
  destruct (Ascii.eqb c "f") eqn:C6.
  { destruct (starts_with "false" (String c r)) as [o|] eqn:W; [| discriminate].
    intros H. injection H as <- <-.
    pose proof (starts_with_length _ _ _ W) as Hl. cbn [String.length] in Hl.
    split; [lia|]. intros k Hk. enough_fuel k.
    cbn [parse_value]. unfold value_body.
    now rewrite Hs, C1, C2, C3, C4, C5, C6, W. }
  destruct (parse_number (String c r)) as [[q o]|] eqn:N; [| discriminate].
  intros H. injection H as <- <-.
  pose proof (parse_number_length _ _ _ N) as Hl. cbn [String.length] in Hl.
  split; [lia|]. intros k Hk. enough_fuel k.
  cbn [parse_value]. unfold value_body.
  now rewrite Hs, C1, C2, C3, C4, C5, C6, N.
Qed.

Lemma elements_body_adequate value elements :
  value_adequate value -> elements_adequate elements ->
  elements_adequate (elements_body value elements).
Proof.
  intros HV HE s acc v out. unfold elements_body.
  destruct (value s) as [[v1 o1]|] eqn:V; [| discriminate].
  destruct (HV _ _ _ V) as [Hl1 Hk1].
  pose proof (skip_ws_length o1) as Hws.
  destruct (skip_ws o1) as [|d o2] eqn:Ho; [discriminate|].
  cbn [String.length] in Hws.
  destruct (Ascii.eqb d ",") eqn:D1.
  - intros H. destruct (HE _ _ _ _ H) as [Hl2 Hk2]. split; [lia|].
    intros k Hk. destruct k as [|k']; [lia|].
    cbn [parse_elements]. unfold elements_body.
    rewrite (Hk1 k') by lia. rewrite Ho, D1. apply Hk2. lia.
  - destruct (Ascii.eqb d "]") eqn:D2; [| discriminate].
    intros H. injection H as <- <-. split; [lia|].
    intros k Hk. destruct k as [|k']; [lia|].
    cbn [parse_elements]. unfold elements_body.
    rewrite (Hk1 k') by lia. now rewrite Ho, D1, D2.
Qed.

Lemma members_body_adequate value members :
  value_adequate value -> members_adequate members ->
  members_adequate (members_body value members).
Proof.
  intros HV HM s acc v out. unfold members_body.
  pose proof (skip_ws_length s) as Hws.
  destruct (skip_ws s) as [|c r] eqn:Hs; [discriminate|].
  cbn [String.length] in Hws.
  destruct (Ascii.eqb c quote) eqn:C1; [| discriminate].
  destruct (parse_string_body r) as [[key o]|] eqn:B; [| discriminate].
  pose proof (parse_string_body_length _ _ _ _ (le_n _) B) as Hb.
  pose proof (skip_ws_length o) as Hwo.
  destruct (skip_ws o) as [|d o1] eqn:Ho; [discriminate|].
  cbn [String.length] in Hwo.
  destruct (Ascii.eqb d ":") eqn:D; [| discriminate].
  destruct (value o1) as [[v1 o2]|] eqn:V; [| discriminate].
  destruct (HV _ _ _ V) as [Hl1 Hk1].
  pose proof (skip_ws_length o2) as Hw2.
  destruct (skip_ws o2) as [|d' o3] eqn:Ho2; [discriminate|].
  cbn [String.length] in Hw2.
  destruct (Ascii.eqb d' ",") eqn:D1.
  - intros H. destruct (HM _ _ _ _ H) as [Hl2 Hk2]. split; [lia|].
    intros k Hk. destruct k as [|k']; [lia|].
    cbn [parse_members]. unfold members_body.
    rewrite Hs, C1, B, Ho, D. rewrite (Hk1 k') by lia.
    rewrite Ho2, D1. apply Hk2. lia.
  - destruct (Ascii.eqb d' "}") eqn:D2; [| discriminate].
    intros H. injection H as <- <-. split; [lia|].
    intros k Hk. destruct k as [|k']; [lia|].
    cbn [parse_members]. unfold members_body.
    rewrite Hs, C1, B, Ho, D. rewrite (Hk1 k') by lia.
    now rewrite Ho2, D1, D2.
Qed.

Lemma parsers_adequate (f : nat) :
  value_adequate (parse_value f)
  /\ elements_adequate (parse_elements f)
  /\ members_adequate (parse_members f).
Proof.
  induction f as [|f (IHv & IHe & IHm)].
  - repeat split; discriminate.
  - split; [| split]; cbn [parse_value parse_elements parse_members].
    + now apply value_body_adequate.
    + now apply elements_body_adequate.
    + now apply members_body_adequate.
Qed.

(** The fuel that [parse] gives is enough: a parse that succeeds with some
    fuel succeeds, with the same result, with the fuel of [parse]. *)
Lemma parse_value_enough_fuel (f : nat) (s : string) (v : json) (out : string) :
  parse_value f s = Some (v, out) ->
  parse_value (2 * String.length s + 2) s = Some (v, out).
Proof.
  intros H. destruct (parsers_adequate f) as [Hv _].
  destruct (Hv _ _ _ H) as [_ Hk]. apply Hk. lia.
Qed.

(** [parse] gives [None] only on a text that no amount of fuel parses as
    one value followed by white space. *)
Lemma parse_none (text : string) :
  parse text = None ->
  forall f v out, parse_value f text = Some (v, out) -> skip_ws out <> "".
Proof.
  unfold parse. intros H f v out Hf.
  rewrite (parse_value_enough_fuel _ _ _ _ Hf) in H.
  destruct (skip_ws out); [discriminate | discriminate].
Qed.

End JSONProperties.

(** ** Metrics *)

Section MetricsProperties.
Import Metrics.

Lemma updateMetrics_other_kinds (k k' : StagehandFunctionName) (p c t : Z)
  (m : StagehandMetrics) :
  k' <> k -> kindCounters k' (updateMetrics k p c t m) = kindCounters k' m.
Proof.
  destruct k, k'; intros Hne; try reflexivity; now elim Hne.
Qed.

Lemma updateMetrics_monotone (k : StagehandFunctionName) (p c t : Z)
  (m : StagehandMetrics) :
  0 <= p -> 0 <= c -> 0 <= t ->
  Forall2 Z.le (allCounters m) (allCounters (updateMetrics k p c t m)).
Proof.
  intros Hp Hc Ht.
  destruct k; unfold allCounters; cbn;
    repeat (constructor; try lia).
Qed.



End MetricsProperties.

(** ** The agent's [execute] *)

Section AgentProperties.
Import Agent.

Variable AgentResult : Type.
Variable handler : AgentExecuteOptions -> outcome AgentResult.

Lemma falsy_spec (x : option string) :
  falsy x = true <-> x = None \/ x = Some "".
Proof.
  destruct x as [s|]; cbn.
  - rewrite String.eqb_eq. split.
    + intros ->. now right.
    + intros [H|H]; [discriminate | now injection H].
  - split; auto.
Qed.


End AgentProperties.


(** ** Log forwarding *)

Section LogProperties.
Import Logs.

Lemma continue_cycle_one_cycle (items : list PendingLog) (s : State) :
  is_processing_browserbase_logs s = true ->
  one_cycle (continue_cycle [] items s).
Proof.
  intros Hflag. unfold continue_cycle.
  destruct items as [|p rest].
  - split; cbn; [lia | congruence].
  - destruct (start_log_to_browserbase s p); split; cbn; auto; congruence.
Qed.

Lemma continue_cycle_none_lost (others : list Cycle) (items : list PendingLog)
  (s : State) :
  none_lost s -> none_lost (continue_cycle others items s).
Proof.
  intros H. unfold continue_cycle.
  destruct items as [|p rest]; [exact H|].
  destruct (start_log_to_browserbase s p); exact H.
Qed.

Lemma log_one_cycle (l : LogLine) (s : State) :
  one_cycle s -> one_cycle (log l s).
Proof.
  intros [Hlen Hflag]. unfold log, _run_browserbase_log_processing_cycle. cbn.
  destruct (is_processing_browserbase_logs s) eqn:F.
  - split; cbn; assumption.
  - assert (cycles s = []) as ->.
    { destruct (cycles s); [reflexivity|].
      assert (false = true) by (apply Hflag; discriminate). discriminate. }
    now apply continue_cycle_one_cycle.
Qed.

Lemma resume_one_cycle (i : nat) (ok : bool) (s : State) :
  one_cycle s -> one_cycle (resume i ok s).
Proof.
  intros [Hlen Hflag]. unfold resume.
  destruct (nth_error (cycles s) i) as [c|] eqn:Hn; [| now split].
  destruct (cycles s) as [|c0 [|c1 cs]] eqn:Hc; cbn in Hlen; try lia.
  - destruct i; discriminate.
  - assert (Ht : is_processing_browserbase_logs s = true)
      by (apply Hflag; discriminate).
    destruct i as [|i]; [| destruct i; discriminate].
    destruct (awaiting c) as [|p]; [| destruct ok]; cbn; rewrite ?Hc; cbn;
      now apply continue_cycle_one_cycle.
Qed.

Lemma step_one_cycle (s : State) (e : Event) :
  one_cycle s -> one_cycle (step s e).
Proof.
  destruct e; cbn.
  - apply log_one_cycle.
  - apply resume_one_cycle.
  - auto.
  - auto.
Qed.

Lemma has_id_app (i : nat) (l1 l2 : list PendingLog) :
  has_id i (l1 ++ l2)%list <-> has_id i l1 \/ has_id i l2.
Proof.
  unfold has_id. split.
  - intros (p & Hin & Hid). apply in_app_or in Hin.
    destruct Hin; [left | right]; eauto.
  - intros [(p & Hin & Hid) | (p & Hin & Hid)];
      exists p; split; auto; apply in_or_app; auto.
Qed.

Lemma log_none_lost (l : LogLine) (s : State) :
  none_lost s -> none_lost (log l s).
Proof.
  intros H. unfold log, _run_browserbase_log_processing_cycle. cbn.
  match goal with
  | |- none_lost (if _ then ?a else _) => assert (Hs1 : none_lost a)
  end.
  { intros i Hi. cbn in *. rewrite has_id_app.
    destruct (Nat.eq_dec i (next_uuid s)) as [->|Hne].
    - left. right. eexists. split; [left; reflexivity | reflexivity].
    - destruct (H i ltac:(lia)); auto. }
  destruct (is_processing_browserbase_logs s); [exact Hs1|].
  apply continue_cycle_none_lost. exact Hs1.
Qed.

Lemma evaluate_resolved_none_lost (p : PendingLog) (s : State) :
  none_lost s -> none_lost (evaluate_resolved p s).
Proof.
  intros H i Hi. cbn in *. rewrite has_id_app.
  destruct (Nat.eq_dec i (id p)) as [->|Hne].
  - right. right. exists p. split; [left; reflexivity | reflexivity].
  - destruct (H i Hi) as [(q & Hin & Hid) | Hd]; [left | right; left; exact Hd].
    exists q. split; [| exact Hid].
    apply filter_In. split; [exact Hin|].
    apply Bool.negb_true_iff, Nat.eqb_neq. congruence.
Qed.

Lemma resume_none_lost (i : nat) (ok : bool) (s : State) :
  none_lost s -> none_lost (resume i ok s).
Proof.
  intros H. unfold resume.
  destruct (nth_error (cycles s) i) as [c|]; [| exact H].
  apply continue_cycle_none_lost.
  destruct (awaiting c) as [|p]; [exact H|].
  destruct ok; [| exact H]. now apply evaluate_resolved_none_lost.
Qed.

Lemma step_none_lost (s : State) (e : Event) :
  none_lost s -> none_lost (step s e).
Proof.
  destruct e; cbn.
  - apply log_none_lost.
  - apply resume_none_lost.
  - auto.
  - auto.
Qed.

Lemma run_invariants (events : list Event) (s : State) :
  one_cycle s -> none_lost s ->
  one_cycle (run events s) /\ none_lost (run events s).
Proof.
  revert s. induction events as [|e events IH]; intros s H1 H2; cbn.
  - now split.
  - apply IH; [now apply step_one_cycle | now apply step_none_lost].
Qed.

Lemma initial_invariants (v : Z) : one_cycle (initial v) /\ none_lost (initial v).
Proof.
  split.
  - split; cbn; [lia | congruence].
  - intros i Hi. cbn in Hi. lia.
Qed.

Lemma run_app (events more : list Event) (s : State) :
  run (events ++ more) s = run more (run events s).
Proof. apply fold_left_app. Qed.

(** With no cycle suspended, only a call of [log] gets anything delivered. *)
Lemma run_without_log (more : list Event) (s : State) :
  cycles s = [] ->
  forallb (fun e => negb (is_log_call e)) more = true ->
  cycles (run more s) = [] /\ delivered (run more s) = delivered s.
Proof.
  revert s. induction more as [|e more IH]; intros s Hc Hm; [now split|].
  cbn in Hm. apply Bool.andb_true_iff in Hm. destruct Hm as [He Hm].
  cbn [run fold_left].
  destruct e as [l | i ok | |]; [discriminate He | | |].
  - assert (Hs : step s (Resume i ok) = s).
    { cbn. unfold resume. rewrite Hc. now destruct i. }
    rewrite Hs. now apply IH.
  - destruct (IH (step s Init) Hc Hm) as [H1 H2]. now split.
  - destruct (IH (step s SetActivePage) Hc Hm) as [H1 H2]. now split.
Qed.


End LogProperties.


(** ** The Google client *)

Section PrepareProperties.
Import LLM Google.

Lemma push_or_merge_nonempty (result : list Content) (c : Content) :
  push_or_merge result c <> [].
Proof.
  destruct result as [|x [|y r]]; cbn; try discriminate.
  destruct (String.eqb (role c) (role x)); discriminate.
Qed.

(** The loop as a function of the entries still to come: pushing onto a
    result that ends in [l] is merging the runs of [l :: contents]. *)
Lemma fold_push_or_merge (contents : list Content) :
  forall (init : list Content) (l : Content),
    fold_left push_or_merge contents (init ++ [l])%list
    = (init ++ fold_left push_or_merge contents [l])%list.
Proof.
  induction contents as [|c rest IH]; intros init l; cbn [fold_left].
  - reflexivity.
  - assert (Hstep : push_or_merge (init ++ [l]) c
                    = (init ++ push_or_merge [l] c)%list).
    { induction init as [|x init IHi]; [reflexivity|].
      cbn [app push_or_merge]. rewrite IHi.
      destruct (init ++ [l])%list eqn:E; [| reflexivity].
      now destruct init. }
    rewrite Hstep. cbn [push_or_merge].
    destruct (String.eqb (role c) (role l)).
    + apply IH.
    + change [l; c] with ([l] ++ [c])%list.
      rewrite app_assoc, IH, IH. now rewrite app_assoc.
Qed.

Lemma merge_runs_cons_merged (l c : Content) (rest : list Content) :
  role c = role l ->
  merge_runs (l :: c :: rest)
  = merge_runs ({| role := role l; parts := (parts l ++ parts c)%list |} :: rest).
Proof.
  intros Hr. cbn [merge_runs].
  destruct (merge_runs rest) as [|d ds]; rewrite Hr.
  - now rewrite String.eqb_refl.
  - destruct (String.eqb (role l) (role d)) eqn:E; cbn [role parts];
      rewrite ?Hr, String.eqb_refl, E; [now rewrite app_assoc | reflexivity].
Qed.


Lemma merge_runs_head (l : Content) (rest : list Content) :
  exists ps tl, merge_runs (l :: rest) = {| role := role l; parts := ps |} :: tl.
Proof.
  cbn [merge_runs]. destruct (merge_runs rest) as [|d ds].
  - destruct l; eauto.
  - destruct (String.eqb (role l) (role d)); destruct l; eauto.
Qed.

Lemma merge_runs_cons_distinct (l c : Content) (rest : list Content) :
  role c <> role l ->
  merge_runs (l :: c :: rest) = l :: merge_runs (c :: rest).
Proof.
  intros Hr.
  destruct (merge_runs_head c rest) as (ps & tl & E).
  change (merge_runs (l :: c :: rest))
    with (match merge_runs (c :: rest) with
          | d :: ds =>
              if String.eqb (role l) (role d)
              then {| role := role l; parts := (parts l ++ parts d)%list |} :: ds
                else l :: d :: ds
          | [] => [l]
          end).
  rewrite E. cbn [role].
  destruct (String.eqb (role l) (role c)) eqn:F; [| reflexivity].
  apply String.eqb_eq in F. now elim Hr.
Qed.

(** The loop of the source, run on a result that holds one entry, computes
    the merge of runs that the specification describes. *)
Lemma loop_is_merge_runs (contents : list Content) (l : Content) :
  fold_left push_or_merge contents [l] = merge_runs (l :: contents).
Proof.
  revert l. induction contents as [|c rest IH]; intros l.
  - reflexivity.
  - cbn [fold_left push_or_merge].
    destruct (String.eqb (role c) (role l)) eqn:E.
    + apply String.eqb_eq in E. rewrite IH.
      symmetry. now apply merge_runs_cons_merged.
    + apply String.eqb_neq in E.
      change [l; c] with ([l] ++ [c])%list.
      rewrite fold_push_or_merge, IH. cbn [app].
      symmetry. now apply merge_runs_cons_distinct.
Qed.

Lemma loop_from_empty (contents : list Content) :
  fold_left push_or_merge contents [] = merge_runs contents.
Proof.
  destruct contents as [|c rest]; [reflexivity|].
  cbn [fold_left push_or_merge]. apply loop_is_merge_runs.
Qed.

Lemma merge_runs_alternating (contents : list Content) :
  alternating (map role (merge_runs contents)).
Proof.
  induction contents as [|c rest IH]; cbn [merge_runs]; [exact I|].
  destruct (merge_runs rest) as [|d ds] eqn:E; [exact I|].
  destruct (String.eqb (role c) (role d)) eqn:F.
  - apply String.eqb_eq in F. cbn [map role] in *.
    destruct ds as [|e ds]; [exact I|].
    cbn [map alternating] in *. now rewrite F.
  - apply String.eqb_neq in F. cbn [map alternating] in *. now split.
Qed.

Lemma merge_runs_parts (contents : list Content) :
  flat_map parts (merge_runs contents) = flat_map parts contents.
Proof.
  induction contents as [|c rest IH]; cbn [merge_runs]; [reflexivity|].
  cbn [flat_map]. rewrite <- IH.
  destruct (merge_runs rest) as [|d ds]; [reflexivity|].
  destruct (String.eqb (role c) (role d)); cbn [flat_map parts];
    now rewrite ?app_assoc.
Qed.

(** What [prepareGoogleContent] computes, case by case. *)
Lemma prepareGoogleContent_cases (contents : list Content)
  (systemInstruction : option string) :
  prepareGoogleContent contents systemInstruction
  = match provided_text systemInstruction, contents with
    | None, _ => merge_runs contents
    | Some s, [] => [ {| role := "user"; parts := [Text s] |} ]
    | Some s, first :: rest =>
        if String.eqb (role first) "user" then
          merge_runs
            ({| role := role first;
                parts := Text (s ++ String newline (String newline ""))
                           :: parts first |} :: rest)
        else {| role := "user"; parts := [Text s] |} :: merge_runs contents
    end.
Proof.
  unfold prepareGoogleContent.
  destruct contents as [|first rest].
  - now destruct (provided_text systemInstruction).
  - destruct (provided_text systemInstruction) as [s|].
    + destruct (String.eqb (role first) "user") eqn:E.
      * apply loop_is_merge_runs.
      * rewrite loop_is_merge_runs.
        apply merge_runs_cons_distinct. cbn [role].
        apply String.eqb_neq in E. exact E.
    + apply loop_from_empty.
Qed.

(** C10: the output of [prepareGoogleContent] has no two neighbours of the
    same role; without a system instruction it is the input with each run
    of same-role entries merged into one entry that holds their parts in
    order; a system instruction goes in front of the parts of the first
    entry when that entry is a user message, and into a leading user entry
    of its own otherwise; in every case the parts of the output, read in
    order, are the parts of the input behind the instruction. *)
Theorem prepareGoogleContent_merges_runs (contents : list Content)
  (systemInstruction : option string) :
  alternating (map role (prepareGoogleContent contents systemInstruction))
  /\ (provided_text systemInstruction = None ->
        prepareGoogleContent contents systemInstruction = merge_runs contents)
  /\ (forall s first rest,
        provided_text systemInstruction = Some s ->
        contents = first :: rest -> role first = "user" ->
        prepareGoogleContent contents systemInstruction
        = merge_runs
            ({| role := "user";
                parts := Text (s ++ String newline (String newline ""))
                           :: parts first |} :: rest))
  /\ (forall s,
        provided_text systemInstruction = Some s ->
        (forall first rest, contents = first :: rest -> role first <> "user") ->
        prepareGoogleContent contents systemInstruction
        = {| role := "user"; parts := [Text s] |} :: merge_runs contents)
  /\ (forall s,
        provided_text systemInstruction = Some s ->
        exists sys_part,
          (sys_part = Text s
           \/ sys_part = Text (s ++ String newline (String newline "")))
          /\ flat_map parts (prepareGoogleContent contents systemInstruction)
             = sys_part :: flat_map parts contents).
Proof.
  rewrite prepareGoogleContent_cases.
  split; [| split; [| split; [| split]]].
  - destruct (provided_text systemInstruction) as [s|].
    + destruct contents as [|first rest]; [exact I|].
      destruct (String.eqb (role first) "user") eqn:E.
      * apply merge_runs_alternating.
      * apply String.eqb_neq in E.
        rewrite <- (merge_runs_cons_distinct
                      {| role := "user"; parts := [Text s] |} first rest)
          by exact E.
        apply merge_runs_alternating.
    + apply merge_runs_alternating.
  - now intros ->.
  - intros s first rest -> -> Hr. rewrite Hr. reflexivity.
  - intros s -> Hne. destruct contents as [|first rest]; [reflexivity|].
    specialize (Hne first rest eq_refl).
    apply String.eqb_neq in Hne. now rewrite Hne.
  - intros s ->. destruct contents as [|first rest].
    + exists (Text s). split; [now left | reflexivity].
    + destruct (String.eqb (role first) "user").
      * exists (Text (s ++ String newline (String newline ""))).
        split; [now right|]. now rewrite merge_runs_parts.
      * exists (Text s). split; [now left|].
        cbn [flat_map parts]. now rewrite merge_runs_parts.
Qed.

End PrepareProperties.

Section GoogleCompletionProperties.
Import JSON LLM Google.

Lemma complete_with_reply (c : GoogleClient) (date_now : Z)
  (options : ChatCompletionOptions) (response : GenerateContentResponse)
  (ps : list Part) (m : ResponseModel) :
  reply_parts response = Some ps ->
  response_model options = Some m ->
  snd (complete c date_now options response)
  = Return
      (Parsed
         (match parse (responseText ps) with
          | Some v => v
          | None => text_fallback (responseText ps)
          end)
         (usageData response)).
Proof.
  unfold reply_parts, complete. intros Hps Hm.
  destruct (candidates response) as [[|x xs]|]; try discriminate.
  destruct x as [[[|p ps']|] fr sr]; try discriminate.
  injection Hps as <-. cbn [content_parts]. rewrite Hm.
  now destruct (parse (responseText (p :: ps'))).
Qed.

Lemma complete_throws_StagehandError (c : GoogleClient) (date_now : Z)
  (options : ChatCompletionOptions) (response : GenerateContentResponse)
  (e : exn) :
  snd (complete c date_now options response) = Throw e ->
  exn_name e = "StagehandError".
Proof.
  unfold complete.
  destruct (candidates response) as [[|x xs]|];
    try (cbn; intros H; injection H as <-; reflexivity).
  destruct (content_parts x) as [[|p ps]|];
    try (cbn; intros H; injection H as <-; reflexivity).
  destruct (response_model options); [destruct (parse _)|]; discriminate.
Qed.

Lemma createChatCompletion_outcome (c : GoogleClient) (date_now : Z)
  (options : ChatCompletionOptions) :
  snd (createChatCompletion c date_now options)
  = match generateContent c (googleContents c options)
            (generationConfig options) with
    | Return response =>
        match snd (complete c date_now options response) with
        | Return r => Return r
        | Throw e =>
            Throw (StagehandError ("Google API Error: " ++ exn_message e))
        end
    | Throw e => Throw (StagehandError ("Google API Error: " ++ exn_message e))
    end.
Proof.
  unfold createChatCompletion.
  destruct (generateContent c _ _) as [response|e]; [| reflexivity].
  now destruct (complete c date_now options response) as [logged [r|e]].
Qed.

(** C1, as the code has it: on a structured call to the Google client whose
    reply has content, a reply that parses as JSON is returned as the data
    without any check against the schema, and a reply that does not parse
    is returned as well, wrapped as [{completed: reply, progress: 1}]; the
    call succeeds in both cases, and an error it throws is never a
    [SchemaValidationError] but a [StagehandError]. *)
Theorem google_structured_call_never_validates (c : GoogleClient)
  (date_now : Z) (options : ChatCompletionOptions) :
  (forall m response ps,
     response_model options = Some m ->
     generateContent c (googleContents c options) (generationConfig options)
     = Return response ->
     reply_parts response = Some ps ->
     snd (createChatCompletion c date_now options)
     = Return
         (Parsed
            (match parse (responseText ps) with
             | Some v => v
             | None => text_fallback (responseText ps)
             end)
            (usageData response)))
  /\ (forall e,
        snd (createChatCompletion c date_now options) = Throw e ->
        exn_name e = "StagehandError")
  /\ ~ is_SchemaValidationError (snd (createChatCompletion c date_now options)).
Proof.
  rewrite createChatCompletion_outcome.
  split; [| split].
  - intros m response ps Hm Hg Hps. rewrite Hg.
    now rewrite (complete_with_reply c date_now options response ps m).
  - intros e.
    destruct (generateContent c _ _) as [response|e0].
    + destruct (snd (complete c date_now options response)) as [r|e1].
      * discriminate.
      * intros H. injection H as <-. reflexivity.
    + intros H. injection H as <-. reflexivity.
  - intros (msg & H).
    destruct (generateContent c _ _) as [response|e0].
    + destruct (snd (complete c date_now options response)) as [r|e1];
        discriminate.
    + discriminate.
Qed.

End GoogleCompletionProperties.

Lemma google_structured_call_never_validates_witness :
  snd (Google.createChatCompletion (Google.replying "I could not find it") 0
         Google.metadata_request)
  = Return
      (Google.Parsed
         (JSON.JObject [ ("completed", JSON.JString "I could not find it");
                         ("progress", JSON.JNumber 1) ])
         {| LLM.prompt_tokens := 12; LLM.completion_tokens := 5;
            LLM.total_tokens := 17 |}).
Proof.
  destruct (google_structured_call_never_validates
              (Google.replying "I could not find it") 0
              Google.metadata_request) as (H & _ & _).
  exact (H _ _ _ eq_refl eq_refl eq_refl).
Defined.

(** C1, as the specification states it, fails: the reply [I could not find
    it] to a structured request is not JSON, and the call returns a
    successful result whose data the client made up. *)
Lemma google_unparseable_reply_is_returned :
  ~ Google.invalid_reply_surfaces_SchemaValidationError
      (Google.replying "I could not find it") 0 Google.metadata_request.
Proof.
  intros H.
  destruct (H _ _ _ eq_refl eq_refl eq_refl eq_refl) as (msg & Hmsg).
  discriminate Hmsg.
Qed.

(** ** Inference *)

Section InferenceProperties.
Import JSON LLM Inference.

Variable World : Type.
Variable sys : Sys World.
Variable prompts : Prompts.

Lemma get_set_member_same (k : string) (v : json) (o : list (string * json)) :
  get_member k (set_member k v o) = Some v.
Proof.
  induction o as [|[k' v'] o IH]; cbn.
  - now rewrite String.eqb_refl.
  - destruct (String.eqb k k') eqn:E; cbn; rewrite ?String.eqb_refl, ?E; auto.
Qed.

Lemma get_set_member_other (k k' : string) (v : json)
  (o : list (string * json)) :
  String.eqb k k' = false ->
  get_member k (set_member k' v o) = get_member k o.
Proof.
  intros Hne. induction o as [|[k0 v0] o IH]; cbn.
  - now rewrite Hne.
  - destruct (String.eqb k' k0) eqn:E; cbn.
    + apply String.eqb_eq in E. subst k0. now rewrite Hne.
    + destruct (String.eqb k k0); auto.
Qed.

(** Steps through the effects of a run: every reading of the clock, every
    file written and every model call is named in turn. *)
Ltac run_effects :=
  repeat
    (cbv beta iota zeta delta [bind ret now call write_file append_summary fst snd];
     match goal with
     | |- context [Date_now ?s ?w] =>
         let t := fresh "t" in let w' := fresh "w" in
         destruct (Date_now s w) as [t w']
     | |- context [writeTimestampedTxtFile ?s ?d ?p ?x ?w] =>
         let f := fresh "file" in let ts := fresh "stamp" in
         let w' := fresh "w" in
         destruct (writeTimestampedTxtFile s d p x w) as [[f ts] w']
     | |- context [createChatCompletion ?l ?T ?o ?w] =>
         let r := fresh "r" in let e := fresh "e" in let w' := fresh "w" in
         destruct (createChatCompletion l T o w) as [[r|e] w']
     end).

Lemma filter_model_calls_of_clock_or_call (tr : list Effect) :
  filter is_model_call (filter is_clock_or_call tr) = filter is_model_call tr.
Proof.
  induction tr as [|e tr IH]; [reflexivity|].
  destruct e; cbn; rewrite ?IH; reflexivity.
Qed.

(** The whole run of [extract]: the effects it adds to the trace, and its
    result when the three model calls return; when a call throws, the
    error goes to the caller and no further call is made. *)
Lemma extract_run (a : ExtractArgs World) (w : World) (tr : list Effect) :
  exists new,
    snd (snd (extract World sys prompts a (w, tr))) = (tr ++ new)%list
    /\ match fst (extract World sys prompts a (w, tr)) with
       | Return r =>
           exists t1 t2 t3 t4 t5 t6 r1 r2 r3,
             filter is_clock_or_call new
             = [ DateNow t1;
                 ModelCall ExtractionResponse
                   (call_options
                      [ buildExtractSystemPrompt prompts
                          (String.eqb (client_type (ex_llmClient World a))
                             "anthropic")
                          (ex_isUsingTextExtract World a)
                          (ex_userProvidedInstructions World a);
                        buildExtractUserPrompt prompts (ex_instruction World a)
                          (ex_domElements World a)
                          (String.eqb (client_type (ex_llmClient World a))
                             "anthropic") ]
                      {| schema := ex_schema World a; name := "Extraction" |}
                      (ex_requestId World a))
                   (Return r1);
                 DateNow t2;
                 DateNow t3;
                 ModelCall ExtractionResponse
                   (call_options
                      [ buildRefineSystemPrompt prompts;
                        buildRefineUserPrompt prompts (ex_instruction World a)
                          (ex_previouslyExtractedContent World a) (data r1) ]
                      {| schema := ex_schema World a;
                         name := "RefinedExtraction" |}
                      (ex_requestId World a))
                   (Return r2);
                 DateNow t4;
                 DateNow t5;
                 ModelCall MetadataResponse
                   (call_options
                      [ buildMetadataSystemPrompt prompts;
                        buildMetadataPrompt prompts (ex_instruction World a)
                          (data r2) (ex_chunksSeen World a)
                          (ex_chunksTotal World a) ]
                      {| name := "Metadata"; schema := metadataSchema |}
                      (ex_requestId World a))
                   (Return r3);
                 DateNow t6 ]
             /\ (exists o1 o2 o3,
                   model_calls new
                   = [ ModelCall ExtractionResponse o1 (Return r1);
                       ModelCall ExtractionResponse o2 (Return r2);
                       ModelCall MetadataResponse o3 (Return r3) ])
             /\ r = extract_result (data r2) (completed (data r3))
                      (progress (data r3))
                      (prompt_tokens_or_0 (usage r1)
                       + prompt_tokens_or_0 (usage r2)
                       + prompt_tokens_or_0 (usage r3))
                      (completion_tokens_or_0 (usage r1)
                       + completion_tokens_or_0 (usage r2)
                       + completion_tokens_or_0 (usage r3))
                      (t2 - t1 + (t4 - t3) + (t6 - t5))
       | Throw e =>
           exists returned T o,
             model_calls new = (returned ++ [ModelCall T o (Throw e)])%list
             /\ (List.length returned <= 2)%nat
       end.
Proof.
  unfold extract.
  destruct (ex_logInferenceToFile World a); run_effects.
  all: eexists; (split; [rewrite <- ?app_assoc; reflexivity |]).
  all: cbn [fst].
  all: try (do 9 eexists; split; [reflexivity | split; [| reflexivity]];
            do 3 eexists; reflexivity).
  all: unfold model_calls; cbn [app filter is_model_call].
  all: first
    [ exists []; do 2 eexists; split; [reflexivity | cbn; lia]
    | eexists [_]; do 2 eexists; split; [reflexivity | cbn; lia]
    | eexists [_; _]; do 2 eexists; split; [reflexivity | cbn; lia] ].
Qed.

(** C2, as the code has it: [extract] adds to the trace, in this order, the
    model calls named Extraction, RefinedExtraction and Metadata, each with
    a response model and each between two readings of the clock; when the
    three calls return, the result's [prompt_tokens] and
    [completion_tokens] are the sums of the three usages (a missing usage
    counting as 0) and its [inference_time_ms] is the sum of the three
    differences of readings; when a call throws, [extract] throws the same
    error and the calls after it are not made. *)
Theorem extract_sums_three_calls (a : ExtractArgs World) (w : World)
  (tr : list Effect) :
  exists new,
    snd (snd (extract World sys prompts a (w, tr))) = (tr ++ new)%list
    /\ match fst (extract World sys prompts a (w, tr)) with
       | Return r =>
           exists t1 t2 t3 t4 t5 t6 o1 o2 o3 r1 r2 r3,
             filter is_clock_or_call new
             = [ DateNow t1; ModelCall ExtractionResponse o1 (Return r1);
                 DateNow t2;
                 DateNow t3; ModelCall ExtractionResponse o2 (Return r2);
                 DateNow t4;
                 DateNow t5; ModelCall MetadataResponse o3 (Return r3);
                 DateNow t6 ]
             /\ model_calls new
                = [ ModelCall ExtractionResponse o1 (Return r1);
                    ModelCall ExtractionResponse o2 (Return r2);
                    ModelCall MetadataResponse o3 (Return r3) ]
             /\ option_map name (response_model o1) = Some "Extraction"
             /\ option_map name (response_model o2) = Some "RefinedExtraction"
             /\ option_map name (response_model o3) = Some "Metadata"
             /\ get_member "prompt_tokens" r
                = Some (JNumber (inject_Z (prompt_tokens_or_0 (usage r1)
                                           + prompt_tokens_or_0 (usage r2)
                                           + prompt_tokens_or_0 (usage r3))))
             /\ get_member "completion_tokens" r
                = Some (JNumber (inject_Z (completion_tokens_or_0 (usage r1)
                                           + completion_tokens_or_0 (usage r2)
                                           + completion_tokens_or_0 (usage r3))))
             /\ get_member "inference_time_ms" r
                = Some (JNumber (inject_Z (t2 - t1 + (t4 - t3) + (t6 - t5))))
       | Throw e =>
           exists returned T o,
             model_calls new = (returned ++ [ModelCall T o (Throw e)])%list
             /\ (List.length returned <= 2)%nat
       end.
Proof.
  destruct (extract_run a w tr) as (new & Hnew & H).
  exists new. split; [exact Hnew|].
  destruct (fst (extract World sys prompts a (w, tr))) as [r|e]; [| exact H].
  destruct H as (t1 & t2 & t3 & t4 & t5 & t6 & r1 & r2 & r3 & Hf & Hc & ->).
  unfold model_calls in *.
  rewrite <- (filter_model_calls_of_clock_or_call new), Hf in Hc |- *.
  exists t1, t2, t3, t4, t5, t6. do 3 eexists. exists r1, r2, r3.
  split; [reflexivity|].
  split; [reflexivity|].
  do 3 (split; [reflexivity|]).
  unfold extract_result.
  split; [| split].
  - rewrite get_set_member_other by reflexivity.
    rewrite get_set_member_other by reflexivity.
    apply get_set_member_same.
  - rewrite get_set_member_other by reflexivity.
    apply get_set_member_same.
  - apply get_set_member_same.
Qed.

Lemma conforms_metadataSchema (v : json) :
  conforms metadataSchema v = true
  <-> exists members p c,
        v = JObject members
        /\ get_member "progress" members = Some (JString p)
        /\ get_member "completed" members = Some (JBool c).
Proof.
  unfold metadataSchema. split.
  - destruct v as [| | | | |members]; try discriminate. cbn.
    destruct (get_member "progress" members) as [[| | |p| |]|] eqn:Hp;
      try discriminate.
    destruct (get_member "completed" members) as [[|c| | | |]|] eqn:Hc;
      try discriminate.
    intros _. now exists members, p, c.
  - intros (members & p & c & -> & Hp & Hc). cbn. now rewrite Hp, Hc.
Qed.


Lemma ResponseType_eq_dec (x y : ResponseType) : {x = y} + {x <> y}.
Proof. decide equality. Defined.

Lemma ModelCall_inj (T : ResponseType) (o o' : ChatCompletionOptions)
  (r r' : outcome (LLMParsedResponse (response_data T))) :
  ModelCall T o r = ModelCall T o' r' -> o = o' /\ r = r'.
Proof.
  intros H. injection H as Ho Hr. split; [exact Ho|].
  now apply (Eqdep_dec.inj_pair2_eq_dec _ ResponseType_eq_dec) in Hr.
Qed.

(** The whole run of [observe]. *)
Lemma observe_run (a : ObserveArgs World) (w : World) (tr : list Effect) :
  exists new t1 t2 res,
    snd (snd (observe World sys prompts a (w, tr))) = (tr ++ new)%list
    /\ filter is_clock_or_call new
       = ([ DateNow t1;
           ModelCall ObserveResponse
             (call_options
                [ buildObserveSystemPrompt prompts
                    (ob_userProvidedInstructions World a)
                    (ob_isUsingAccessibilityTree World a);
                  buildObserveUserMessage prompts (ob_instruction World a)
                    (ob_domElements World a)
                    (ob_isUsingAccessibilityTree World a) ]
                {| schema :=
                     observeSchema (ob_isUsingAccessibilityTree World a)
                       (ob_returnAction World a);
                   name := "Observation" |}
                (ob_requestId World a))
             res ]
          ++ match res with Return _ => [DateNow t2] | Throw _ => [] end)%list
    /\ fst (observe World sys prompts a (w, tr))
       = match res with
         | Return r =>
             Return
               {| ob_elements :=
                    match elements (data r) with
                    | Some els => map (parse_element (ob_returnAction World a)) els
                    | None => []
                    end;
                  ob_prompt_tokens := prompt_tokens_or_0 (usage r);
                  ob_completion_tokens := completion_tokens_or_0 (usage r);
                  ob_inference_time_ms := t2 - t1 |}
         | Throw e => Throw e
         end.
Proof.
  unfold observe.
  destruct (ob_logInferenceToFile World a); run_effects.
  all: match goal with
       | r : LLMParsedResponse _ |- _ => do 3 eexists; exists (Return r)
       | e : exn |- _ => do 3 eexists; exists (Throw e)
       end;
    (split; [rewrite <- ?app_assoc; reflexivity |]).
  all: cbn [filter is_clock_or_call app fst].
  all: split; reflexivity.
  Unshelve. all: exact 0.
Qed.

Lemma model_call_in_clock_or_call (x : Effect) (tr : list Effect) :
  In x tr -> is_model_call x = true -> In x (filter is_clock_or_call tr).
Proof.
  intros Hin Hx. apply filter_In. split; [exact Hin|].
  destruct x; try discriminate; reflexivity.
Qed.

(** C5: every invocation of [observe] adds exactly one model call to the
    trace, whatever that call's outcome, and it asks for the observation
    schema; when that call returned data whose [elements] are missing or
    empty, [observe] returns, with an empty list of elements. *)
Theorem observe_single_call_empty_is_success (a : ObserveArgs World)
  (w : World) (tr : list Effect) :
  (exists new o res,
     snd (snd (observe World sys prompts a (w, tr))) = (tr ++ new)%list
     /\ model_calls new = [ModelCall ObserveResponse o res]
     /\ response_model o
        = Some {| schema :=
                    observeSchema (ob_isUsingAccessibilityTree World a)
                      (ob_returnAction World a);
                  name := "Observation" |})
  /\ (forall new o r,
        snd (snd (observe World sys prompts a (w, tr))) = (tr ++ new)%list ->
        In (ModelCall ObserveResponse o (Return r)) new ->
        elements (data r) = None \/ elements (data r) = Some [] ->
        exists t,
          fst (observe World sys prompts a (w, tr))
          = Return {| ob_elements := [];
                      ob_prompt_tokens := prompt_tokens_or_0 (usage r);
                      ob_completion_tokens := completion_tokens_or_0 (usage r);
                      ob_inference_time_ms := t |}).
Proof.
  destruct (observe_run a w tr) as (new0 & t1 & t2 & res & Hnew & Hf & Hr).
  split.
  - exists new0. do 2 eexists. split; [exact Hnew|].
    split.
    + unfold model_calls.
      rewrite <- (filter_model_calls_of_clock_or_call new0), Hf.
      cbn. destruct res; reflexivity.
    + reflexivity.
  - intros new o r Hnew' Hin Hel.
    rewrite Hnew in Hnew'. apply app_inv_head in Hnew'. subst new0.
    apply model_call_in_clock_or_call in Hin; [| reflexivity].
    rewrite Hf in Hin. cbn in Hin.
    destruct Hin as [Hin | [Hin | Hin]]; [discriminate Hin | |].
    + apply ModelCall_inj in Hin. destruct Hin as [_ ->].
      exists (t2 - t1). rewrite Hr.
      destruct Hel as [-> | ->]; reflexivity.
    + destruct res; cbn in Hin; [destruct Hin as [Hin|[]]; discriminate Hin
                                | destruct Hin].
Qed.

(** The whole run of [actInference]. *)
Lemma actInference_run (a : ActArgs World) (w : World) (tr : list Effect) :
  exists new t1 t2 res,
    snd (snd (actInference World sys prompts a (w, tr))) = (tr ++ new)%list
    /\ filter is_clock_or_call new
       = ([ DateNow t1;
            ModelCall ActResponse
              (call_options
                 [ buildActSystemPrompt prompts
                     (act_userProvidedInstructions World a);
                   buildActUserMessage prompts (act_instruction World a)
                     (act_hybridTree World a) ]
                 {| schema := actSchema; name := "Action" |}
                 (act_requestId World a))
              res ]
          ++ match res with Return _ => [DateNow t2] | Throw _ => [] end)%list
    /\ fst (actInference World sys prompts a (w, tr))
       = match res with
         | Return r =>
             Return
               {| targetElement := element (data r);
                  act_prompt_tokens := prompt_tokens_or_0 (usage r);
                  act_completion_tokens := completion_tokens_or_0 (usage r);
                  act_inference_time_ms := t2 - t1 |}
         | Throw e => Throw e
         end.
Proof.
  unfold actInference.
  destruct (act_logInferenceToFile World a); run_effects.
  all: match goal with
       | r : LLMParsedResponse _ |- _ => do 3 eexists; exists (Return r)
       | e : exn |- _ => do 3 eexists; exists (Throw e)
       end;
    (split; [rewrite <- ?app_assoc; reflexivity |]).
  all: cbn [filter is_clock_or_call app fst].
  all: split; [reflexivity |].
  all: try reflexivity.
  all: match goal with
       | r : LLMParsedResponse _ |- _ =>
           destruct r as [[[i d m args]] u]; reflexivity
       end.
  Unshelve. all: exact 0.
Qed.

Lemma conforms_actSchema (v : json) :
  conforms actSchema v = true ->
  exists members fields n d m args,
    v = JObject members
    /\ get_member "element" members = Some (JObject fields)
    /\ get_member "elementId" fields = Some (JNumber n)
    /\ get_member "description" fields = Some (JString d)
    /\ get_member "method" fields = Some (JString m)
    /\ get_member "arguments" fields = Some (JArray args)
    /\ (forall x, In x args -> exists s, x = JString s).
Proof.
  unfold actSchema.
  destruct v as [| | | | |members]; try discriminate. cbn.
  destruct (get_member "element" members) as [[| | | | |fields]|] eqn:He;
    try discriminate.
  cbn.
  destruct (get_member "elementId" fields) as [[| |n| | |]|] eqn:Hi;
    try discriminate.
  destruct (get_member "description" fields) as [[| | |d| |]|] eqn:Hd;
    try discriminate.
  destruct (get_member "method" fields) as [[| | |m| |]|] eqn:Hm;
    try discriminate.
  destruct (get_member "arguments" fields) as [[| | | |args|]|] eqn:Ha;
    try discriminate.
  cbn. intros H. exists members, fields, n, d, m, args.
  repeat (split; [reflexivity || assumption|]).
  rewrite !Bool.andb_true_r in H.
  intros x Hx. rewrite forallb_forall in H. specialize (H x Hx).
  destruct x; try discriminate. eauto.
Qed.


End InferenceProperties.

(** C2, as the specification states it, fails: with a provider that throws
    on the first call, one invocation of [extract] issues one model call. *)
Lemma extract_failing_provider_one_call :
  ~ Inference.issues_three_calls Demo.sys Demo.prompts
      (Demo.extract_args Demo.failing) 0.
Proof.
  intros (c1 & c2 & c3 & H). vm_compute in H. discriminate H.
Qed.


Lemma observe_single_call_empty_is_success_witness :
  exists t,
    fst (Inference.observe _ Demo.sys Demo.prompts
           (Demo.observe_args Demo.answering) (0, []))
    = Return {| Inference.ob_elements := [];
                Inference.ob_prompt_tokens := 50;
                Inference.ob_completion_tokens := 5;
                Inference.ob_inference_time_ms := t |}.
Proof.
  pose proof (proj2 (observe_single_call_empty_is_success _ Demo.sys
                       Demo.prompts (Demo.observe_args Demo.answering) 0 []))
    as H.
  edestruct H as [t Ht].
  - reflexivity.
  - cbn. right. left. reflexivity.
  - right. reflexivity.
  - exists t. exact Ht.
Defined.


(** ** [fillInVariables] *)

Section FillInVariablesProperties.
Import Inference.

Lemma find_first_eq (p s : string) :
  find_first p s
  = if String.prefix p s then Some ("", drop (String.length p) s)
    else
      match s with
      | EmptyString => None
      | String c r =>
          match find_first p r with
          | Some (before, after) => Some (String c before, after)
          | None => None
          end
      end.
Proof. destruct s; reflexivity. Qed.

(** [find_first] finds an occurrence, and no occurrence starts before it. *)
Lemma find_first_some (p s before after : string) :
  find_first p s = Some (before, after) ->
  s = before ++ p ++ after
  /\ forall b a, s = b ++ p ++ a ->
       (String.length before <= String.length b)%nat.
Proof.
  revert before after. induction s as [|c s IH]; intros before after;
    rewrite find_first_eq;
    destruct (String.prefix p _) eqn:P.
  - intros H. injection H as <- <-. split.
    + now apply prefix_split in P.
    + intros; cbn; lia.
  - discriminate.
  - intros H. injection H as <- <-. split.
    + now apply prefix_split in P.
    + intros; cbn; lia.
  - destruct (find_first p s) as [[b0 a0]|] eqn:F; [| discriminate].
    intros H. injection H as <- <-.
    destruct (IH b0 a0 eq_refl) as [Hs Hmin]. split.
    + cbn. now rewrite <- Hs.
    + intros b a Hb. destruct b as [|d b].
      * cbn in Hb. rewrite Hb, prefix_app in P. discriminate.
      * cbn in Hb. injection Hb as _ Hb. cbn.
        specialize (Hmin b a Hb). lia.
Qed.

Lemma find_first_none (p s : string) :
  find_first p s = None -> forall b a, s <> b ++ p ++ a.
Proof.
  induction s as [|c s IH]; rewrite find_first_eq;
    destruct (String.prefix p _) eqn:P; try discriminate.
  - intros _ b a H. destruct b; [| discriminate].
    cbn in H. rewrite H, prefix_app in P. discriminate.
  - destruct (find_first p s) as [[b0 a0]|] eqn:F; [discriminate|].
    intros _ b a H. destruct b as [|d b].
    + cbn in H. rewrite H, prefix_app in P. discriminate.
    + cbn in H. injection H as _ H. now apply (IH eq_refl b a).
Qed.

Lemma GetSubstitution_dollar_free (matched preceding following v : string) :
  dollar_free v = true ->
  GetSubstitution matched preceding following v = v.
Proof.
  induction v as [|c v IH]; cbn; [reflexivity|].
  destruct (Ascii.eqb c "$"); [discriminate|].
  cbn. intros H. now rewrite IH.
Qed.

Lemma string_app_eq_length (a b x y : string) :
  a ++ x = b ++ y -> String.length a = String.length b -> a = b /\ x = y.
Proof.
  revert b. induction a as [|c a IH]; intros b H Hlen.
  - destruct b; [now split | discriminate].
  - destruct b as [|d b]; [discriminate|].
    cbn in H, Hlen. injection H as -> H. injection Hlen as Hlen.
    destruct (IH b H Hlen) as [-> ->]. now split.
Qed.

(** One step of [fillInVariables] with a value that has no dollar sign: the
    first occurrence of the placeholder, and only that one, gives way to
    the value; a text without the placeholder is left as it is. *)
Lemma fillInVariables_one_key (text key value : string) :
  dollar_free value = true ->
  (forall before after,
     text = before ++ placeholder key ++ after ->
     (forall b a, text = b ++ placeholder key ++ a ->
        (String.length before <= String.length b)%nat) ->
     fillInVariables text [(key, value)] = before ++ value ++ after)
  /\ ((forall b a, text <> b ++ placeholder key ++ a) ->
      fillInVariables text [(key, value)] = text).
Proof.
  intros Hv. unfold fillInVariables. cbn [fold_left]. unfold replace. split.
  - intros before after Ht Hmin.
    destruct (find_first (placeholder key) text) as [[b0 a0]|] eqn:F.
    + destruct (find_first_some _ _ _ _ F) as [Hs Hmin0].
      rewrite GetSubstitution_dollar_free by exact Hv.
      assert (Hlen : String.length b0 = String.length before).
      { specialize (Hmin b0 a0 Hs). specialize (Hmin0 before after Ht). lia. }
      assert (Hb : b0 = before /\ a0 = after).
      { rewrite Hs in Ht.
        destruct (string_app_eq_length _ _ _ _ Ht Hlen) as [Hb Ha].
        split; [exact Hb|].
        destruct (string_app_eq_length _ _ _ _ Ha eq_refl) as [_ Ha'].
        exact Ha'. }
      destruct Hb as [-> ->]. reflexivity.
    + exfalso. exact (find_first_none _ _ F before after Ht).
  - intros Hnone.
    destruct (find_first (placeholder key) text) as [[b0 a0]|] eqn:F;
      [| reflexivity].
    destruct (find_first_some _ _ _ _ F) as [Hs _].
    exfalso. exact (Hnone b0 a0 Hs).
Qed.

End FillInVariablesProperties.

Example fillInVariables_first_occurrence :
  Inference.fillInVariables "pay <|PRICE|> now, <|PRICE|> later"
    [("price", "5 EUR")]
  = "pay 5 EUR now, <|PRICE|> later".
Proof. reflexivity. Qed.

Example fillInVariables_matched_text :
  Inference.fillInVariables "x <|A|> y" [("a", "[$&]")] = "x [<|A|>] y".
Proof. reflexivity. Qed.

(** C9, at a value that holds a dollar sign: [String.prototype.replace]
    reads [$$] in the replacement as one dollar sign, so the text that
    takes the place of the placeholder is not the value. *)
Lemma fillInVariables_dollar_value :
  Inference.fillInVariables "pay <|PRICE|> now" [("price", "$$5")]
  = "pay $5 now"
  /\ Inference.fillInVariables "pay <|PRICE|> now" [("price", "$$5")]
     <> "pay $$5 now".
Proof.
  split; [reflexivity | discriminate].
Qed.


Lemma prepareGoogleContent_merges_runs_witness :
  let say := fun r t => {| Google.role := r; Google.parts := [Google.Text t] |} in
  Google.prepareGoogleContent
    [say "user" "hello"; say "user" "are you there?"; say "model" "yes";
     say "model" "go on"; say "user" "thanks"]
    (Some "be brief")
  = [ {| Google.role := "user";
         Google.parts :=
           [ Google.Text
               ("be brief" ++ String Google.newline (String Google.newline ""));
             Google.Text "hello"; Google.Text "are you there?" ] |};
      {| Google.role := "model";
         Google.parts := [Google.Text "yes"; Google.Text "go on"] |};
      say "user" "thanks" ].
Proof.
  intros say.
  destruct (prepareGoogleContent_merges_runs
              [say "user" "hello"; say "user" "are you there?";
               say "model" "yes"; say "model" "go on"; say "user" "thanks"]
              (Some "be brief")) as (_ & _ & H & _).
  exact (H "be brief" _ _ eq_refl eq_refl eq_refl).
Defined.

(** * Further properties *)

(** ** Log forwarding *)

Section LogTraceProperties.
Import Logs LogTrace.

Lemma continue_cycle_fields (others : list Cycle) (items : list PendingLog)
  (s : State) :
  externalLogger (continue_cycle others items s) = externalLogger s
  /\ delivered (continue_cycle others items s) = delivered s
  /\ pending_logs_to_send_to_browserbase (continue_cycle others items s)
     = pending_logs_to_send_to_browserbase s
  /\ next_uuid (continue_cycle others items s) = next_uuid s
  /\ verbose (continue_cycle others items s) = verbose s
  /\ stagehandPage (continue_cycle others items s) = stagehandPage s
  /\ stagehandContext (continue_cycle others items s) = stagehandContext s.
Proof.
  unfold continue_cycle. destruct items as [|p rest]; [now repeat split|].
  destruct (start_log_to_browserbase s p); now repeat split.
Qed.

Lemma step_externalLogger (s : State) (e : Event) :
  externalLogger (step s e) = (externalLogger s ++ logged [e])%list.
Proof.
  destruct e as [l | i ok | |]; cbn [step logged flat_map].
  - unfold log, _run_browserbase_log_processing_cycle. cbn.
    destruct (is_processing_browserbase_logs s); cbn; [reflexivity|].
    now rewrite (proj1 (continue_cycle_fields _ _ _)).
  - rewrite app_nil_r. unfold resume.
    destruct (nth_error (cycles s) i) as [c|]; [| reflexivity].
    rewrite (proj1 (continue_cycle_fields _ _ _)).
    destruct (awaiting c); [reflexivity|]. now destruct ok.
  - now rewrite app_nil_r.
  - now rewrite app_nil_r.
Qed.

(** X1: the external logger receives every record handed to [log], in the
    order of the calls, with a missing level set to 1, whether or not a
    drain cycle is running and whether or not the record is ever forwarded
    to the page. *)
Theorem externalLogger_receives_every_log (v : Z) (events : list Event) :
  externalLogger (run events (initial v)) = logged events.
Proof.
  change (logged events) with (externalLogger (initial v) ++ logged events)%list.
  generalize (initial v) as s.
  induction events as [|e events IH]; intros s.
  - cbn. now rewrite app_nil_r.
  - cbn [run fold_left]. fold (run events (step s e)).
    rewrite IH, step_externalLogger.
    rewrite <- app_assoc. unfold logged. cbn [flat_map].
    now rewrite app_nil_r.
Qed.

Lemma start_log_to_browserbase_evaluate (s : State) (p q : PendingLog) :
  start_log_to_browserbase s p = Some (AwaitEvaluate q) ->
  q = p /\ level_of (line p) <= verbose s
  /\ stagehandPage s = true /\ stagehandContext s = true.
Proof.
  unfold start_log_to_browserbase.
  destruct (stagehandPage s); cbn; [| discriminate].
  destruct (level_of (line p) <=? verbose s) eqn:L; [| discriminate].
  destruct (stagehandContext s); [| discriminate].
  intros H. injection H as <-. apply Z.leb_le in L. now repeat split.
Qed.

(** The cycles after [continue_cycle]: the others, and at most one more,
    which holds the items or all of them but the first. *)
Lemma continue_cycle_cycles (others : list Cycle) (items : list PendingLog)
  (s : State) (c : Cycle) :
  In c (cycles (continue_cycle others items s)) ->
  In c others
  \/ ((cycle_entries c = items \/ exists p, items = p :: cycle_entries c)
      /\ forall q, awaiting c = AwaitEvaluate q ->
           level_of (line q) <= verbose s
           /\ stagehandPage s = true /\ stagehandContext s = true).
Proof.
  unfold continue_cycle. destruct items as [|p rest]; cbn; [now left|].
  destruct (start_log_to_browserbase s p) as [a|] eqn:S; cbn; [| now left].
  intros [<- | H]; [| now left]. right. unfold cycle_entries. cbn.
  destruct a as [|q].
  - split; [right; now exists p | discriminate].
  - destruct (start_log_to_browserbase_evaluate _ _ _ S) as (-> & H).
    split; [now left|]. intros q' Hq. now injection Hq as <-.
Qed.

Lemma In_remove_nth {A : Type} (n : nat) (l : list A) (x : A) :
  In x (remove_nth n l) -> In x l.
Proof.
  revert n. induction l as [|y l IH]; intros n; cbn; [now destruct n|].
  destruct n; cbn; [now right|]. intros [H|H]; [now left | right; eauto].
Qed.

Lemma gated_step (s : State) (e : Event) : gated s -> gated (step s e).
Proof.
  intros [Hc Hd]. destruct e as [l | i ok | |]; cbn [step].
  - unfold log, _run_browserbase_log_processing_cycle. cbn.
    destruct (is_processing_browserbase_logs s); cbn; [split; assumption|].
    match goal with |- gated (continue_cycle ?o ?i ?s1) =>
      pose proof (continue_cycle_fields o i s1) as (_ & F2 & _ & _ & F5 & F6 & F7);
      pose proof (continue_cycle_cycles o i s1) as Hcc
    end.
    split.
    + intros c p Hin Ha. rewrite F5, F6, F7. cbn.
      destruct (Hcc c Hin) as [Ho | [_ Hq]]; [exact (Hc c p Ho Ha)|].
      exact (Hq p Ha).
    + intros p. rewrite F2, F5, F6, F7. cbn. apply Hd.
  - unfold resume. destruct (nth_error (cycles s) i) as [c|] eqn:N;
      [| split; assumption].
    apply nth_error_In in N.
    set (s1 := match awaiting c with
               | AwaitEvaluate p => if ok then evaluate_resolved p s else s
               | AwaitReturned => s
               end).
    assert (Hs1 : gated s1 /\ cycles s1 = cycles s).
    { assert (Hg : gated s) by (split; assumption).
      unfold s1. destruct (awaiting c) as [|p] eqn:A; [now split|].
      destruct ok; [| now split]. split; [| reflexivity]. split.
      - exact Hc.
      - intros q Hq. cbn in Hq |- *. apply in_app_or in Hq.
        destruct Hq as [Hq | [<- | []]]; [now apply Hd | exact (Hc c p N A)]. }
    destruct Hs1 as [[Hc1 Hd1] Hcy].
    pose proof (continue_cycle_fields (remove_nth i (cycles s1)) (remaining c) s1)
      as (_ & F2 & _ & _ & F5 & F6 & F7).
    split.
    + intros c' p Hin Ha. rewrite F5, F6, F7.
      destruct (continue_cycle_cycles _ _ _ _ Hin) as [Ho | [_ Hq]].
      * apply In_remove_nth in Ho. exact (Hc1 c' p Ho Ha).
      * exact (Hq p Ha).
    + intros p. rewrite F2, F5, F6, F7. apply Hd1.
  - split; cbn.
    + intros c p Hin Ha. destruct (Hc c p Hin Ha) as (H1 & H2 & H3). auto.
    + intros p Hin. destruct (Hd p Hin) as (H1 & H2 & H3). auto.
  - split; cbn.
    + intros c p Hin Ha. destruct (Hc c p Hin Ha) as (H1 & H2 & H3). auto.
    + intros p Hin. destruct (Hd p Hin) as (H1 & H2 & H3). auto.
Qed.

Lemma step_verbose (s : State) (e : Event) : verbose (step s e) = verbose s.
Proof.
  destruct e as [l | i ok | |]; cbn [step]; try reflexivity.
  - unfold log, _run_browserbase_log_processing_cycle. cbn.
    destruct (is_processing_browserbase_logs s); [reflexivity|].
    now rewrite (proj1 (proj2 (proj2 (proj2 (proj2 (continue_cycle_fields _ _ _)))))).
  - unfold resume. destruct (nth_error (cycles s) i) as [c|]; [| reflexivity].
    rewrite (proj1 (proj2 (proj2 (proj2 (proj2 (continue_cycle_fields _ _ _)))))).
    destruct (awaiting c); [reflexivity|]. now destruct ok.
Qed.

(** X2: a record reaches the page console only through the two tests of
    [_log_to_browserbase]: whatever has been delivered has a level within
    [verbose], and nothing is delivered before the page and its context
    are there. *)
Theorem delivered_only_within_verbose (v : Z) (events : list Event) :
  let s := run events (initial v) in
  verbose s = v
  /\ (forall p, In p (delivered s) -> level_of (line p) <= v)
  /\ (delivered s <> [] ->
      stagehandPage s = true /\ stagehandContext s = true).
Proof.
  assert (H : forall s, gated s ->
            gated (run events s) /\ verbose (run events s) = verbose s).
  { induction events as [|e events IH]; intros s Hs; [now split|].
    cbn [run fold_left]. fold (run events (step s e)).
    destruct (IH (step s e) (gated_step s e Hs)) as [H1 H2].
    split; [exact H1|]. now rewrite H2, step_verbose. }
  intros s. destruct (H (initial v)) as [[_ Hd] Hv].
  { split; [intros c p [] | intros p []]. }
  fold s in Hd, Hv. cbn in Hv. split; [exact Hv|]. split.
  - intros p Hp. rewrite <- Hv. now apply Hd.
  - intros Hne. destruct (delivered s) as [|p l] eqn:E; [now elim Hne|].
    apply (Hd p). now left.
Qed.

Lemma fresh_ids_tail (n : nat) (avoid l : list PendingLog) (p : PendingLog) :
  fresh_ids n avoid (p :: l) -> fresh_ids n avoid l.
Proof.
  intros [Hn Hp]. split.
  - cbn in Hn. now inversion Hn.
  - intros q Hq. apply Hp. now right.
Qed.

Lemma NoDup_map_filter (f : PendingLog -> bool) (l : list PendingLog) :
  NoDup (map id l) -> NoDup (map id (filter f l)).
Proof.
  induction l as [|p l IH]; cbn; [auto|].
  intros H. inversion H as [|x xs Hx Hxs]; subst.
  destruct (f p); cbn; [| auto]. constructor; [| auto].
  intros Hin. apply Hx. apply in_map_iff in Hin.
  destruct Hin as (q & Hq & Hin). apply filter_In in Hin.
  apply in_map_iff. exists q. tauto.
Qed.

(** A cycle that [continue_cycle] leaves suspended over fresh items holds
    fresh entries. *)
Lemma continue_cycle_fresh (items : list PendingLog) (s : State) (c : Cycle) :
  fresh_ids (next_uuid s) (delivered s) items ->
  In c (cycles (continue_cycle [] items s)) ->
  fresh_ids (next_uuid s) (delivered s) (cycle_entries c).
Proof.
  intros Hf Hin. apply continue_cycle_cycles in Hin.
  destruct Hin as [[] | [[-> | (p & ->)] _]]; [exact Hf|].
  now apply fresh_ids_tail in Hf.
Qed.

Lemma delivered_once_step (s : State) (e : Event) :
  delivered_once s -> delivered_once (step s e).
Proof.
  intros (H1 & Hp & Hd & Hc).
  assert (H1' : one_cycle (step s e)) by now apply step_one_cycle.
  split; [exact H1'|]. clear H1'.
  destruct e as [l | i ok | |]; cbn [step];
    [| | exact (conj Hp (conj Hd Hc)) ..].
  - (* log *)
    set (q := {| id := next_uuid s; line := with_level l |}).
    assert (Hp' : fresh_ids (S (next_uuid s)) (delivered s)
                    (pending_logs_to_send_to_browserbase s ++ [q])).
    { destruct Hp as [Hn Hl]. destruct Hd as [_ Hdl]. split.
      - rewrite map_app. cbn. apply NoDup_app_remove_l with (l := []).
        cbn. apply NoDup_app; [exact Hn | repeat constructor; intros [] |].
        intros x Hx [<- | []]. apply in_map_iff in Hx.
        destruct Hx as (p & Hid & Hin). apply Hl in Hin. cbn in Hid. lia.
      - intros p Hin. apply in_app_or in Hin.
        destruct Hin as [Hin | [<- | []]].
        + destruct (Hl p Hin). split; [lia | assumption].
        + cbn. split; [lia|]. intros Hx. apply in_map_iff in Hx.
          destruct Hx as (p & Hid & Hin). apply Hdl in Hin. lia. }
    assert (Hd' : fresh_ids (S (next_uuid s)) [] (delivered s)).
    { destruct Hd as [Hn Hl]. split; [exact Hn|].
      intros p Hin. destruct (Hl p Hin). split; [lia | assumption]. }
    unfold log, _run_browserbase_log_processing_cycle. cbn. fold q.
    destruct (is_processing_browserbase_logs s) eqn:F; cbn.
    + split; [exact Hp' | split; [exact Hd'|]].
      intros c Hin. destruct (Hc c Hin) as [Hn Hl]. split; [exact Hn|].
      intros p Hp0. destruct (Hl p Hp0). split; [lia | assumption].
    + assert (Hnil : cycles s = []).
      { destruct H1 as [_ Hflag]. destruct (cycles s); [reflexivity|].
        rewrite Hflag in F; discriminate. }
      rewrite Hnil.
      match goal with |- context [continue_cycle [] ?i ?s1] =>
        pose proof (continue_cycle_fields [] i s1) as (_ & F2 & F3 & F4 & _);
        pose proof (fun c => continue_cycle_fresh i s1 c Hp') as Hcc
      end.
      rewrite F2, F3, F4. cbn.
      split; [exact Hp' | split; [exact Hd'|]].
      intros c Hin. specialize (Hcc c Hin). exact Hcc.
  - (* resume *)
    unfold resume. destruct (nth_error (cycles s) i) as [c|] eqn:N;
      [| exact (conj Hp (conj Hd Hc))].
    assert (Hcs : cycles s = [c] /\ i = 0%nat).
    { destruct H1 as [Hlen _].
      destruct (cycles s) as [|c0 [|c1 cs]]; cbn in Hlen; try lia.
      - destruct i; discriminate.
      - destruct i as [|i]; [injection N as ->; auto|].
        destruct i; discriminate. }
    destruct Hcs as [Hcs ->].
    assert (Hce : fresh_ids (next_uuid s) (delivered s) (cycle_entries c)).
    { apply Hc. rewrite Hcs. now left. }
    set (s1 := match awaiting c with
               | AwaitEvaluate p => if ok then evaluate_resolved p s else s
               | AwaitReturned => s
               end).
    assert (Hs1 : cycles s1 = [c]
                  /\ fresh_ids (next_uuid s1) (delivered s1)
                       (pending_logs_to_send_to_browserbase s1)
                  /\ fresh_ids (next_uuid s1) [] (delivered s1)
                  /\ fresh_ids (next_uuid s1) (delivered s1) (remaining c)).
    { unfold s1, cycle_entries in *. destruct (awaiting c) as [|p].
      - exact (conj Hcs (conj Hp (conj Hd Hce))).
      - destruct ok; [| split; [exact Hcs | split; [exact Hp | split;
                                  [exact Hd | now apply fresh_ids_tail in Hce]]]].
        cbn. split; [exact Hcs|].
        destruct Hp as [Hpn Hpl]. destruct Hd as [Hdn Hdl].
        destruct Hce as [Hen Hel]. cbn in Hen. inversion Hen as [|x xs Hx Hxs].
        subst x xs. destruct (Hel p (or_introl eq_refl)) as [Hlt Hnd].
        split; [| split].
        + split; [now apply NoDup_map_filter|].
          intros q Hq. apply filter_In in Hq. destruct Hq as [Hq Hne].
          destruct (Hpl q Hq) as [Hq1 Hq2]. split; [exact Hq1|].
          rewrite map_app, in_app_iff. cbn. intros [Hin | [Heq | []]]; [tauto|].
          apply Bool.negb_true_iff, Nat.eqb_neq in Hne. congruence.
        + split.
          * rewrite map_app. cbn. apply NoDup_app; [exact Hdn | | ].
            -- repeat constructor. intros [].
            -- intros x Hin [<- | []]. exact (Hnd Hin).
          * intros q Hq. apply in_app_or in Hq. cbn.
            destruct Hq as [Hq | [<- | []]]; [| tauto].
            destruct (Hdl q Hq). tauto.
        + split; [exact Hxs|].
          intros q Hq. destruct (Hel q (or_intror Hq)) as [Hq1 Hq2].
          split; [exact Hq1|].
          rewrite map_app, in_app_iff. cbn. intros [Hin | [Heq | []]]; [tauto|].
          apply Hx. rewrite Heq. now apply in_map. }
    destruct Hs1 as (Hcy1 & Hp1 & Hd1 & Hr1).
    rewrite Hcy1. cbn [remove_nth].
    pose proof (continue_cycle_fields [] (remaining c) s1)
      as (_ & F2 & F3 & F4 & _).
    rewrite F2, F3, F4.
    split; [exact Hp1 | split; [exact Hd1|]].
    intros c' Hin. exact (continue_cycle_fresh _ _ _ Hr1 Hin).
Qed.

(** X3: no record is forwarded to the page console twice: the entries
    delivered over a whole run have pairwise different identifiers, each of
    them was handed to [log] before, and none of them is still queued. *)
Theorem no_record_delivered_twice (v : Z) (events : list Event) :
  let s := run events (initial v) in
  NoDup (map id (delivered s))
  /\ (forall p, In p (delivered s) ->
        (id p < next_uuid s)%nat
        /\ ~ In (id p) (map id (pending_logs_to_send_to_browserbase s))).
Proof.
  assert (H : forall s, delivered_once s -> delivered_once (run events s)).
  { induction events as [|e events IH]; intros s Hs; [exact Hs|].
    cbn [run fold_left]. apply IH. now apply delivered_once_step. }
  intros s. destruct (H (initial v)) as (_ & [_ Hp] & [Hn Hd] & _).
  { split; [apply initial_invariants|].
    split; [| split];
      [ split; [constructor | intros p []]
      | split; [constructor | intros p []]
      | intros c [] ]. }
  fold s in Hp, Hn, Hd. split; [exact Hn|].
  intros p Hin. split; [apply (Hd p Hin)|].
  intros Hq. apply in_map_iff in Hq. destruct Hq as (q & Hid & Hq).
  destruct (Hp q Hq) as [_ Hnot]. apply Hnot. rewrite Hid. now apply in_map.
Qed.

(** X4: a cycle that ends on an exception (the getter [this.page] throws
    for a page without a context) leaves the flag set with no cycle
    running; from then on no call of [log] starts a cycle and nothing is
    ever forwarded again, whatever happens. *)
Theorem dead_cycle_blocks_forwarding (s : State) (events : list Event) :
  is_processing_browserbase_logs s = true ->
  cycles s = [] ->
  is_processing_browserbase_logs (run events s) = true
  /\ cycles (run events s) = []
  /\ delivered (run events s) = delivered s.
Proof.
  revert s. induction events as [|e events IH]; intros s Hf Hc; [now repeat split|].
  cbn [run fold_left]. fold (run events (step s e)).
  assert (Hs : is_processing_browserbase_logs (step s e) = true
               /\ cycles (step s e) = []
               /\ delivered (step s e) = delivered s).
  { destruct e as [l | i ok | |]; cbn [step].
    - unfold log, _run_browserbase_log_processing_cycle. cbn. rewrite Hf.
      cbn. now repeat split.
    - unfold resume. rewrite Hc. destruct i; cbn; now repeat split.
    - cbn. now repeat split.
    - cbn. now repeat split. }
  destruct Hs as (Hf' & Hc' & Hd').
  destruct (IH _ Hf' Hc') as (H1 & H2 & H3).
  repeat split; congruence.
Qed.

End LogTraceProperties.

Lemma dead_cycle_blocks_forwarding_witness :
  let a := {| Logs.category := None; Logs.message := "first";
              Logs.level := None |} in
  let b := {| Logs.category := None; Logs.message := "second";
              Logs.level := None |} in
  let s := Logs.run [Logs.SetActivePage; Logs.CallLog a] (Logs.initial 1) in
  Logs.delivered
    (Logs.run [Logs.Init; Logs.CallLog b; Logs.Resume 0 true] s) = []
  /\ Logs.cycles
       (Logs.run [Logs.Init; Logs.CallLog b; Logs.Resume 0 true] s) = [].
Proof.
  intros a b s.
  destruct (dead_cycle_blocks_forwarding s
              [Logs.Init; Logs.CallLog b; Logs.Resume 0 true]
              eq_refl eq_refl) as (_ & Hc & Hd).
  split; [exact Hd | exact Hc].
Defined.

(** ** Metrics *)

Section MetricsLogProperties.
Import Metrics MetricsLog.

Lemma apply_update_totals (m : StagehandMetrics) (u : Update) :
  totalCounters m
  = add3 (kindCounters ACT m)
      (add3 (kindCounters EXTRACT m) (kindCounters OBSERVE m)) ->
  totalCounters (apply_update m u)
  = add3 (kindCounters ACT (apply_update m u))
      (add3 (kindCounters EXTRACT (apply_update m u))
         (kindCounters OBSERVE (apply_update m u))).
Proof.
  unfold apply_update, totalCounters, add3.
  destruct (functionName u); cbn; intros H; injection H as H1 H2 H3.
  all: apply f_equal2; [apply f_equal2 |]; lia.
Qed.


Lemma apply_update_comm (m : StagehandMetrics) (u v : Update) :
  apply_update (apply_update m u) v = apply_update (apply_update m v) u.
Proof.
  unfold apply_update, updateMetrics, updateTotalMetrics, updateKindMetrics.
  destruct (functionName u), (functionName v); cbn; f_equal; lia.
Qed.


End MetricsLogProperties.


(** ** [fillInVariables] *)

Section FillInVariablesMore.
Import Inference.

Lemma replace_without_occurrence (text p v : string) :
  (forall b a, text <> b ++ p ++ a) -> replace text p v = text.
Proof.
  intros H. unfold replace.
  destruct (find_first p text) as [[b a]|] eqn:F; [| reflexivity].
  destruct (find_first_some _ _ _ _ F) as [Hs _]. now elim (H b a).
Qed.


Lemma toUpperCase_char_idempotent (c : ascii) :
  toUpperCase_char (toUpperCase_char c) = toUpperCase_char c.
Proof. destruct c as [[] [] [] [] [] [] [] []]; reflexivity. Qed.

Lemma toUpperCase_idempotent (s : string) :
  toUpperCase (toUpperCase s) = toUpperCase s.
Proof.
  induction s as [|c s IH]; cbn; [reflexivity|].
  now rewrite toUpperCase_char_idempotent, IH.
Qed.


End FillInVariablesMore.



(** ** Inference *)

Section InferenceLogProperties.
Import JSON LLM Inference InferenceLog.

Variable World : Type.
Variable sys : Sys World.
Variable prompts : Prompts.

Ltac step_effects :=
  repeat
    (cbv beta iota zeta delta
       [bind ret now call write_file append_summary fst snd];
     match goal with
     | |- context [Date_now ?s ?w] =>
         let t := fresh "t" in let w' := fresh "w" in
         destruct (Date_now s w) as [t w']
     | |- context [writeTimestampedTxtFile ?s ?d ?p ?x ?w] =>
         let f := fresh "file" in let ts := fresh "stamp" in
         let w' := fresh "w" in
         destruct (writeTimestampedTxtFile s d p x w) as [[f ts] w']
     | |- context [createChatCompletion ?l ?T ?o ?w] =>
         let r := fresh "r" in let e := fresh "e" in let w' := fresh "w" in
         destruct (createChatCompletion l T o w) as [[r|e] w']
     end).

(** X9: with [logInferenceToFile] off, none of the three inference
    functions writes a file or appends to a summary: the effects of a run
    are readings of the clock and model calls only. *)
Theorem no_inference_log_unless_asked :
  (forall (a : ExtractArgs World) w tr,
     ex_logInferenceToFile World a = false ->
     exists new,
       snd (snd (extract World sys prompts a (w, tr))) = (tr ++ new)%list
       /\ files new = [] /\ summaries new = [])
  /\ (forall (a : ObserveArgs World) w tr,
        ob_logInferenceToFile World a = false ->
        exists new,
          snd (snd (observe World sys prompts a (w, tr))) = (tr ++ new)%list
          /\ files new = [] /\ summaries new = [])
  /\ (forall (a : ActArgs World) w tr,
        act_logInferenceToFile World a = false ->
        exists new,
          snd (snd (actInference World sys prompts a (w, tr)))
          = (tr ++ new)%list
          /\ files new = [] /\ summaries new = []).
Proof.
  split; [| split]; intros a w tr Hlog.
  - unfold extract. rewrite Hlog. step_effects.
    all: eexists; (split; [rewrite <- ?app_assoc; reflexivity |]).
    all: split; reflexivity.
  - unfold observe. rewrite Hlog. step_effects.
    all: eexists; (split; [rewrite <- ?app_assoc; reflexivity |]).
    all: split; reflexivity.
  - unfold actInference. rewrite Hlog. step_effects.
    all: eexists; (split; [rewrite <- ?app_assoc; reflexivity |]).
    all: split; reflexivity.
Qed.

(** X10: with [logInferenceToFile] on, an [extract] that returns has
    written six files, a call file and a response file for each of the
    three model calls, and has appended three entries to the extract
    summary; the tokens and times of these entries add up to the
    [prompt_tokens], [completion_tokens] and [inference_time_ms] that it
    returns. *)
Theorem extract_log_adds_up (a : ExtractArgs World) (w : World)
  (tr : list Effect) (r : list (string * json)) :
  ex_logInferenceToFile World a = true ->
  fst (extract World sys prompts a (w, tr)) = Return r ->
  exists new e1 e2 e3,
    snd (snd (extract World sys prompts a (w, tr))) = (tr ++ new)%list
    /\ files new
       = [ ("extract_summary", "extract_call");
           ("extract_summary", "extract_response");
           ("extract_summary", "refine_call");
           ("extract_summary", "refine_response");
           ("extract_summary", "metadata_call");
           ("extract_summary", "metadata_response") ]
    /\ summaries new = [("extract", e1); ("extract", e2); ("extract", e3)]
    /\ map inference_type [e1; e2; e3] = ["extract"; "refine"; "metadata"]
    /\ get_member "prompt_tokens" r
       = Some (JNumber (inject_Z (sum_by summary_prompt_tokens (summaries new))))
    /\ get_member "completion_tokens" r
       = Some (JNumber
                 (inject_Z (sum_by summary_completion_tokens (summaries new))))
    /\ get_member "inference_time_ms" r
       = Some (JNumber
                 (inject_Z (sum_by summary_inference_time_ms (summaries new)))).
Proof.
  intros Hlog. unfold extract. rewrite Hlog. step_effects.
  all: cbn [fst]; intros Hr; try discriminate Hr.
  injection Hr as <-.
  eexists. do 3 eexists.
  split; [rewrite <- ?app_assoc; reflexivity |].
  split; [reflexivity|]. split; [reflexivity|]. split; [reflexivity|].
  unfold extract_result, sum_by. cbn [summaries flat_map app fold_right snd
    summary_prompt_tokens summary_completion_tokens summary_inference_time_ms].
  rewrite !Z.add_0_r, !Z.add_assoc.
  split; [| split].
  - do 2 (rewrite get_set_member_other by reflexivity).
    apply get_set_member_same.
  - rewrite get_set_member_other by reflexivity.
    apply get_set_member_same.
  - apply get_set_member_same.
Qed.

(** X11: with [logInferenceToFile] on, an [observe] whose model call throws
    has written the call file and nothing else: no response file, no entry
    in the summary, and the error goes to the caller as it is. *)
Theorem observe_log_of_a_failed_call (a : ObserveArgs World) (w : World)
  (tr : list Effect) (e : exn) :
  ob_logInferenceToFile World a = true ->
  fst (observe World sys prompts a (w, tr)) = Throw e ->
  exists new T o,
    snd (snd (observe World sys prompts a (w, tr))) = (tr ++ new)%list
    /\ files new = [("observe_summary", "observe_call")]
    /\ summaries new = []
    /\ model_calls new = [ModelCall T o (Throw e)].
Proof.
  intros Hlog. unfold observe. rewrite Hlog. step_effects.
  all: cbn [fst]; intros Hr; try discriminate Hr.
  injection Hr as <-.
  do 3 eexists.
  split; [rewrite <- ?app_assoc; reflexivity |].
  repeat split; reflexivity.
Qed.

(** X12: when the model call of [observe] returns elements, the list that
    [observe] returns has one entry per element, in the same order, with
    the same [elementId] and [description]; without [returnAction] no entry
    carries a method or arguments, even if the model sent some; with
    [returnAction] every entry carries a method, the text [undefined] where
    the model sent none, and the arguments as the model sent them.  The
    tokens are those of the call and the time is the difference between
    two readings of the clock. *)
Theorem observe_passes_elements_on (a : ObserveArgs World) (w : World)
  (tr new : list Effect) (o : ChatCompletionOptions)
  (r : LLMParsedResponse ObserveData) (els : list ObservedElement) :
  snd (snd (observe World sys prompts a (w, tr))) = (tr ++ new)%list ->
  In (ModelCall ObserveResponse o (Return r)) new ->
  elements (data r) = Some els ->
  exists res t1 t2,
    fst (observe World sys prompts a (w, tr)) = Return res
    /\ map pe_elementId (ob_elements res) = map elementId els
    /\ map pe_description (ob_elements res) = map description els
    /\ (ob_returnAction World a = false ->
        Forall (fun e => pe_method e = None /\ pe_arguments e = None)
          (ob_elements res))
    /\ (ob_returnAction World a = true ->
        map pe_method (ob_elements res)
        = map (fun el => Some (String_opt (method el))) els
        /\ map pe_arguments (ob_elements res) = map arguments els)
    /\ ob_prompt_tokens res = prompt_tokens_or_0 (usage r)
    /\ ob_completion_tokens res = completion_tokens_or_0 (usage r)
    /\ ob_inference_time_ms res = t2 - t1
    /\ In (DateNow t1) new /\ In (DateNow t2) new.
Proof.
  intros Hnew' Hin Hel.
  destruct (observe_run World sys prompts a w tr)
    as (new0 & t1 & t2 & res & Hnew & Hf & Hr).
  rewrite Hnew in Hnew'. apply app_inv_head in Hnew'. subst new0.
  assert (Hsub : forall x, In x (filter is_clock_or_call new) -> In x new).
  { intros x Hx. now apply filter_In in Hx. }
  apply model_call_in_clock_or_call in Hin; [| reflexivity].
  rewrite Hf in Hin, Hsub. cbn in Hin.
  destruct Hin as [Hin | [Hin | Hin]]; [discriminate Hin | |].
  2:{ destruct res; cbn in Hin;
        [destruct Hin as [Hin|[]]; discriminate Hin | destruct Hin]. }
  apply ModelCall_inj in Hin. destruct Hin as [_ ->].
  eexists. exists t1, t2. split; [exact Hr|]. cbn. rewrite Hel.
  rewrite !map_map.
  split; [| split; [| split; [| split; [| split; [| split; [| split]]]]]];
    try reflexivity.
  - apply map_ext. intros el. unfold parse_element.
    now destruct (ob_returnAction World a).
  - apply map_ext. intros el. unfold parse_element.
    now destruct (ob_returnAction World a).
  - intros Hra. rewrite Hra. apply Forall_forall. intros e He.
    apply in_map_iff in He. destruct He as (el & <- & _). now split.
  - intros Hra. rewrite Hra. rewrite ?map_map. now split.
  - split; apply Hsub; cbn; auto.
Qed.


End InferenceLogProperties.

Lemma no_inference_log_unless_asked_witness :
  exists new,
    snd (snd (Inference.observe _ Demo.sys Demo.prompts
                (InferenceLog.observe_args true false InferenceLog.finding)
                (0, [])))
    = ([] ++ new)%list
    /\ InferenceLog.files new = [] /\ InferenceLog.summaries new = [].
Proof.
  apply (proj1 (proj2 (no_inference_log_unless_asked _ Demo.sys
                         Demo.prompts))).
  reflexivity.
Defined.

Lemma extract_log_adds_up_witness :
  exists new,
    snd (snd (Inference.extract _ Demo.sys Demo.prompts
                (Demo.extract_args Demo.answering) (0, [])))
    = ([] ++ new)%list
    /\ List.length (InferenceLog.files new) = 6%nat
    /\ InferenceLog.sum_by Inference.summary_prompt_tokens
         (InferenceLog.summaries new) = 300
    /\ JSON.get_member "prompt_tokens" Demo.extracted
       = Some (JSON.JNumber (inject_Z 300)).
Proof.
  destruct (extract_log_adds_up _ Demo.sys Demo.prompts
              (Demo.extract_args Demo.answering) 0 [] Demo.extracted
              eq_refl eq_refl)
    as (new & e1 & e2 & e3 & Hnew & Hfiles & _).
  exists new. split; [exact Hnew|]. split; [now rewrite Hfiles|].
  cbn in Hnew. subst new. split; reflexivity.
Defined.

Lemma observe_log_of_a_failed_call_witness :
  exists new,
    snd (snd (Inference.observe _ Demo.sys Demo.prompts
                (InferenceLog.observe_args false true Demo.failing) (0, [])))
    = ([] ++ new)%list
    /\ InferenceLog.files new = [("observe_summary", "observe_call")]
    /\ InferenceLog.summaries new = [].
Proof.
  destruct (observe_log_of_a_failed_call _ Demo.sys Demo.prompts
              (InferenceLog.observe_args false true Demo.failing) 0 []
              (StagehandError "Google API Error: quota exceeded")
              eq_refl eq_refl)
    as (new & T & o & Hnew & Hfiles & Hsum & _).
  exists new. now repeat split.
Defined.

Lemma observe_passes_elements_on_witness :
  exists res,
    fst (Inference.observe _ Demo.sys Demo.prompts
           (InferenceLog.observe_args true false InferenceLog.finding)
           (0, []))
    = Return res
    /\ map Inference.pe_elementId (Inference.ob_elements res) = [7%Q; 12%Q]
    /\ map Inference.pe_method (Inference.ob_elements res)
       = [Some "click"; Some "undefined"].
Proof.
  edestruct (observe_passes_elements_on _ Demo.sys Demo.prompts
               (InferenceLog.observe_args true false InferenceLog.finding)
               0 [])
    as (res & t1 & t2 & Hres & Hid & _ & _ & Hm & _).
  - reflexivity.
  - cbn. right. left. reflexivity.
  - reflexivity.
  - exists res. split; [exact Hres|]. split; [exact Hid|].
    exact (proj1 (Hm eq_refl)).
Defined.


(** ** The Google client: what is sent and what comes back *)

Section GoogleContentsProperties.
Import JSON LLM Google GoogleContents.

Lemma starts_with_app (p s : string) : starts_with p (p ++ s) = Some s.
Proof.
  unfold starts_with. rewrite prefix_app. f_equal.
  induction p as [|c p IH]; [reflexivity | exact IH].
Qed.

Lemma starts_with_some (p s out : string) :
  starts_with p s = Some out -> s = p ++ out.
Proof.
  unfold starts_with. destruct (String.prefix p s) eqn:P; [| discriminate].
  intros H. injection H as <-. now apply prefix_split.
Qed.

Lemma take_letters_sound (s : string) :
  forall l r, take_letters s = (l, r) ->
    s = l ++ r /\ all_chars is_letter l = true.
Proof.
  induction s as [|c s IH]; intros l r; cbn.
  - intros H. injection H as <- <-. now split.
  - destruct (is_letter c) eqn:L.
    + destruct (take_letters s) as [l0 r0].
      intros H. injection H as <- <-.
      destruct (IH l0 r0 eq_refl) as [-> Hl]. cbn. now rewrite L.
    + intros H. injection H as <- <-. now split.
Qed.

Lemma take_letters_app (kind r : string) :
  all_chars is_letter kind = true ->
  take_letters (kind ++ String ";" r) = (kind, String ";" r).
Proof.
  induction kind as [|c k IH]; cbn; [reflexivity|].
  destruct (is_letter c); [| discriminate]. cbn.
  intros H. now rewrite IH.
Qed.

Lemma match_data_url_sound (url kind d : string) :
  match_data_url url = Some (kind, d) ->
  url = "data:image/" ++ kind ++ ";base64," ++ d
  /\ kind <> "" /\ all_chars is_letter kind = true
  /\ no_line_terminator d = true.
Proof.
  unfold match_data_url.
  destruct (starts_with "data:image/" url) as [r|] eqn:S; [| discriminate].
  apply starts_with_some in S.
  destruct (take_letters r) as [l r1] eqn:T.
  apply take_letters_sound in T. destruct T as [-> Hl].
  destruct (String.eqb l "") eqn:E; [discriminate|].
  destruct (starts_with ";base64," r1) as [d0|] eqn:S1; [| discriminate].
  apply starts_with_some in S1.
  destruct (no_line_terminator d0) eqn:N; [| discriminate].
  intros H. injection H as <- <-. subst. apply String.eqb_neq in E.
  now repeat split.
Qed.

Lemma match_data_url_complete (kind d : string) :
  kind <> "" -> all_chars is_letter kind = true ->
  no_line_terminator d = true ->
  match_data_url ("data:image/" ++ kind ++ ";base64," ++ d) = Some (kind, d).
Proof.
  intros Hne Hl Hd. unfold match_data_url.
  rewrite starts_with_app.
  change (";base64," ++ d) with (String ";" ("base64," ++ d)).
  rewrite take_letters_app by exact Hl.
  apply String.eqb_neq in Hne. rewrite Hne.
  change (String ";" ("base64," ++ d)) with (";base64," ++ d).
  now rewrite starts_with_app, Hd.
Qed.

(** X14: the regular expression for data URLs, both ways: a URL matches
    exactly when it is [data:image/], a non-empty run of letters,
    [;base64,] and a rest without line terminator; the two groups are the
    letters and the rest. *)
Theorem match_data_url_iff (url kind d : string) :
  match_data_url url = Some (kind, d)
  <-> url = "data:image/" ++ kind ++ ";base64," ++ d
      /\ kind <> "" /\ all_chars is_letter kind = true
      /\ no_line_terminator d = true.
Proof.
  split.
  - apply match_data_url_sound.
  - intros (-> & Hne & Hl & Hd). now apply match_data_url_complete.
Qed.

Lemma base64_char_alphabet (n : N) : base64_alphabet (base64_char n) = true.
Proof.
  unfold base64_char.
  destruct (n <? 26)%N eqn:A; [| destruct (n <? 52)%N eqn:B;
    [| destruct (n <? 62)%N eqn:C; [| destruct (n =? 62)%N; reflexivity]]].
  - apply N.ltb_lt in A. unfold base64_alphabet, is_letter.
    rewrite N_ascii_embedding by lia.
    replace (65 <=? 65 + n)%N with true by (symmetry; apply N.leb_le; lia).
    replace (65 + n <=? 90)%N with true by (symmetry; apply N.leb_le; lia).
    reflexivity.
  - apply N.ltb_lt in B. apply N.ltb_ge in A.
    unfold base64_alphabet, is_letter.
    rewrite N_ascii_embedding by lia.
    replace (97 <=? 71 + n)%N with true by (symmetry; apply N.leb_le; lia).
    replace (71 + n <=? 122)%N with true by (symmetry; apply N.leb_le; lia).
    now rewrite orb_true_r.
  - apply N.ltb_lt in C. apply N.ltb_ge in B.
    unfold base64_alphabet.
    rewrite N_ascii_embedding by lia.
    replace (48 <=? n - 4)%N with true by (symmetry; apply N.leb_le; lia).
    replace (n - 4 <=? 57)%N with true by (symmetry; apply N.leb_le; lia).
    now rewrite orb_true_r.
Qed.

Lemma base64_in_alphabet (bytes : list ascii) :
  all_chars base64_alphabet (base64 bytes) = true.
Proof.
  assert (H : forall n bytes, (List.length bytes <= n)%nat ->
                all_chars base64_alphabet (base64 bytes) = true).
  { clear bytes. induction n as [|n IH]; intros bytes Hn.
    - destruct bytes; [reflexivity | cbn in Hn; lia].
    - destruct bytes as [|a [|b [|c rest]]]; cbn [base64 all_chars];
        rewrite ?base64_char_alphabet; try reflexivity.
      cbn [andb]. apply IH. cbn in Hn. lia. }
  now apply (H (List.length bytes)).
Qed.

Lemma alphabet_no_line_terminator (s : string) :
  all_chars base64_alphabet s = true -> no_line_terminator s = true.
Proof.
  induction s as [|c s IH]; [reflexivity|].
  cbn [all_chars no_line_terminator]. intros H.
  apply andb_true_iff in H. destruct H as [Hc Hs].
  assert (Hn : (43 <= N_of_ascii c <= 122)%N).
  { unfold base64_alphabet, is_letter in Hc.
    repeat (apply orb_true_iff in Hc; destruct Hc as [Hc|Hc]);
      repeat match goal with
             | H : (_ && _)%bool = true |- _ =>
                 apply andb_true_iff in H; destruct H
             | H : (_ <=? _)%N = true |- _ => apply N.leb_le in H
             | H : (_ =? _)%N = true |- _ => apply N.eqb_eq in H
             end; lia. }
  replace ((N_of_ascii c =? 10) || (N_of_ascii c =? 13))%N with false.
  2:{ symmetry. apply orb_false_iff. split; apply N.eqb_neq; lia. }
  specialize (IH Hs).
  destruct (N_of_ascii c) as [|p] eqn:E; [exact IH|].
  assert (Hp : p <> 226%positive) by lia.
  repeat (destruct p as [p|p|]; try exact IH; try lia).
Qed.

Lemma image_part_is_inline_data (bytes : list ascii) :
  map_part (imgContent bytes) = [InlineData "image/jpeg" (base64 bytes)].
Proof.
  unfold map_part, imgContent. cbn [text image_url source provided_text].
  change (String.prefix "data:" ("data:image/jpeg;base64," ++ base64 bytes))
    with (String.prefix "data:" ("data:" ++ "image/jpeg;base64,"
                                 ++ base64 bytes)).
  rewrite prefix_app.
  assert (H : match_data_url ("data:image/jpeg;base64," ++ base64 bytes)
              = Some ("jpeg", base64 bytes)).
  { apply (match_data_url_complete "jpeg"); [discriminate | reflexivity |].
    apply alphabet_no_line_terminator, base64_in_alphabet. }
  cbn [String.append] in H |- *. now rewrite H.
Qed.

Lemma lastUserMsgIndex_none (msgs : list ChatMessage) :
  forall i, existsb is_user msgs = false -> lastUserMsgIndex msgs i = None.
Proof.
  induction msgs as [|m rest IH]; intros i; cbn; [reflexivity|].
  intros H. apply orb_false_iff in H. destruct H as [Hm Hr].
  rewrite (IH (S i) Hr). unfold is_user in Hm.
  now destruct (LLM.role m).
Qed.

Lemma lastUserMsgIndex_last (before after : list ChatMessage)
  (m : ChatMessage) :
  forall i,
    LLM.role m = user -> existsb is_user after = false ->
    lastUserMsgIndex (before ++ m :: after) i
    = Some (i + List.length before)%nat.
Proof.
  induction before as [|b before IH]; intros i Hm Ha; cbn.
  - rewrite (lastUserMsgIndex_none after (S i) Ha), Hm. f_equal. lia.
  - rewrite (IH (S i) Hm Ha). f_equal. lia.
Qed.

Lemma lastUserMsgIndex_none_inv (msgs : list ChatMessage) :
  forall i, lastUserMsgIndex msgs i = None -> existsb is_user msgs = false.
Proof.
  induction msgs as [|m rest IH]; intros i; cbn; [reflexivity|].
  destruct (lastUserMsgIndex rest (S i)) as [k|] eqn:E; [discriminate|].
  unfold is_user at 1.
  destruct (LLM.role m); try discriminate; intros _; exact (IH (S i) E).
Qed.

Lemma lastUserMsgIndex_some (msgs : list ChatMessage) :
  forall i j,
    lastUserMsgIndex msgs i = Some j ->
    exists before m after,
      msgs = (before ++ m :: after)%list
      /\ j = (i + List.length before)%nat
      /\ LLM.role m = user /\ existsb is_user after = false.
Proof.
  induction msgs as [|m rest IH]; intros i j; cbn; [discriminate|].
  destruct (lastUserMsgIndex rest (S i)) as [k|] eqn:E.
  - intros H. injection H as <-.
    destruct (IH (S i) k E) as (before & m0 & after & -> & -> & Hm & Ha).
    exists (m :: before), m0, after. cbn. repeat split; try assumption. lia.
  - destruct (LLM.role m) eqn:R; try discriminate.
    intros H. injection H as <-.
    exists [], m, rest. cbn. repeat split; try assumption; [lia|].
    exact (lastUserMsgIndex_none_inv rest (S i) E).
Qed.

(** The index that the chain of [map], [filter] and [pop] finds is
    that of the last message of role [user]: no message behind it is a user
    message; and there is no index exactly when no message is a user
    message. *)
Lemma lastUserMsgIndex_is_last_user (msgs : list ChatMessage) :
  match lastUserMsgIndex msgs 0 with
  | Some i =>
      exists before m after,
        msgs = (before ++ m :: after)%list
        /\ List.length before = i
        /\ LLM.role m = user
        /\ Forall (fun m' => LLM.role m' <> user) after
  | None => Forall (fun m' => LLM.role m' <> user) msgs
  end.
Proof.
  assert (Hno : forall l, existsb is_user l = false ->
                  Forall (fun m' => LLM.role m' <> user) l).
  { intros l Hl. apply Forall_forall. intros x Hx Hr.
    assert (Hex : existsb is_user l = true).
    { apply existsb_exists. exists x. split; [exact Hx|].
      unfold is_user. now rewrite Hr. }
    rewrite Hl in Hex. discriminate Hex. }
  destruct (lastUserMsgIndex msgs 0) as [i|] eqn:E.
  - destruct (lastUserMsgIndex_some msgs 0 i E)
      as (before & m & after & -> & -> & Hm & Ha).
    exists before, m, after. repeat split; try assumption. now apply Hno.
  - apply Hno. exact (lastUserMsgIndex_none_inv msgs 0 E).
Qed.

Lemma update_at_app {A : Type} (f : A -> A) (before after : list A) (x : A) :
  update_at (List.length before) f (before ++ x :: after)
  = (before ++ f x :: after)%list.
Proof.
  induction before as [|b before IH]; cbn; [reflexivity | now rewrite IH].
Qed.

Lemma mapMessagesToGoogleContent_app (l1 l2 : list ChatMessage) :
  mapMessagesToGoogleContent (l1 ++ l2)
  = (mapMessagesToGoogleContent l1 ++ mapMessagesToGoogleContent l2)%list.
Proof. apply map_app. Qed.

Lemma flat_map_app_parts (ps qs : list ContentPart) :
  flat_map map_part (ps ++ qs)
  = (flat_map map_part ps ++ flat_map map_part qs)%list.
Proof. apply flat_map_app. Qed.

Lemma image_entry (m : ChatMessage) (bytes : list ascii) :
  LLM.role m = user ->
  mapMessagesToGoogleContent [add_image m (imgContent bytes)]
  = [ {| role := "user";
         parts := (parts_before_image m
                   ++ [InlineData "image/jpeg" (base64 bytes)])%list |} ].
Proof.
  intros Hm. unfold mapMessagesToGoogleContent, add_image, parts_before_image.
  cbn [map LLM.role content]. rewrite Hm.
  destruct (content m) as [s|ps].
  - cbn [flat_map]. rewrite image_part_is_inline_data.
    unfold map_part at 1. cbn [text image_url source provided_text].
    destruct (String.eqb s ""); reflexivity.
  - rewrite flat_map_app_parts. cbn [flat_map].
    now rewrite image_part_is_inline_data, app_nil_r.
Qed.

(** X15: a screenshot passed in [options.image] is sent with the last user
    message and with no other: the entry of that message ends in the inline
    JPEG data, behind the parts of its own content (an empty text gives
    none), and every other entry is what it is without the image.  When no
    message is a user message, the screenshot is not sent at all. *)
Theorem image_goes_with_last_user_message (options : ChatCompletionOptions)
  (bytes : list ascii) :
  image options = Some {| buffer := Some bytes |} ->
  (forall before m after,
     messages options = (before ++ m :: after)%list ->
     LLM.role m = user ->
     Forall (fun m' => LLM.role m' <> user) after ->
     mapMessagesToGoogleContent (messagesWithImage options)
     = (mapMessagesToGoogleContent before
        ++ {| role := "user";
              parts := (parts_before_image m
                        ++ [InlineData "image/jpeg" (base64 bytes)])%list |}
        :: mapMessagesToGoogleContent after)%list)
  /\ (Forall (fun m' => LLM.role m' <> user) (messages options) ->
      messagesWithImage options = messages options).
Proof.
  intros Himg.
  assert (Hno : forall l, Forall (fun m' => LLM.role m' <> user) l ->
                  existsb is_user l = false).
  { intros l Hl. destruct (existsb is_user l) eqn:X; [| reflexivity].
    apply existsb_exists in X. destruct X as (x & Hx & Hu).
    rewrite Forall_forall in Hl. specialize (Hl x Hx).
    unfold is_user in Hu. destruct (LLM.role x); try discriminate.
    now elim Hl. }
  unfold messagesWithImage. rewrite Himg. split.
  - intros before m after Hmsgs Hm Ha. rewrite Hmsgs.
    rewrite (lastUserMsgIndex_last before after m 0%nat Hm (Hno _ Ha)).
    cbn [Nat.add]. rewrite update_at_app.
    rewrite mapMessagesToGoogleContent_app.
    change (add_image m (imgContent bytes) :: after)
      with ([add_image m (imgContent bytes)] ++ after)%list.
    rewrite mapMessagesToGoogleContent_app, image_entry by exact Hm.
    reflexivity.
  - intros Hall. now rewrite (lastUserMsgIndex_none _ 0%nat (Hno _ Hall)).
Qed.

Lemma merge_runs_roles (contents : list Content) (P : string -> Prop) :
  Forall (fun e => P (role e)) contents ->
  Forall (fun e => P (role e)) (merge_runs contents).
Proof.
  induction 1 as [|c rest Hc Hrest IH]; cbn [merge_runs]; [constructor|].
  destruct (merge_runs rest) as [|d ds]; [now constructor|].
  inversion IH as [|? ? Hd Hds]; subst.
  destruct (String.eqb (role c) (role d)); now repeat constructor.
Qed.

Lemma mapMessagesToGoogleContent_roles (msgs : list ChatMessage) :
  map role (mapMessagesToGoogleContent msgs) = map google_role msgs.
Proof.
  unfold mapMessagesToGoogleContent. rewrite map_map. reflexivity.
Qed.

Lemma prepareGoogleContent_alternating (contents : list Content)
  (systemInstruction : option string) :
  alternating (map role (prepareGoogleContent contents systemInstruction)).
Proof.
  rewrite prepareGoogleContent_cases.
  destruct (provided_text systemInstruction) as [s|].
  - destruct contents as [|first rest]; [exact I|].
    destruct (String.eqb (role first) "user") eqn:E.
    + apply merge_runs_alternating.
    + apply String.eqb_neq in E.
      rewrite <- (merge_runs_cons_distinct
                    {| role := "user"; parts := [Text s] |} first rest)
        by exact E.
      apply merge_runs_alternating.
  - apply merge_runs_alternating.
Qed.

(** X16: what [createChatCompletion] sends to the Google SDK has only the
    roles [user] and [model], and no two neighbours of the same role, so
    that the turns alternate; with instructions of the user the first turn
    is a user turn, whatever the first message is. *)
Theorem googleContents_turns_alternate (c : GoogleClient)
  (options : ChatCompletionOptions) :
  Forall (fun e => role e = "user" \/ role e = "model")
    (googleContents c options)
  /\ alternating (map role (googleContents c options))
  /\ (forall s,
        provided_text (userProvidedInstructions c) = Some s ->
        exists ps rest,
          googleContents c options = {| role := "user"; parts := ps |} :: rest).
Proof.
  unfold googleContents.
  set (contents := mapMessagesToGoogleContent (messagesWithImage options)).
  assert (Hroles : Forall (fun e => role e = "user" \/ role e = "model")
                     contents).
  { apply Forall_forall. intros e He. unfold contents in He.
    apply in_map_iff in He. destruct He as (m & <- & _). cbn [role].
    destruct (LLM.role m); auto. }
  split; [| split].
  - rewrite prepareGoogleContent_cases.
    destruct (provided_text (userProvidedInstructions c)) as [s|].
    + destruct contents as [|first rest]; [repeat constructor; now left|].
      inversion Hroles as [|? ? Hf Hr]; subst.
      destruct (String.eqb (role first) "user").
      * apply (merge_runs_roles _ (fun r => r = "user" \/ r = "model")).
        now constructor.
      * constructor; [now left|].
        now apply (merge_runs_roles _ (fun r => r = "user" \/ r = "model")).
    + now apply (merge_runs_roles _ (fun r => r = "user" \/ r = "model")).
  - apply prepareGoogleContent_alternating.
  - intros s Hs. rewrite prepareGoogleContent_cases, Hs.
    destruct contents as [|first rest]; [eauto|].
    destruct (String.eqb (role first) "user") eqn:E; [| eauto].
    apply String.eqb_eq in E.
    destruct (merge_runs_head
                {| role := role first;
                   parts := Text (s ++ String newline (String newline ""))
                              :: parts first |} rest) as (ps & tl & H).
    rewrite H. cbn [role]. rewrite E. eauto.
Qed.

Lemma merge_runs_one_role (r : string) (contents : list Content) :
  contents <> [] ->
  Forall (fun e => role e = r) contents ->
  merge_runs contents = [ {| role := r; parts := flat_map parts contents |} ].
Proof.
  intros Hne H. induction H as [|c rest Hc Hrest IH]; [now elim Hne|].
  cbn [merge_runs flat_map].
  destruct rest as [|d rest'].
  - cbn. rewrite app_nil_r. destruct c; cbn in *. now subst.
  - rewrite IH by discriminate. cbn [role parts].
    rewrite Hc, String.eqb_refl. reflexivity.
Qed.

Lemma messagesWithImage_roles (options : ChatCompletionOptions) :
  map LLM.role (messagesWithImage options) = map LLM.role (messages options).
Proof.
  unfold messagesWithImage.
  destruct (image options) as [[[bytes|]]|]; try reflexivity.
  destruct (lastUserMsgIndex (messages options) 0) as [i|]; [| reflexivity].
  generalize (messages options). clear.
  induction i as [|i IH]; intros [|m l]; cbn; try reflexivity.
  now rewrite IH.
Qed.

(** X17: a conversation without assistant messages is sent as one user
    turn: system and user messages alike become parts of a single entry of
    role [user], in the order of the messages, behind the instructions of
    the user when there are any. *)
Theorem conversation_without_assistant_is_one_turn (c : GoogleClient)
  (options : ChatCompletionOptions) :
  messages options <> [] ->
  Forall (fun m => LLM.role m <> assistant) (messages options) ->
  googleContents c options
  = [ {| role := "user";
         parts :=
           (match provided_text (userProvidedInstructions c) with
            | Some s => [Text (s ++ String newline (String newline ""))]
            | None => []
            end
            ++ flat_map parts
                 (mapMessagesToGoogleContent (messagesWithImage options)))%list
      |} ].
Proof.
  intros Hne Hall. unfold googleContents.
  set (contents := mapMessagesToGoogleContent (messagesWithImage options)).
  assert (Hroles : Forall (fun e => role e = "user") contents).
  { apply Forall_forall. intros e He.
    apply (in_map role) in He. unfold contents in He.
    rewrite mapMessagesToGoogleContent_roles in He.
    apply in_map_iff in He. destruct He as (m & <- & Hm).
    assert (Hr : In (LLM.role m) (map LLM.role (messages options))).
    { rewrite <- messagesWithImage_roles. now apply in_map. }
    apply in_map_iff in Hr. destruct Hr as (m' & Hr & Hm').
    rewrite Forall_forall in Hall. specialize (Hall m' Hm').
    unfold google_role. rewrite <- Hr.
    destruct (LLM.role m'); try reflexivity. now elim Hall. }
  assert (Hc : contents <> []).
  { intros E. apply (f_equal (map role)) in E. unfold contents in E.
    rewrite mapMessagesToGoogleContent_roles in E.
    apply (f_equal (@List.length _)) in E.
    rewrite length_map in E.
    rewrite <- (length_map LLM.role), messagesWithImage_roles, length_map
      in E.
    destruct (messages options); [now elim Hne | discriminate E]. }
  rewrite prepareGoogleContent_cases.
  destruct (provided_text (userProvidedInstructions c)) as [s|].
  - destruct contents as [|first rest]; [now elim Hc|].
    inversion Hroles as [|? ? Hf Hr]; subst.
    rewrite Hf, String.eqb_refl.
    rewrite (merge_runs_one_role "user"); [reflexivity | discriminate |].
    now constructor.
  - now rewrite (merge_runs_one_role "user").
Qed.

Lemma alternating_merge_runs (contents : list Content) :
  alternating (map role contents) -> merge_runs contents = contents.
Proof.
  induction contents as [|c rest IH]; [reflexivity|].
  intros H. cbn [merge_runs].
  destruct rest as [|d rest']; [reflexivity|].
  cbn [map alternating] in H. destruct H as [Hcd Hrest].
  rewrite IH by exact Hrest.
  apply String.eqb_neq in Hcd. now rewrite Hcd.
Qed.

(** X18: preparing prepared contents again, without instruction, changes
    nothing: the turns that [prepareGoogleContent] returns are merged as far
    as they can be. *)
Theorem prepareGoogleContent_idempotent (contents : list Content)
  (systemInstruction : option string) :
  prepareGoogleContent (prepareGoogleContent contents systemInstruction) None
  = prepareGoogleContent contents systemInstruction.
Proof.
  rewrite (prepareGoogleContent_cases (prepareGoogleContent _ _) None).
  cbn [provided_text].
  apply alternating_merge_runs, prepareGoogleContent_alternating.
Qed.

Lemma complete_returns_iff_reply (c : GoogleClient) (date_now : Z)
  (options : ChatCompletionOptions) (response : GenerateContentResponse) :
  match reply_parts response with
  | Some ps =>
      exists r line,
        complete c date_now options response = ([line], Return r)
        /\ Logs.level line = Some 1
  | None =>
      complete c date_now options response
      = ([google_log
            ("No content received. FinishReason: "
             ++ show (match candidates response with
                      | Some (x :: _) => finishReason x
                      | _ => None
                      end)
             ++ ", BlockReason: " ++ show (blockReason response)
             ++ ", SafetyRatings: "
             ++ match candidates response with
                | Some ({| safetyRatings := Some r |} :: _) => r
                | _ => "N/A"
                end) 0],
         Throw
           (StagehandError
              ("Google API call failed or returned no content. FinishReason: "
               ++ show (match candidates response with
                        | Some (x :: _) => finishReason x
                        | _ => None
                        end)
               ++ ", BlockReason: " ++ show (blockReason response))))
  end.
Proof.
  unfold reply_parts, complete.
  destruct (candidates response) as [[|x xs]|]; try reflexivity.
  destruct x as [[[|p ps]|] fr sr]; cbn [content_parts finishReason
    safetyRatings]; try reflexivity.
  destruct (response_model options); [destruct (parse _)|];
    do 2 eexists; split; reflexivity.
Qed.

(** X19: a call to the Google client returns exactly when the SDK returned
    a response whose first candidate has a part; the lines it logs start
    with [creating chat completion] at level 2, end at level 1 when the
    call returns, and hold a line of level 0 exactly when it throws. *)
Theorem createChatCompletion_returns_iff_reply (c : GoogleClient)
  (date_now : Z) (options : ChatCompletionOptions) :
  let sent := generateContent c (googleContents c options)
                (generationConfig options) in
  let result := createChatCompletion c date_now options in
  ((exists r, snd result = Return r)
   <-> exists response ps,
         sent = Return response /\ reply_parts response = Some ps)
  /\ (exists rest,
        fst result = google_log "creating chat completion" 2 :: rest
        /\ ((exists r, snd result = Return r)
            -> exists line, rest = [line] /\ Logs.level line = Some 1)
        /\ ((exists e, snd result = Throw e)
            <-> exists line, In line rest /\ Logs.level line = Some 0)).
Proof.
  intros sent result. unfold result, createChatCompletion. fold sent.
  destruct sent as [response|e0].
  - pose proof (complete_returns_iff_reply c date_now options response) as H.
    destruct (reply_parts response) as [ps|] eqn:Hps.
    + destruct H as (r & line & -> & Hl). cbn [fst snd]. split.
      * split; [intros _; now exists response, ps | intros _; now exists r].
      * exists [line]. split; [reflexivity|]. split; [intros _; now exists line|].
        split.
        -- intros (e & He). discriminate He.
        -- intros (l & [<-|[]] & Hl0). rewrite Hl in Hl0. discriminate Hl0.
    + rewrite H. cbn [fst snd]. split.
      * split; [intros (r & Hr); discriminate Hr|].
        intros (response' & ps & Hr & Hps'). injection Hr as <-.
        rewrite Hps in Hps'. discriminate Hps'.
      * eexists. split; [reflexivity|]. split.
        -- intros (r & Hr). discriminate Hr.
        -- split; [| intros _; eexists; reflexivity].
           intros _. eexists. split; [left; reflexivity | reflexivity].
  - cbn [fst snd]. split.
    + split; [intros (r & Hr); discriminate Hr|].
      intros (response' & ps & Hr & Hps). discriminate Hr.
    + eexists. split; [reflexivity|]. split.
      * intros (r & Hr). discriminate Hr.
      * split; [| intros _; eexists; reflexivity].
        intros _. eexists. split; [left; reflexivity | reflexivity].
Qed.

(** X20: every error leaves the Google client as a [StagehandError] whose
    message is [Google API Error: ] and the message of the cause, and that
    cause's message is logged at level 0; a reply without content is
    reported with both prefixes, [Google API Error: Google API call failed
    or returned no content.], and with the finish and block reasons, the
    text [undefined] standing for a reason that is missing. *)
Theorem createChatCompletion_errors (c : GoogleClient) (date_now : Z)
  (options : ChatCompletionOptions) :
  (forall e,
     snd (createChatCompletion c date_now options) = Throw e ->
     exists cause,
       e = StagehandError ("Google API Error: " ++ cause)
       /\ last (fst (createChatCompletion c date_now options))
            (google_log "" 2)
          = google_log ("Error creating chat completion: " ++ cause) 0
       /\ (forall e0,
             generateContent c (googleContents c options)
               (generationConfig options) = Throw e0 ->
             cause = exn_message e0))
  /\ (forall response,
        generateContent c (googleContents c options)
          (generationConfig options) = Return response ->
        reply_parts response = None ->
        snd (createChatCompletion c date_now options)
        = Throw
            (StagehandError
               ("Google API Error: "
                ++ "Google API call failed or returned no content. "
                ++ "FinishReason: "
                ++ show (match candidates response with
                         | Some (x :: _) => finishReason x
                         | _ => None
                         end)
                ++ ", BlockReason: " ++ show (blockReason response)))).
Proof.
  unfold createChatCompletion. split.
  - intros e.
    destruct (generateContent c _ _) as [response|e0].
    + destruct (complete c date_now options response) as [logged [r|e1]];
        [discriminate|].
      cbn [fst snd]. intros H. injection H as <-.
      exists (exn_message e1). split; [reflexivity|].
      split; [| intros e0 H0; discriminate H0].
      apply last_last.
    + cbn [fst snd]. intros H. injection H as <-.
      exists (exn_message e0). split; [reflexivity|].
      split; [reflexivity|]. intros e1 H1. now injection H1 as <-.
  - intros response -> Hps.
    pose proof (complete_returns_iff_reply c date_now options response) as H.
    rewrite Hps in H. rewrite H. reflexivity.
Qed.

End GoogleContentsProperties.

Lemma image_goes_with_last_user_message_witness :
  Google.mapMessagesToGoogleContent
    (Google.messagesWithImage
       (GoogleContents.vision_request
          (Some {| LLM.buffer := Some ["137"%char; "P"%char; "N"%char;
                                       "G"%char] |})))
  = [ {| Google.role := "user";
         Google.parts := [Google.Text "you are a browser agent"] |};
      {| Google.role := "user";
         Google.parts := [Google.Text "what is on the page?"] |};
      {| Google.role := "model";
         Google.parts := [Google.Text "a cookie banner"] |};
      {| Google.role := "user";
         Google.parts := [ Google.Text "and on this screenshot?";
                           Google.InlineData "image/jpeg" "iVBORw==" ] |};
      {| Google.role := "user";
         Google.parts := [Google.Text "answer briefly"] |} ].
Proof.
  pose proof
    (proj1 (image_goes_with_last_user_message
              (GoogleContents.vision_request
                 (Some {| LLM.buffer := Some ["137"%char; "P"%char; "N"%char;
                                              "G"%char] |}))
              ["137"%char; "P"%char; "N"%char; "G"%char] eq_refl)
       [ GoogleContents.says LLM.system "you are a browser agent";
         GoogleContents.says LLM.user "what is on the page?";
         GoogleContents.says LLM.assistant "a cookie banner" ]
       (GoogleContents.says LLM.user "and on this screenshot?")
       [ GoogleContents.says LLM.system "answer briefly" ]
       eq_refl eq_refl) as H.
  rewrite H; [reflexivity|].
  repeat constructor. discriminate.
Defined.

Lemma conversation_without_assistant_is_one_turn_witness :
  Google.googleContents (GoogleContents.instructed "be brief")
    {| LLM.messages :=
         [ GoogleContents.says LLM.system "you are a browser agent";
           GoogleContents.says LLM.user "what is on the page?" ];
       LLM.temperature := None; LLM.top_p := None;
       LLM.frequency_penalty := None; LLM.presence_penalty := None;
       LLM.image := None; LLM.response_model := None;
       LLM.maxTokens := None; LLM.requestId := "req-8" |}
  = [ {| Google.role := "user";
         Google.parts :=
           [ Google.Text
               ("be brief" ++ String Google.newline (String Google.newline ""));
             Google.Text "you are a browser agent";
             Google.Text "what is on the page?" ] |} ].
Proof.
  apply (conversation_without_assistant_is_one_turn
           (GoogleContents.instructed "be brief")).
  - discriminate.
  - repeat constructor; discriminate.
Defined.

Lemma createChatCompletion_errors_witness :
  snd (Google.createChatCompletion GoogleContents.blocked 0
         (GoogleContents.vision_request None))
  = Throw
      (StagehandError
         ("Google API Error: Google API call failed or returned no content. "
          ++ "FinishReason: SAFETY, BlockReason: undefined")).
Proof.
  apply (proj2 (createChatCompletion_errors GoogleContents.blocked 0
                  (GoogleContents.vision_request None))
           _ eq_refl eq_refl).
Defined.

(** ** [getBrowser] *)

Section GetBrowserProperties.
Import Logs Browser.

Variable World : Type.
Variable sys : Sys World.

Ltac unfold_getBrowser :=
  cbv beta iota zeta delta
    [bind ret throw catch perform logger fst snd getBrowser checkEnv
     browserbaseBrowser resumeSession createSession setCookies localBrowser
     prepareUserDataDir option_bind lo_userDataDir lo_downloadsPath
     lo_cookies].

Ltac call_sys :=
  match goal with
  | |- context [sessions_retrieve ?s ?a ?b ?w] =>
      let st := fresh "sessionStatus" in let e := fresh "e" in
      let w' := fresh "w" in
      destruct (sessions_retrieve s a b w) as [[st|e] w'] eqn:?
  | |- context [sessions_create ?s ?a ?b ?c ?w] =>
      let st := fresh "session" in let e := fresh "e" in
      let w' := fresh "w" in
      destruct (sessions_create s a b c w) as [[st|e] w'] eqn:?
  | |- context [puppeteer_connect ?s ?a ?w] =>
      let st := fresh "browser" in let e := fresh "e" in
      let w' := fresh "w" in
      destruct (puppeteer_connect s a w) as [[st|e] w'] eqn:?
  | |- context [sessions_debug ?s ?a ?b ?w] =>
      let st := fresh "debuggerUrl" in let e := fresh "e" in
      let w' := fresh "w" in
      destruct (sessions_debug s a b w) as [[st|e] w'] eqn:?
  | |- context [createBrowserContext ?s ?a ?w] =>
      let st := fresh "context" in let e := fresh "e" in
      let w' := fresh "w" in
      destruct (createBrowserContext s a w) as [[st|e] w'] eqn:?
  | |- context [setCookie ?s ?a ?b ?w] =>
      let e := fresh "e" in let w' := fresh "w" in
      destruct (setCookie s a b w) as [[[]|e] w'] eqn:?
  | |- context [existsSync ?s ?a ?w] =>
      let b := fresh "there" in let w' := fresh "w" in
      destruct (existsSync s a w) as [[|] w'] eqn:?
  | |- context [mkdirSync ?s ?a ?w] =>
      let e := fresh "e" in let w' := fresh "w" in
      destruct (mkdirSync s a w) as [[[]|e] w'] eqn:?
  | |- context [mkdtempSync ?s ?a ?w] =>
      let d := fresh "tmpDir" in let e := fresh "e" in
      let w' := fresh "w" in
      destruct (mkdtempSync s a w) as [[d|e] w'] eqn:?
  | |- context [writeFileSync ?s ?a ?b ?w] =>
      let e := fresh "e" in let w' := fresh "w" in
      destruct (writeFileSync s a b w) as [[[]|e] w'] eqn:?
  | |- context [puppeteer_launch ?s ?a ?w] =>
      let st := fresh "browser" in let e := fresh "e" in
      let w' := fresh "w" in
      destruct (puppeteer_launch s a w) as [[st|e] w'] eqn:?
  end.

Ltac branch :=
  match goal with
  | |- context [match truthy ?x with _ => _ end] =>
      lazymatch x with
      | context [match _ with _ => _ end] => fail
      | _ => destruct (truthy x) eqn:?
      end
  | |- context [if negb (String.eqb ?a ?b) then _ else _] =>
      destruct (String.eqb a b) eqn:?; cbn [negb]
  end.

Ltac split_options lo :=
  destruct lo as [[? ? ? ? ? ? ? ? ? ? ? ? [?|]]|].

Ltac run_getBrowser := repeat (unfold_getBrowser; first [call_sys | branch]).

Ltac trace_done :=
  eexists; split; [rewrite <- ?app_assoc; cbn [app]; reflexivity |].

Lemma getBrowser_cases (apiKey projectId : option string)
  (env : option Env) (headless : option bool)
  (browserbaseSessionCreateParams : option SessionCreateParams)
  (browserbaseSessionID : option string)
  (localBrowserLaunchOptions : option LocalBrowserLaunchOptions)
  (w : World) (tr : list Call) :
  getBrowser sys apiKey projectId env headless
    browserbaseSessionCreateParams browserbaseSessionID
    localBrowserLaunchOptions (w, tr)
  = match or_else env LOCAL, truthy apiKey with
    | BROWSERBASE, Some key =>
        browserbaseBrowser sys key projectId browserbaseSessionCreateParams
          browserbaseSessionID localBrowserLaunchOptions
          (w, (tr ++ warnings apiKey projectId env)%list)
    | _, _ =>
        localBrowser sys (or_else headless false) localBrowserLaunchOptions
          (w, (tr ++ warnings apiKey projectId env)%list)
    end.
Proof.
  unfold getBrowser, checkEnv, warnings.
  destruct (or_else env LOCAL).
  - unfold bind at 1, ret. now rewrite app_nil_r.
  - destruct (truthy apiKey) as [key|] eqn:Hkey;
      destruct (truthy projectId);
      cbv beta iota zeta delta [bind logger ret]; rewrite ?Hkey;
      cbn [app]; rewrite <- ?app_assoc, ?app_nil_r; reflexivity.
Qed.

(** X21: asked for [BROWSERBASE] without an API key, [getBrowser] logs
    that it falls back, and then does what it does for [LOCAL]: the error
    [BROWSERBASE_API_KEY is required.] is never raised.  The warning about
    the project is logged as well when that is missing too. *)
Theorem getBrowser_without_key_is_local (apiKey projectId : option string)
  (headless : option bool)
  (browserbaseSessionCreateParams : option SessionCreateParams)
  (browserbaseSessionID : option string)
  (localBrowserLaunchOptions : option LocalBrowserLaunchOptions)
  (w : World) (tr : list Call) :
  truthy apiKey = None ->
  getBrowser sys apiKey projectId (Some BROWSERBASE) headless
    browserbaseSessionCreateParams browserbaseSessionID
    localBrowserLaunchOptions (w, tr)
  = localBrowser sys (or_else headless false) localBrowserLaunchOptions
      (w, (tr ++ keyWarning
              :: match truthy projectId with
                 | None => [projectWarning]
                 | Some _ => []
                 end)%list).
Proof.
  intros Hkey. rewrite getBrowser_cases. unfold warnings. cbn [or_else].
  now rewrite Hkey.
Qed.

Lemma localBrowser_local (headless : bool)
  (localBrowserLaunchOptions : option LocalBrowserLaunchOptions)
  (w : World) (tr : list Call) :
  exists new,
    snd (snd (localBrowser sys headless localBrowserLaunchOptions (w, tr)))
    = (tr ++ new)%list
    /\ existsb is_service_call new = false
    /\ forall r,
         fst (localBrowser sys headless localBrowserLaunchOptions (w, tr))
         = Return r ->
         result_env r = LOCAL.
Proof.
  split_options localBrowserLaunchOptions.
  all: run_getBrowser; trace_done.
  all: split; [reflexivity | intros r Hr; try discriminate Hr].
  all: now injection Hr as <-.
Qed.

Lemma browserbaseBrowser_service (apiKey : string)
  (projectId : option string)
  (browserbaseSessionCreateParams : option SessionCreateParams)
  (browserbaseSessionID : option string)
  (localBrowserLaunchOptions : option LocalBrowserLaunchOptions)
  (w : World) (tr : list Call) :
  exists new,
    snd (snd (browserbaseBrowser sys apiKey projectId
                browserbaseSessionCreateParams browserbaseSessionID
                localBrowserLaunchOptions (w, tr)))
    = (tr ++ new)%list
    /\ existsb is_local_call new = false
    /\ forall r,
         fst (browserbaseBrowser sys apiKey projectId
                browserbaseSessionCreateParams browserbaseSessionID
                localBrowserLaunchOptions (w, tr))
         = Return r ->
         result_env r = BROWSERBASE.
Proof.
  split_options localBrowserLaunchOptions.
  all: run_getBrowser; trace_done.
  all: split; [reflexivity | intros r Hr; try discriminate Hr].
  all: now injection Hr as <-.
Qed.

Lemma warnings_are_logs (apiKey projectId : option string)
  (env : option Env) :
  existsb is_service_call (warnings apiKey projectId env) = false
  /\ existsb is_local_call (warnings apiKey projectId env) = false.
Proof.
  unfold warnings.
  destruct (or_else env LOCAL); [now split|].
  destruct (truthy apiKey), (truthy projectId); now split.
Qed.

Lemma getBrowser_result_side (apiKey projectId : option string)
  (env : option Env) (headless : option bool)
  (browserbaseSessionCreateParams : option SessionCreateParams)
  (browserbaseSessionID : option string)
  (localBrowserLaunchOptions : option LocalBrowserLaunchOptions)
  (w : World) (tr : list Call) (r : BrowserResult) :
  fst (getBrowser sys apiKey projectId env headless
         browserbaseSessionCreateParams browserbaseSessionID
         localBrowserLaunchOptions (w, tr)) = Return r ->
  result_env r = side apiKey env.
Proof.
  rewrite getBrowser_cases. unfold side.
  destruct (or_else env LOCAL);
    [| destruct (truthy apiKey) as [key|] ].
  - destruct (localBrowser_local (or_else headless false)
                localBrowserLaunchOptions w
                (tr ++ warnings apiKey projectId env))
      as (new & _ & _ & Hr).
    apply Hr.
  - destruct (browserbaseBrowser_service key projectId
                browserbaseSessionCreateParams browserbaseSessionID
                localBrowserLaunchOptions w
                (tr ++ warnings apiKey projectId env))
      as (new & _ & _ & Hr).
    apply Hr.
  - destruct (localBrowser_local (or_else headless false)
                localBrowserLaunchOptions w
                (tr ++ warnings apiKey projectId env))
      as (new & _ & _ & Hr).
    apply Hr.
Qed.

(** X22: [getBrowser] stays on one side.  On the Browserbase side it
    starts no browser on this machine and touches no file; on the local
    side, which it also takes when the API key is missing, it makes no call
    to the Browserbase service; and the [env] of the result it returns
    names the side it took. *)
Theorem getBrowser_stays_on_one_side (apiKey projectId : option string)
  (env : option Env) (headless : option bool)
  (browserbaseSessionCreateParams : option SessionCreateParams)
  (browserbaseSessionID : option string)
  (localBrowserLaunchOptions : option LocalBrowserLaunchOptions)
  (w : World) (tr : list Call) :
  let run := getBrowser sys apiKey projectId env headless
               browserbaseSessionCreateParams browserbaseSessionID
               localBrowserLaunchOptions (w, tr) in
  exists new,
    snd (snd run) = (tr ++ new)%list
    /\ existsb (match side apiKey env with
                | BROWSERBASE => is_local_call
                | LOCAL => is_service_call
                end) new = false
    /\ forall r, fst run = Return r -> result_env r = side apiKey env.
Proof.
  intros run. unfold run. rewrite getBrowser_cases. unfold side.
  destruct (warnings_are_logs apiKey projectId env) as [Hs Hl].
  assert (Hlocal :
    exists new,
      snd (snd (localBrowser sys (or_else headless false)
                  localBrowserLaunchOptions
                  (w, (tr ++ warnings apiKey projectId env)%list)))
      = (tr ++ new)%list
      /\ existsb is_service_call new = false
      /\ forall r,
           fst (localBrowser sys (or_else headless false)
                  localBrowserLaunchOptions
                  (w, (tr ++ warnings apiKey projectId env)%list))
           = Return r ->
           result_env r = LOCAL).
  { destruct (localBrowser_local (or_else headless false)
                localBrowserLaunchOptions w
                (tr ++ warnings apiKey projectId env))
      as (new & Hnew & Hno & Hr).
    exists (warnings apiKey projectId env ++ new)%list.
    split; [now rewrite Hnew, app_assoc|].
    split; [| exact Hr]. now rewrite existsb_app, Hs, Hno. }
  destruct (or_else env LOCAL); [exact Hlocal|].
  destruct (truthy apiKey) as [key|]; [| exact Hlocal].
  destruct (browserbaseBrowser_service key projectId
              browserbaseSessionCreateParams browserbaseSessionID
              localBrowserLaunchOptions w
              (tr ++ warnings apiKey projectId env))
    as (new & Hnew & Hno & Hr).
  exists (warnings apiKey projectId env ++ new)%list.
  split; [now rewrite Hnew, app_assoc|].
  split; [| exact Hr]. now rewrite existsb_app, Hl, Hno.
Qed.

Lemma resumeSession_failure (key id : string) (w w' : World)
  (tr : list Call) (answer : outcome SessionStatus) (e : exn) :
  sessions_retrieve sys key id w = (answer, w') ->
  resume_failure id answer = Some e ->
  resumeSession sys key id (w, tr)
  = (Throw e,
     (w', (tr ++ [ Retrieve key id;
                   log_of "init" "failed to resume session" (Some 1) ])%list)).
Proof.
  intros Hr Hf. unfold_getBrowser. rewrite Hr.
  destruct answer as [sessionStatus|e0]; cbn in Hf.
  - destruct (String.eqb (status sessionStatus) "RUNNING"); [discriminate|].
    injection Hf as <-. cbn [negb]. now rewrite <- app_assoc.
  - injection Hf as <-. now rewrite <- app_assoc.
Qed.

(** X23: a session that cannot be resumed is not replaced by a new one.
    When [sessions.retrieve] throws, or answers with a status other than
    [RUNNING], [getBrowser] logs [failed to resume session] and throws the
    error of the service, or [Session id is not running] with the status;
    it has made no other call: no session is created and no browser is
    connected. *)
Theorem getBrowser_resume_failure (apiKey projectId : option string)
  (headless : option bool)
  (browserbaseSessionCreateParams : option SessionCreateParams)
  (browserbaseSessionID : option string)
  (localBrowserLaunchOptions : option LocalBrowserLaunchOptions)
  (w w' : World) (tr : list Call) (key id : string)
  (answer : outcome SessionStatus) (e : exn) :
  truthy apiKey = Some key ->
  truthy browserbaseSessionID = Some id ->
  sessions_retrieve sys key id w = (answer, w') ->
  resume_failure id answer = Some e ->
  getBrowser sys apiKey projectId (Some BROWSERBASE) headless
    browserbaseSessionCreateParams browserbaseSessionID
    localBrowserLaunchOptions (w, tr)
  = (Throw e,
     (w', (tr ++ warnings apiKey projectId (Some BROWSERBASE)
              ++ [ Retrieve key id;
                   log_of "init" "failed to resume session" (Some 1) ])%list)).
Proof.
  intros Hkey Hid Hr Hf. rewrite getBrowser_cases. cbn [or_else].
  rewrite Hkey. unfold browserbaseBrowser. rewrite Hid.
  unfold bind at 1.
  rewrite (resumeSession_failure key id w w' _ answer e Hr Hf).
  now rewrite <- app_assoc.
Qed.

(** X24: a running session is resumed as it is: the browser is connected
    to the domain of the session's region, or to
    [wss://connect.browserbase.com] when the region has none, with the API
    key and the session id in the query; no session is created; and the
    result that [getBrowser] returns names the session that was asked for,
    with its page on [www.browserbase.com]. *)
Theorem getBrowser_resumes_running_session (apiKey projectId : option string)
  (headless : option bool)
  (browserbaseSessionCreateParams : option SessionCreateParams)
  (browserbaseSessionID : option string)
  (localBrowserLaunchOptions : option LocalBrowserLaunchOptions)
  (w w' : World) (tr : list Call) (key id : string)
  (sessionStatus : SessionStatus) :
  truthy apiKey = Some key ->
  truthy browserbaseSessionID = Some id ->
  sessions_retrieve sys key id w = (Return sessionStatus, w') ->
  status sessionStatus = "RUNNING" ->
  let run := getBrowser sys apiKey projectId (Some BROWSERBASE) headless
               browserbaseSessionCreateParams browserbaseSessionID
               localBrowserLaunchOptions (w, tr) in
  exists rest,
    snd (snd run)
    = (tr ++ warnings apiKey projectId (Some BROWSERBASE)
          ++ Retrieve key id
          :: log_of "init" "resuming existing browserbase session..." (Some 1)
          :: Connect
               (match region sessionStatus with
                | Some r => BROWSERBASE_REGION_DOMAIN r
                | None => "wss://connect.browserbase.com"
                end ++ "?apiKey=" ++ key ++ "&sessionId=" ++ id)
          :: rest)%list
    /\ (forall k p o, ~ In (Create k p o) rest)
    /\ forall r,
         fst run = Return r ->
         sessionId r = Some id
         /\ sessionUrl r = Some ("https://www.browserbase.com/sessions/" ++ id)
         /\ In (Debug key id) rest.
Proof.
  intros Hkey Hid Hr Hst run. unfold run. rewrite getBrowser_cases.
  cbn [or_else]. rewrite Hkey.
  assert (Hgoal : forall tr0, exists rest,
    snd (snd (browserbaseBrowser sys key projectId
                browserbaseSessionCreateParams browserbaseSessionID
                localBrowserLaunchOptions (w, tr0)))
    = (tr0 ++ Retrieve key id
          :: log_of "init" "resuming existing browserbase session..." (Some 1)
          :: Connect
               (match region sessionStatus with
                | Some r => BROWSERBASE_REGION_DOMAIN r
                | None => "wss://connect.browserbase.com"
                end ++ "?apiKey=" ++ key ++ "&sessionId=" ++ id)
          :: rest)%list
    /\ (forall k p o, ~ In (Create k p o) rest)
    /\ forall r,
         fst (browserbaseBrowser sys key projectId
                browserbaseSessionCreateParams browserbaseSessionID
                localBrowserLaunchOptions (w, tr0)) = Return r ->
         sessionId r = Some id
         /\ sessionUrl r = Some ("https://www.browserbase.com/sessions/" ++ id)
         /\ In (Debug key id) rest).
  { intros tr0.
    split_options localBrowserLaunchOptions.
    all: unfold_getBrowser.
    all: revert Hid; destruct (truthy browserbaseSessionID) as [id'|];
      intros Hid; [injection Hid as -> | discriminate Hid].
    all: cbv beta iota; rewrite Hr; cbv beta iota; rewrite Hst.
    all: cbn [String.eqb Ascii.eqb Bool.eqb negb].
    all: run_getBrowser.
    all: eexists; split;
      [rewrite <- ?app_assoc; cbn [app]; unfold log_of; reflexivity |].
    all: split;
      [intros k p o Hin; cbn in Hin;
       repeat (destruct Hin as [Hin|Hin]; [discriminate Hin|]); exact Hin |].
    all: intros r Hret; try discriminate Hret; injection Hret as <-.
    all: cbn; auto 10. }
  destruct (Hgoal (tr ++ warnings apiKey projectId (Some BROWSERBASE))%list)
    as (rest & H1 & H2 & H3).
  exists rest. rewrite H1, <- app_assoc. auto.
Qed.

(** X25: without a session to resume, [getBrowser] creates one, and for
    that it needs the project: when [projectId] is missing it throws before
    any call to the service, even if the session parameters name a project;
    when both name one, the session is created in the project of the
    parameters.  The result names the session that the service created, and
    the browser is connected to that session's URL. *)
Theorem getBrowser_creates_session (apiKey projectId : option string)
  (headless : option bool)
  (browserbaseSessionCreateParams : option SessionCreateParams)
  (browserbaseSessionID : option string)
  (localBrowserLaunchOptions : option LocalBrowserLaunchOptions)
  (w : World) (tr : list Call) (key : string) :
  truthy apiKey = Some key ->
  truthy browserbaseSessionID = None ->
  let run := getBrowser sys apiKey projectId (Some BROWSERBASE) headless
               browserbaseSessionCreateParams browserbaseSessionID
               localBrowserLaunchOptions (w, tr) in
  let creating :=
    log_of "init" "creating new browserbase session..." (Some 0) in
  match truthy projectId with
  | None =>
      run
      = (Throw
           (Error
              "BROWSERBASE_PROJECT_ID is required for new Browserbase sessions."),
         (w, (tr ++ [projectWarning; creating])%list))
  | Some pid =>
      let project :=
        match browserbaseSessionCreateParams with
        | Some {| params_projectId := Some p |} => p
        | _ => pid
        end in
      exists others rest,
        snd (snd run)
        = (tr ++ creating :: Create key project others :: rest)%list
        /\ (forall k i, ~ In (Retrieve k i) rest)
        /\ forall r,
             fst run = Return r ->
             exists session w',
               sessions_create sys key project others w
               = (Return session, w')
               /\ sessionId r = Some (session_id session)
               /\ In (Connect (connectUrl session)) rest
  end.
Proof.
  intros Hkey Hid run creating. unfold run. rewrite getBrowser_cases.
  unfold warnings. cbn [or_else]. rewrite Hkey.
  destruct (truthy projectId) as [pid|] eqn:Hpid.
  - cbn [app]. rewrite app_nil_r.
    split_options localBrowserLaunchOptions.
    all: unfold_getBrowser.
    all: revert Hid; destruct (truthy browserbaseSessionID) as [id'|];
      intros Hid; [discriminate Hid | clear Hid].
    all: cbv beta iota; rewrite Hpid; cbv beta iota.
    all: run_getBrowser.
    all: do 2 eexists; split;
      [rewrite <- ?app_assoc; cbn [app]; unfold creating, log_of;
       reflexivity |].
    all: split;
      [intros k i Hin; cbn in Hin;
       repeat (destruct Hin as [Hin|Hin]; [discriminate Hin|]); exact Hin |].
    all: intros r Hret; try discriminate Hret; injection Hret as <-.
    all: do 2 eexists; split; [eassumption|]; cbn; auto 10.
  - unfold browserbaseBrowser, createSession. rewrite Hid, Hpid.
    cbv beta iota zeta delta [bind logger throw].
    now rewrite <- app_assoc.
Qed.

(** X26: on the local side the profile directory of the browser is the
    [userDataDir] of the launch options when that is given, and then
    [getBrowser] makes no directory for it; otherwise it is [userdir] in a
    fresh directory that [mkdtempSync] made, with the default preferences
    written into it.  The browser is launched once, on that directory, and
    the result names it as [contextPath] and names no session. *)
Theorem getBrowser_local_profile (apiKey projectId : option string)
  (env : option Env) (headless : option bool)
  (browserbaseSessionCreateParams : option SessionCreateParams)
  (browserbaseSessionID : option string)
  (localBrowserLaunchOptions : option LocalBrowserLaunchOptions)
  (w : World) (tr : list Call) (r : BrowserResult) :
  side apiKey env = LOCAL ->
  fst (getBrowser sys apiKey projectId env headless
         browserbaseSessionCreateParams browserbaseSessionID
         localBrowserLaunchOptions (w, tr)) = Return r ->
  exists new dir,
    snd (snd (getBrowser sys apiKey projectId env headless
                browserbaseSessionCreateParams browserbaseSessionID
                localBrowserLaunchOptions (w, tr)))
    = (tr ++ new)%list
    /\ contextPath r = Some dir
    /\ sessionId r = None /\ sessionUrl r = None /\ debugUrl r = None
    /\ filter is_launch new
       = [ Launch (launchOptions dir (or_else headless false)
                     localBrowserLaunchOptions) ]
    /\ match truthy (option_bind localBrowserLaunchOptions lo_userDataDir)
       with
       | Some given => dir = given /\ existsb makes_profile new = false
       | None =>
           exists tmpDir,
             dir = path_join sys tmpDir "userdir"
             /\ In (MkdtempSync
                      (path_join sys
                         (path_join sys (tmpdir sys) "stagehand") "ctx_"))
                  new
             /\ In (WriteFileSync
                      (path_join sys tmpDir "userdir/Default/Preferences")
                      defaultPreferences) new
       end.
Proof.
  intros Hside. rewrite getBrowser_cases. unfold side in Hside.
  assert (Hlocal : forall tr0 new0,
    (tr0 = tr ++ new0)%list ->
    existsb makes_profile new0 = false ->
    filter is_launch new0 = [] ->
    fst (localBrowser sys (or_else headless false) localBrowserLaunchOptions
           (w, tr0)) = Return r ->
    exists new dir,
      snd (snd (localBrowser sys (or_else headless false)
                  localBrowserLaunchOptions (w, tr0)))
      = (tr ++ new)%list
      /\ contextPath r = Some dir
      /\ sessionId r = None /\ sessionUrl r = None /\ debugUrl r = None
      /\ filter is_launch new
         = [ Launch (launchOptions dir (or_else headless false)
                       localBrowserLaunchOptions) ]
      /\ match truthy (option_bind localBrowserLaunchOptions lo_userDataDir)
         with
         | Some given => dir = given /\ existsb makes_profile new = false
         | None =>
             exists tmpDir,
               dir = path_join sys tmpDir "userdir"
               /\ In (MkdtempSync
                        (path_join sys
                           (path_join sys (tmpdir sys) "stagehand") "ctx_"))
                    new
               /\ In (WriteFileSync
                        (path_join sys tmpDir "userdir/Default/Preferences")
                        defaultPreferences) new
         end).
  { intros tr0 new0 -> Hnp Hnl.
    split_options localBrowserLaunchOptions.
    all: run_getBrowser.
    all: cbn [fst]; intros Hret; try discriminate Hret; injection Hret as <-.
    all: do 2 eexists; split;
      [cbn [snd]; rewrite <- ?app_assoc; cbn [app]; reflexivity |].
    all: cbn [contextPath sessionId sessionUrl debugUrl].
    all: do 4 (split; [reflexivity|]).
    all: rewrite filter_app, Hnl; cbn [filter is_launch app].
    all: split; [reflexivity|].
    all: cbn [option_bind lo_userDataDir].
    all: repeat match goal with
                | H : truthy ?x = _ |- context [truthy ?x] => rewrite H
                end.
    all: try (split; [reflexivity|]; rewrite existsb_app, Hnp; reflexivity).
    all: eexists; split; [reflexivity|].
    all: split; apply in_or_app; right; cbn; auto 10. }
  destruct (or_else env LOCAL) eqn:Henv.
  - apply (Hlocal _ (warnings apiKey projectId env)); try reflexivity;
      unfold warnings; now rewrite Henv.
  - destruct (truthy apiKey) as [key|] eqn:Hkey; [discriminate Hside|].
    apply (Hlocal _ (warnings apiKey projectId env)); try reflexivity;
      unfold warnings; rewrite Henv, Hkey;
      now destruct (truthy projectId).
Qed.

End GetBrowserProperties.

Lemma getBrowser_without_key_is_local_witness :
  Browser.getBrowser Browser.demo None None (Some Browser.BROWSERBASE) None
    None None Browser.noOptions (0%nat, [])
  = Browser.localBrowser Browser.demo false Browser.noOptions
      (0%nat, [Browser.keyWarning; Browser.projectWarning]).
Proof.
  apply (getBrowser_without_key_is_local nat Browser.demo None None None None
           None Browser.noOptions 0%nat []).
  reflexivity.
Defined.

Lemma getBrowser_resume_failure_witness :
  Browser.getBrowser Browser.demo (Some "bb_key") (Some "proj-1")
    (Some Browser.BROWSERBASE) None None (Some "sess-0") Browser.noOptions
    (0%nat, [])
  = (Throw (Error "Session sess-0 is not running (status: COMPLETED)"),
     (1%nat,
      [ Browser.Retrieve "bb_key" "sess-0";
        Browser.log_of "init" "failed to resume session" (Some 1) ])).
Proof.
  apply (getBrowser_resume_failure nat Browser.demo (Some "bb_key")
           (Some "proj-1") None None (Some "sess-0") Browser.noOptions
           0%nat 1%nat [] "bb_key" "sess-0"
           (Return {| Browser.status := "COMPLETED";
                      Browser.region := None |})).
  all: reflexivity.
Defined.

Lemma getBrowser_resumes_running_session_witness :
  exists rest,
    snd (snd (Browser.getBrowser Browser.demo (Some "bb_key") (Some "proj-1")
                (Some Browser.BROWSERBASE) None None (Some "sess-1")
                Browser.noOptions (0%nat, [])))
    = Browser.Retrieve "bb_key" "sess-1"
      :: Browser.log_of "init" "resuming existing browserbase session..."
           (Some 1)
      :: Browser.Connect
           "wss://connect.euc1.browserbase.com?apiKey=bb_key&sessionId=sess-1"
      :: rest.
Proof.
  destruct (getBrowser_resumes_running_session nat Browser.demo
              (Some "bb_key") (Some "proj-1") None None (Some "sess-1")
              Browser.noOptions 0%nat 1%nat [] "bb_key" "sess-1"
              {| Browser.status := "RUNNING";
                 Browser.region := Some Browser.eu_central_1 |}
              eq_refl eq_refl eq_refl eq_refl)
    as (rest & Hrest & _).
  exists rest. exact Hrest.
Defined.

Lemma getBrowser_creates_session_witness :
  exists others rest,
    snd (snd (Browser.getBrowser Browser.demo (Some "bb_key") (Some "proj-1")
                (Some Browser.BROWSERBASE) None
                (Some {| Browser.params_projectId := Some "proj-2";
                         Browser.params_others := [] |})
                None Browser.noOptions (0%nat, [])))
    = Browser.log_of "init" "creating new browserbase session..." (Some 0)
      :: Browser.Create "bb_key" "proj-2" others :: rest.
Proof.
  destruct (getBrowser_creates_session nat Browser.demo (Some "bb_key")
              (Some "proj-1") None
              (Some {| Browser.params_projectId := Some "proj-2";
                       Browser.params_others := [] |})
              None Browser.noOptions 0%nat [] "bb_key" eq_refl eq_refl)
    as (others & rest & Hrest & _).
  exists others, rest. exact Hrest.
Defined.

Lemma getBrowser_local_profile_witness :
  exists r,
    fst (Browser.getBrowser Browser.demo None None None (Some true) None None
           Browser.noOptions (0%nat, [])) = Return r
    /\ Browser.contextPath r = Some "/tmp/stagehand/ctx_a1b2c3/userdir".
Proof.
  eexists. split; [reflexivity|].
  destruct (getBrowser_local_profile nat Browser.demo None None None
              (Some true) None None Browser.noOptions 0%nat [] _
              eq_refl eq_refl)
    as (new & dir & _ & Hdir & _).
  cbn. reflexivity.
Defined.

(** ** The class [Stagehand]: constructor, [env], [init] and [close] *)

Section LifecycleProperties.
Import Logs Browser Lifecycle.

(** X27: the constructor throws in API mode only: without [useAPI] it
    always returns, and registers no signal handler.  An instance in API
    mode was not asked for [LOCAL], has [STAGEHAND_API_URL] set, an OpenAI
    or Anthropic client, and its signal handlers registered.  A new instance
    has no API client, no context and no profile directory yet. *)
Theorem constructor_api_mode (getClient : string -> outcome string)
  (process_env : ProcessEnv) (params : ConstructorParams) :
  (or_else (p_useAPI params) false = false ->
   exists t,
     constructor getClient process_env params = Return t
     /\ usingAPI t = false /\ signalHandlers t = false)
  /\ forall t,
       constructor getClient process_env params = Return t ->
       (usingAPI t = true ->
        p_env params <> Some LOCAL
        /\ truthy (STAGEHAND_API_URL process_env) <> None
        /\ (llmClient t = Some "openai" \/ llmClient t = Some "anthropic")
        /\ signalHandlers t = true)
       /\ apiClient t = false /\ stagehandContext t = None
       /\ Lifecycle.contextPath t = None
       /\ intEnv t = p_env params.
Proof.
  unfold constructor. split.
  - intros ->. eexists. split; [reflexivity|]. now split.
  - intros t. destruct (or_else (p_useAPI params) false).
    + destruct (p_env params) as [[|]|] eqn:Henv; try discriminate;
        (destruct (truthy (STAGEHAND_API_URL process_env)) eqn:Hurl;
           [| discriminate]);
        match goal with
        | |- context [match ?c with Some _ => _ | None => Throw _ end] =>
            destruct c as [type|] eqn:Hc; [| discriminate]
        end;
        (destruct (String.eqb type "openai") eqn:Ho;
           [| destruct (String.eqb type "anthropic") eqn:Ha]);
        cbn [orb]; try discriminate;
        intros H; injection H as <-; cbn;
        rewrite ?Hc;
        (split; [intros _; repeat split; try discriminate | now repeat split]).
      all: try (apply String.eqb_eq in Ho; subst type; now left).
      all: try (apply String.eqb_eq in Ha; subst type; now right).
    + intros H. injection H as <-. cbn. split; [discriminate | now repeat split].
Qed.

Variable World : Type.
Variable sys : Sys World.

Lemma env_set_browserbaseSessionID (id : option string) (t : Stagehand) :
  env (set_browserbaseSessionID id t) = env t.
Proof. reflexivity. Qed.

Lemma env_after_getBrowser (t : Stagehand) (path : option string) :
  env (set_env_and_path (side (apiKey t) (Some (env t))) path t) = env t
  /\ env (set_env_and_path (env t) path t) = env t.
Proof.
  unfold env, side. cbn [intEnv apiKey projectId set_env_and_path or_else].
  destruct (intEnv t) as [[|]|]; try (now split).
  destruct (truthy (apiKey t)); [| now split].
  destruct (truthy (projectId t)); now split.
Qed.

(** What [getBrowser_or_empty] leaves behind: the instance as it was, and
    a result whose [env] is the one of the getter. *)
Lemma getBrowser_or_empty_env (t : Stagehand) (w : World) (tr : list Call) :
  exists r w' tr',
    getBrowser_or_empty sys (t, (w, tr)) = (Return r, (t, (w', tr')))
    /\ (result_env r = side (apiKey t) (Some (env t))
        \/ result_env r = env t).
Proof.
  unfold getBrowser_or_empty.
  pose proof (getBrowser_result_side World (browser_sys sys) (apiKey t)
                (projectId t) (Some (env t)) (Some (headless t))
                (browserbaseSessionCreateParams t) (browserbaseSessionID t)
                (localBrowserLaunchOptions t) w []) as Hr.
  destruct (getBrowser _ _ _ _ _ _ _ _ _) as [[r|e] [w' calls]].
  - do 3 eexists. split; [reflexivity|]. left. now apply Hr.
  - do 3 eexists. split; [reflexivity|]. now right.
Qed.

Ltac unfold_init :=
  cbv beta iota zeta delta
    [init close bind ret throw this assign perform note fst snd].

Ltac call_outside :=
  match goal with
  | |- context [apiClient_init ?s ?t ?w] =>
      let id := fresh "sessionId" in let e := fresh "e" in
      let w' := fresh "w" in
      destruct (apiClient_init s t w) as [[id|e] w'] eqn:?
  | |- context [getBrowser_or_empty ?s (?t, (?w, ?tr))] =>
      let r := fresh "result" in let w' := fresh "w" in
      let tr' := fresh "tr" in let Hrun := fresh "Hrun" in
      let Henv := fresh "Henv" in
      destruct (getBrowser_or_empty_env t w tr)
        as (r & w' & tr' & Hrun & Henv);
      rewrite Hrun
  | |- context [StagehandContext_init ?s ?c ?w] =>
      let x := fresh "context" in let e := fresh "e" in
      let w' := fresh "w" in
      destruct (StagehandContext_init s c w) as [[x|e] w'] eqn:?
  | |- context [getStagehandPages ?s ?c ?w] =>
      let x := fresh "pages" in let e := fresh "e" in
      let w' := fresh "w" in
      destruct (getStagehandPages s c w) as [[[|? x]|e] w'] eqn:?;
      cbn [hd_error]
  | |- context [setViewport ?s ?p ?a ?b ?w] =>
      let e := fresh "e" in let w' := fresh "w" in
      destruct (setViewport s p a b w) as [[[]|e] w'] eqn:?
  | |- context [apiClient_end ?s ?w] =>
      let x := fresh "response" in let e := fresh "e" in
      let w' := fresh "w" in
      destruct (apiClient_end s w) as [[x|e] w'] eqn:?
  | |- context [context_close ?s ?c ?w] =>
      let e := fresh "e" in let w' := fresh "w" in
      destruct (context_close s c w) as [[[]|e] w'] eqn:?
  | |- context [rmSync ?s ?p ?w] =>
      let e := fresh "e" in let w' := fresh "w" in
      destruct (rmSync s p w) as [[[]|e] w'] eqn:?
  end.

Ltac run_init := repeat (unfold_init; call_outside).

(** X28: [init] does not change what the getter [env] answers, whether it
    returns or throws: the side that [getBrowser] takes is the one that
    [env] named before, so that the [env] written back is the same; the
    keys and the mode of the instance stay as they are.  Called from
    [init], [getBrowser] has nothing to warn about: [env] answers
    [BROWSERBASE] only when the API key and the project are there. *)
Theorem init_keeps_env (initOptions : bool) (t : Stagehand) (w : World)
  (tr : list Call) :
  let final := fst (snd (init sys initOptions (t, (w, tr)))) in
  env final = env t
  /\ apiKey final = apiKey t /\ projectId final = projectId t
  /\ usingAPI final = usingAPI t
  /\ side (apiKey t) (Some (env t)) = env t
  /\ warnings (apiKey t) (projectId t) (Some (env t)) = [].
Proof.
  assert (Hcall : side (apiKey t) (Some (env t)) = env t
                  /\ warnings (apiKey t) (projectId t) (Some (env t)) = []).
  { unfold side, warnings, env. cbn [or_else].
    destruct (intEnv t) as [[|]|]; try (now split).
    destruct (truthy (apiKey t)); [| now split].
    destruct (truthy (projectId t)); now split. }
  destruct Hcall as [Hside Hwarn].
  assert (Hset : forall t0 e path,
            env t0 = env t ->
            e = side (apiKey t0) (Some (env t0)) \/ e = env t0 ->
            env (set_env_and_path e path t0) = env t).
  { intros t0 e path H0 [-> | ->]; rewrite <- H0;
      apply env_after_getBrowser. }
  intros final. unfold final. clear final.
  destruct initOptions, (usingAPI t) eqn:Hapi, (headless t) eqn:Hh.
  all: repeat (unfold_init; rewrite ?Hapi, ?Hh; call_outside).
  all: unfold_init; rewrite ?Hapi, ?Hh; cbv beta iota.
  all: try (now repeat split).
  all: split; [| now repeat split].
  all: match goal with
       | Henv : result_env ?r = side (apiKey ?t1) _ \/ _ |- env _ = env _ =>
           transitivity
             (env (set_env_and_path (result_env r) (Browser.contextPath r)
                     t1));
           [reflexivity | apply (Hset t1 _ _ eq_refl Henv)]
       end.
Qed.

(** X29: the two failures of [init].  In API mode an error of
    [apiClient.init] ends [init] with that error before [getBrowser] is
    called, and leaves the API client in place.  An error of [getBrowser]
    does not end [init]: it goes to [console.error], [init] goes on to
    [StagehandContext.init] without a context, and when it returns, its
    result names no session, the session id of the instance is gone, and
    [intEnv] is what the getter [env] answered. *)
Theorem init_and_failures (initOptions : bool) (t : Stagehand) (w : World)
  (tr : list Call) :
  (usingAPI t = true ->
   forall e w',
     apiClient_init sys (set_apiClient t) w = (Throw e, w') ->
     init sys initOptions (t, (w, tr))
     = (Throw e,
        (set_apiClient t,
         (w', (tr ++ deprecation initOptions
                  ++ [ApiInit (set_apiClient t)])%list))))
  /\ (usingAPI t = false ->
      forall e w' calls,
        getBrowser (browser_sys sys) (apiKey t) (projectId t) (Some (env t))
          (Some (headless t)) (browserbaseSessionCreateParams t)
          (browserbaseSessionID t) (localBrowserLaunchOptions t) (w, [])
        = (Throw e, (w', calls)) ->
        exists rest,
          snd (snd (snd (init sys initOptions (t, (w, tr)))))
          = (tr ++ deprecation initOptions ++ map Inner calls
                ++ ConsoleError "Error in init:" e
                :: ContextInit None :: rest)%list
          /\ existsb is_inner rest = false
          /\ forall r,
               fst (init sys initOptions (t, (w, tr))) = Return r ->
               r = {| init_debugUrl := None; init_sessionUrl := None;
                      init_sessionId := None |}
               /\ browserbaseSessionID
                    (fst (snd (init sys initOptions (t, (w, tr))))) = None
               /\ Lifecycle.contextPath
                    (fst (snd (init sys initOptions (t, (w, tr))))) = None
               /\ intEnv (fst (snd (init sys initOptions (t, (w, tr)))))
                  = Some (env t)).
Proof.
  split.
  - intros Hapi e w' Hinit.
    destruct initOptions; unfold_init; rewrite Hapi; unfold_init;
      rewrite Hinit; cbn [deprecation app];
      rewrite <- ?app_assoc; reflexivity.
  - intros Hapi e w' calls Hget.
    destruct initOptions, (headless t) eqn:Hh.
    all: unfold_init; rewrite Hapi; unfold_init.
    all: unfold getBrowser_or_empty; rewrite ?Hh; rewrite Hget; cbv beta iota.
    all: repeat (unfold_init; rewrite ?Hh; call_outside).
    all: unfold_init; rewrite ?Hh; cbv beta iota.
    all: eexists; split;
      [cbn [deprecation app result_context]; rewrite <- ?app_assoc;
       cbn [app]; reflexivity |].
    all: split; [reflexivity|].
    all: intros r Hr; try discriminate Hr; injection Hr as <-.
    all: now repeat split.
Qed.

(** X30: [close] in its two modes.  With an API client it ends the session
    through the API and does nothing to the browser context or the profile
    directory; it returns exactly when the API reports success or answers
    with status 409, and otherwise throws.  Without an API client it
    throws [Stagehand not initialized] before [init] has set a context;
    after that it closes the context, throws what that throws, and then
    removes the profile directory if the instance has one, an error of the
    removal going to [console.error] and not to the caller. *)
Theorem close_by_mode (t : Stagehand) (w : World) (tr : list Call) :
  (apiClient t = true ->
   exists new,
     snd (snd (snd (close sys (t, (w, tr))))) = (tr ++ ApiEnd :: new)%list
     /\ existsb closes_or_removes new = false
     /\ (fst (close sys (t, (w, tr))) = Return tt
         <-> exists response body,
               fst (apiClient_end sys w) = Return response
               /\ json response = Return body
               /\ (success body = true \/ response_status response = 409)))
  /\ (apiClient t = false ->
      match stagehandContext t with
      | None =>
          close sys (t, (w, tr))
          = (Throw
               (Error
                  "Stagehand not initialized. Make sure to await stagehand.init() first."),
             (t, (w, tr)))
      | Some context =>
          match context_close sys context w with
          | (Throw e, w') =>
              close sys (t, (w, tr))
              = (Throw e, (t, (w', (tr ++ [ContextClose context])%list)))
          | (Return _, w') =>
              fst (close sys (t, (w, tr))) = Return tt
              /\ snd (snd (snd (close sys (t, (w, tr)))))
                 = (tr ++ ContextClose context
                       :: match truthy (Lifecycle.contextPath t) with
                          | None => []
                          | Some path =>
                              RmSync path
                              :: match fst (rmSync sys path w') with
                                 | Throw e =>
                                     [ ConsoleError
                                         "Error deleting context directory:"
                                         e ]
                                 | Return _ => []
                                 end
                          end)%list
          end
      end).
Proof.
  split; intros Hapi.
  - unfold_init. rewrite Hapi. unfold_init.
    destruct (apiClient_end sys w) as [[response|e] w'] eqn:Hend.
    + destruct (json response) as [body|e] eqn:Hjson.
      * destruct (success body) eqn:Hs;
          [| destruct (response_status response =? 409) eqn:H409 ].
        -- exists []. split; [reflexivity|]. split; [reflexivity|].
           split; [intros _ | reflexivity].
           exists response, body. auto.
        -- apply Z.eqb_eq in H409. unfold_init. eexists.
           split; [rewrite <- app_assoc; reflexivity|].
           split; [reflexivity|]. split; [intros _ | reflexivity].
           exists response, body. auto.
        -- apply Z.eqb_neq in H409. exists [].
           split; [reflexivity|]. split; [reflexivity|]. cbn [fst].
           split; [discriminate|].
           intros (response' & body' & Hr & Hj & Hok).
           injection Hr as <-. rewrite Hjson in Hj. injection Hj as <-.
           destruct Hok as [Hok|Hok]; [rewrite Hs in Hok; discriminate Hok|].
           now elim H409.
      * exists []. split; [reflexivity|]. split; [reflexivity|]. cbn [fst].
        split; [discriminate|].
        intros (response' & body' & Hr & Hj & _).
        injection Hr as <-. rewrite Hjson in Hj. discriminate Hj.
    + exists []. split; [reflexivity|]. split; [reflexivity|]. cbn [fst].
      split; [discriminate|].
      intros (response' & body' & Hr & _). discriminate Hr.
  - destruct (stagehandContext t) as [context|] eqn:Hc.
    + destruct (context_close sys context w) as [[[]|e] w'] eqn:Hclose.
      * unfold_init. rewrite Hapi, Hc. unfold_init. rewrite Hclose.
        destruct (truthy (Lifecycle.contextPath t)) as [path|].
        -- unfold_init.
           destruct (rmSync sys path w') as [[[]|e] w''];
             (split; [reflexivity|]);
             rewrite <- ?app_assoc; reflexivity.
        -- now split.
      * unfold_init. rewrite Hapi, Hc. unfold_init. now rewrite Hclose.
    + unfold_init. rewrite Hapi, Hc. reflexivity.
Qed.

End LifecycleProperties.

Lemma init_and_failures_witness :
  Lifecycle.init Lifecycle.demo false
    (Lifecycle.instance Browser.BROWSERBASE (Some "bb_key") true None,
     (0%nat, []))
  = (Throw (Error "401 Unauthorized"),
     (Lifecycle.set_apiClient
        (Lifecycle.instance Browser.BROWSERBASE (Some "bb_key") true None),
      (1%nat,
       [ Lifecycle.ApiInit
           (Lifecycle.set_apiClient
              (Lifecycle.instance Browser.BROWSERBASE (Some "bb_key") true
                 None)) ]))).
Proof.
  apply (proj1 (init_and_failures nat Lifecycle.demo false
                  (Lifecycle.instance Browser.BROWSERBASE (Some "bb_key")
                     true None) 0%nat [])
           eq_refl (Error "401 Unauthorized") 1%nat eq_refl).
Defined.

Lemma close_by_mode_witness :
  Lifecycle.close Lifecycle.demo
    (Lifecycle.instance Browser.LOCAL None false None, (0%nat, []))
  = (Throw
       (Error
          "Stagehand not initialized. Make sure to await stagehand.init() first."),
     (Lifecycle.instance Browser.LOCAL None false None, (0%nat, []))).
Proof.
  apply (proj2 (close_by_mode nat Lifecycle.demo
                  (Lifecycle.instance Browser.LOCAL None false None)
                  0%nat [])
           eq_refl).
Defined.

Lemma constructor_api_mode_witness :
  exists t,
    Lifecycle.constructor (fun _ => Return "openai")
      {| Lifecycle.BROWSERBASE_API_KEY := Some "bb_key";
         Lifecycle.BROWSERBASE_PROJECT_ID := None;
         Lifecycle.STAGEHAND_API_URL := None |}
      {| Lifecycle.p_env := Some Browser.LOCAL;
         Lifecycle.p_apiKey := None;
         Lifecycle.p_projectId := None;
         Lifecycle.p_llmClient := None;
         Lifecycle.p_headless := None;
         Lifecycle.p_browserbaseSessionCreateParams := None;
         Lifecycle.p_browserbaseSessionID := None;
         Lifecycle.p_modelName := None;
         Lifecycle.p_useAPI := None;
         Lifecycle.p_localBrowserLaunchOptions := None |}
    = Return t
    /\ Lifecycle.usingAPI t = false /\ Lifecycle.signalHandlers t = false.
Proof.
  apply (proj1 (constructor_api_mode _ _ _)). reflexivity.
Defined.
